(** * Metadata extraction of the paper management application

    A shallow embedding of [src/app/api/papers/route.ts]: the six field
    extractors ([extractTitle], [extractAuthors], [extractAbstract],
    [extractDOI], [extractPublicationDate], [extractJournal]) and the
    assembling entry point [extractBasicInfo], together with the part of
    the JavaScript string and RegExp semantics these functions rely on.

    Strings are sequences of UTF-16 code units, as in JavaScript, so that
    [length], [trim] and the regular expressions count and classify
    characters exactly as the running program does.

    The request handlers of [src/app/api/papers/route.ts] and
    [src/app/api/papers/[id]/route.ts] follow, over an explicit record
    of what the session, the disk, pdf-parse and the database answer,
    and the state handling of the two upload forms. *)

From Stdlib Require Import String Ascii List ZArith Bool Lia.
Import ListNotations.
Local Open Scope Z_scope.

(* ================================================================== *)
(** * Part I: definitions                                              *)
(* ================================================================== *)

(** ** JavaScript strings *)

Module JS.

(** A UTF-16 code unit. *)
Definition cu := Z.

Definition jsstring := list cu.

(** Source literals are written as Rocq strings, whose bytes are the
    UTF-8 encoding of the text; [js] turns them into code units. *)
Fixpoint bytes_of (s : string) : list Z :=
  match s with
  | EmptyString => []
  | String a s' => Z.of_N (N_of_ascii a) :: bytes_of s'
  end.

Fixpoint utf16_of_utf8 (bs : list Z) : jsstring :=
  match bs with
  | [] => []
  | b0 :: t0 =>
    if b0 <? 0x80 then b0 :: utf16_of_utf8 t0
    else
      match t0 with
      | [] => [0xFFFD]
      | b1 :: t1 =>
        if b0 <? 0xE0 then
          ((b0 mod 0x20) * 0x40 + b1 mod 0x40) :: utf16_of_utf8 t1
        else
          match t1 with
          | [] => [0xFFFD]
          | b2 :: t2 =>
            if b0 <? 0xF0 then
              ((b0 mod 0x10) * 0x1000 + (b1 mod 0x40) * 0x40 + b2 mod 0x40)
                :: utf16_of_utf8 t2
            else
              match t2 with
              | [] => [0xFFFD]
              | b3 :: t3 =>
                let cp := (b0 mod 8) * 0x40000 + (b1 mod 0x40) * 0x1000
                          + (b2 mod 0x40) * 0x40 + b3 mod 0x40 - 0x10000 in
                (0xD800 + cp / 0x400) :: (0xDC00 + cp mod 0x400)
                  :: utf16_of_utf8 t3
              end
          end
      end
  end.

Definition js (s : string) : jsstring := utf16_of_utf8 (bytes_of s).

(** The line feed, written ['\n'] in the source. *)
Definition LF : cu := 0x0A.

Definition SPACE : cu := 0x20.

(** ECMAScript WhiteSpace and LineTerminator code points.  This one set
    is what [String.prototype.trim] strips and what the class [\s]
    matches. *)
Definition isWhiteSpace (c : cu) : bool :=
  ((0x09 <=? c) && (c <=? 0x0D))
  || (c =? 0x20) || (c =? 0xA0) || (c =? 0x1680)
  || ((0x2000 <=? c) && (c <=? 0x200A))
  || (c =? 0x2028) || (c =? 0x2029) || (c =? 0x202F) || (c =? 0x205F)
  || (c =? 0x3000) || (c =? 0xFEFF).

Definition isLineTerminator (c : cu) : bool :=
  (c =? 0x0A) || (c =? 0x0D) || (c =? 0x2028) || (c =? 0x2029).

Fixpoint trimStart (s : jsstring) : jsstring :=
  match s with
  | [] => []
  | c :: s' => if isWhiteSpace c then trimStart s' else s
  end.

Definition trimEnd (s : jsstring) : jsstring := rev (trimStart (rev s)).

(** [String.prototype.trim]. *)
Definition trim (s : jsstring) : jsstring := trimEnd (trimStart s).

(** [String.prototype.split] with a separator of one code unit.  The
    result is never empty: the empty string splits into one empty piece. *)
Fixpoint split (s : jsstring) (sep : cu) : list jsstring :=
  match s with
  | [] => [[]]
  | c :: s' =>
    if c =? sep then [] :: split s' sep
    else
      match split s' sep with
      | piece :: pieces => (c :: piece) :: pieces
      | [] => [[c]]
      end
  end.

(** [Array.prototype.slice] and [String.prototype.substring] at indices
    that are natural numbers. *)
Definition slice {A : Type} (l : list A) (from to : nat) : list A :=
  firstn (to - from) (skipn from l).

Definition substring (s : jsstring) (a b : nat) : jsstring :=
  firstn (Nat.max a b - Nat.min a b) (skipn (Nat.min a b) s).

Fixpoint startsWith (s sub : jsstring) {struct sub} : bool :=
  match sub, s with
  | [], _ => true
  | _ :: _, [] => false
  | x :: sub', c :: s' => (c =? x) && startsWith s' sub'
  end.

(** [String.prototype.includes]. *)
Fixpoint includes (s sub : jsstring) : bool :=
  startsWith s sub
  || match s with
     | [] => false
     | _ :: s' => includes s' sub
     end.

(** Numbers, as far as the extractors use them: an integer or NaN. *)
Definition number := option Z.

Definition NaN : number := None.

Definition digitValue (radix : Z) (c : cu) : option Z :=
  let v :=
    if (48 <=? c) && (c <=? 57) then c - 48
    else if (97 <=? c) && (c <=? 122) then c - 87
    else if (65 <=? c) && (c <=? 90) then c - 55
    else 36 in
  if v <? radix then Some v else None.

(** The longest prefix of digits, read in the given radix. *)
Fixpoint parseDigits (radix : Z) (s : jsstring) (acc : number) : number :=
  match s with
  | [] => acc
  | c :: s' =>
    match digitValue radix c with
    | Some v =>
      parseDigits radix s'
        (Some (match acc with Some a => a * radix + v | None => v end))
    | None => acc
    end
  end.

(** [ToString] of a value that is a string or [undefined]. *)
Definition toString (v : option jsstring) : jsstring :=
  match v with
  | Some s => s
  | None => js "undefined"
  end.

(** [parseInt(v)] with no radix argument. *)
Definition parseInt (v : option jsstring) : number :=
  let s := trimStart (toString v) in
  let '(sign, s1) :=
    match s with
    | 45 :: t => (-1, t)
    | 43 :: t => (1, t)
    | _ => (1, s)
    end in
  let '(radix, s2) :=
    match s1 with
    | 48 :: 120 :: t => (16, t)
    | 48 :: 88 :: t => (16, t)
    | _ => (10, s1)
    end in
  match parseDigits radix s2 NaN with
  | Some n => Some (sign * n)
  | None => NaN
  end.

(** [n || d] on numbers: zero and NaN are falsy. *)
Definition numberOr (n : number) (d : Z) : Z :=
  match n with
  | Some 0 => d
  | Some v => v
  | None => d
  end.

(** [s || d] on a string-or-null: null and the empty string are falsy. *)
Definition stringOr (s : option jsstring) (d : jsstring) : jsstring :=
  match s with
  | Some (c :: s') => c :: s'
  | Some [] => d
  | None => d
  end.

(** Exceptions: a computation returns or throws. *)
Inductive JSError : Type :=
| TypeError
| Rejected.

Inductive Exc (A : Type) : Type :=
| Ok (a : A)
| Throw (e : JSError).

Arguments Ok {A} a.
Arguments Throw {A} e.

Definition bind {A B : Type} (m : Exc A) (f : A -> Exc B) : Exc B :=
  match m with
  | Ok a => f a
  | Throw e => Throw e
  end.

(** [try { body } catch (error) { handler }]. *)
Definition tryCatch {A : Type} (body : Exc A) (handler : JSError -> Exc A)
  : Exc A :=
  match body with
  | Ok a => Ok a
  | Throw e => handler e
  end.

(** Calling a method on a value that may be [undefined]. *)
Definition deref {A : Type} (v : option A) : Exc A :=
  match v with
  | Some a => Ok a
  | None => Throw TypeError
  end.

End JS.

Export JS.

Notation "x <- m ;; f" := (bind m (fun x => f))
  (at level 61, m at next level, right associativity).

(** ** Regular expressions *)

Module RegExp.

(** A set of code units, given by its membership test. *)
Definition charset := cu -> bool.

(** The patterns of the source use: literal characters and classes,
    quantifiers applied to one character or class ([*], [+], [?],
    [{n}], [{m,n}], and the lazy [*?]), sequence, alternation, capture
    groups, the assertions [^] and [$] (no [m] flag occurs) and positive
    lookahead.  Flags [i] and [s] act on the character sets, see below. *)
Inductive regex : Type :=
| Eps : regex
| Chr : charset -> regex
| Rep : charset -> nat -> option nat -> bool -> regex
| Seq : regex -> regex -> regex
| Alt : regex -> regex -> regex
| Group : nat -> regex -> regex
| Bol : regex
| Eol : regex
| Ahead : regex -> regex.

Definition captures := list (nat * jsstring).

(** The state of a match in progress: the index reached in the input,
    the input that remains from there, and the groups captured so far
    (the most recent capture of a group comes first). *)
Record mstate : Type := MState {
  pos : nat;
  rest : jsstring;
  caps : captures
}.

Definition cont := mstate -> option mstate.

(** The quantifier [p{min,max}], greedy or lazy, in the manner of the
    RepeatMatcher of ECMA-262: stop when [max] is exhausted, take a
    further character while [min] requires it, and otherwise try both
    ways, the longer one first when greedy.  (Bounds with [max < min] are
    a syntax error in a pattern; here they match nothing.) *)
Fixpoint rep (p : charset) (greedy : bool) (min : nat) (max : option nat)
    (n : nat) (s : jsstring) (cs : captures) (k : cont) {struct s}
  : option mstate :=
  match max with
  | Some O =>
    match min with
    | O => k (MState n s cs)
    | S _ => None
    end
  | _ =>
    match min with
    | S min' =>
      match s with
      | c :: s' =>
        if p c then rep p greedy min' (option_map Nat.pred max) (S n) s' cs k
        else None
      | [] => None
      end
    | O =>
      if greedy then
        match
          match s with
          | c :: s' =>
            if p c then rep p greedy O (option_map Nat.pred max) (S n) s' cs k
            else None
          | [] => None
          end
        with
        | Some r => Some r
        | None => k (MState n s cs)
        end
      else
        match k (MState n s cs) with
        | Some r => Some r
        | None =>
          match s with
          | c :: s' =>
            if p c then rep p greedy O (option_map Nat.pred max) (S n) s' cs k
            else None
          | [] => None
          end
        end
    end
  end.

(** The backtracking matcher, in continuation-passing style: [run r st k]
    matches [r] at [st] and hands the state reached to [k]; when [k]
    fails the next alternative of [r] is tried. *)
Fixpoint run (r : regex) (st : mstate) (k : cont) {struct r} : option mstate :=
  match r with
  | Eps => k st
  | Chr p =>
    match rest st with
    | c :: s' => if p c then k (MState (S (pos st)) s' (caps st)) else None
    | [] => None
    end
  | Rep p min max greedy => rep p greedy min max (pos st) (rest st) (caps st) k
  | Seq r1 r2 => run r1 st (fun st1 => run r2 st1 k)
  | Alt r1 r2 =>
    match run r1 st k with
    | Some res => Some res
    | None => run r2 st k
    end
  | Group i r1 =>
    run r1 st
      (fun st1 =>
         k (MState (pos st1) (rest st1)
              ((i, firstn (pos st1 - pos st) (rest st)) :: caps st1)))
  | Bol => if Nat.eqb (pos st) 0 then k st else None
  | Eol =>
    match rest st with
    | [] => k st
    | _ :: _ => None
    end
  | Ahead r1 =>
    match run r1 st Some with
    | Some st1 => k (MState (pos st) (rest st) (caps st1))
    | None => None
    end
  end.

(** The first index, from [n] on, at which the pattern matches. *)
Fixpoint search (r : regex) (n : nat) (s : jsstring) {struct s}
  : option (nat * jsstring * mstate) :=
  match run r (MState n s []) Some with
  | Some st => Some (n, s, st)
  | None =>
    match s with
    | [] => None
    | _ :: s' => search r (S n) s'
    end
  end.

(** What [RegExp.prototype.exec] returns for a pattern without the [g]
    flag: the index of the match, the matched text (element [0]) and the
    captured groups (elements [1], [2], ...). *)
Record MatchResult : Type := MkMatch {
  index : nat;
  matched : jsstring;
  groups : captures
}.

Definition exec (r : regex) (s : jsstring) : option MatchResult :=
  match search r 0 s with
  | Some (i, from, st) => Some (MkMatch i (firstn (pos st - i) from) (caps st))
  | None => None
  end.

Fixpoint lookup (i : nat) (cs : captures) : option jsstring :=
  match cs with
  | [] => None
  | (j, v) :: cs' => if Nat.eqb i j then Some v else lookup i cs'
  end.

(** [m[i]] for [i >= 1]: the text of group [i], or [undefined]. *)
Definition group (i : nat) (m : MatchResult) : option jsstring :=
  lookup i (groups m).

(** [s.match(r)] used as a condition. *)
Definition test (r : regex) (s : jsstring) : bool :=
  match exec r s with
  | Some _ => true
  | None => false
  end.

(** [s.replace(r, '')] for a pattern without the [g] flag: the first
    match is removed. *)
Definition removeFirst (r : regex) (s : jsstring) : jsstring :=
  match exec r s with
  | Some m =>
    firstn (index m) s ++ skipn (index m + List.length (matched m)) s
  | None => s
  end.

(** *** Character sets *)

Definition one (c : cu) : charset := fun x => x =? c.

Definition range (lo hi : cu) : charset := fun x => (lo <=? x) && (x <=? hi).

Definition union (p q : charset) : charset := fun x => p x || q x.

Definition except (p : charset) : charset := fun x => negb (p x).

(** [\d] and [\s]. *)
Definition digit : charset := range 48 57.

Definition space : charset := isWhiteSpace.

(** [.] under the [s] flag, and without it. *)
Definition dotAll : charset := fun _ => true.

Definition dot : charset := except isLineTerminator.

(** Canonicalize of ECMA-262 for a pattern with the [i] flag and without
    the [u] flag maps a code unit to its upper case, except that a code
    unit outside ASCII never maps into ASCII.  Every letter written in
    the patterns of the source is an ASCII letter, so a text character
    agrees with it exactly when the two are the same ASCII letter up to
    case.  The other atoms of those patterns (digits, punctuation, [\s],
    [[^,]], [[^\s]]) contain no cased character and no upper case of
    one, so the flag leaves them as they are. *)
Definition canonicalize (c : cu) : cu :=
  if (97 <=? c) && (c <=? 122) then c - 32 else c.

Definition oneCI (c : cu) : charset :=
  fun x => canonicalize x =? canonicalize c.

(** *** Pattern syntax *)

Definition star (p : charset) : regex := Rep p 0 None true.

Definition lazyStar (p : charset) : regex := Rep p 0 None false.

Definition plus (p : charset) : regex := Rep p 1 None true.

Definition opt (p : charset) : regex := Rep p 0 (Some 1%nat) true.

Definition times (p : charset) (min max : nat) : regex :=
  Rep p min (Some max) true.

Definition seq (rs : list regex) : regex := fold_right Seq Eps rs.

Fixpoint alt (r : regex) (rs : list regex) : regex :=
  match rs with
  | [] => r
  | r' :: rs' => Alt r (alt r' rs')
  end.

(** A run of literal characters, without and with the [i] flag. *)
Definition lit (s : jsstring) : regex := seq (map (fun c => Chr (one c)) s).

Definition litCI (s : jsstring) : regex :=
  seq (map (fun c => Chr (oneCI c)) s).

End RegExp.

Export RegExp.

(** ** The extractors of [route.ts] *)

Module Route.

(** The value that [new Date(year, monthIndex, day)] is built from. *)
Record JSDate : Type := NewDate {
  dateYear : number;
  dateMonthIndex : Z;
  dateDay : Z
}.

(** The object that [extractBasicInfo] resolves to.  An optional field
    that is [null] or missing is [None]. *)
Record BasicInfo : Type := MkBasicInfo {
  title : jsstring;
  authors : list jsstring;
  abstract : option jsstring;
  doi : option jsstring;
  publicationDate : option JSDate;
  journal : option jsstring
}.

(** The sentinel title. *)
Definition unknownTitle : jsstring := js "タイトル不明".

(** [/^\d+\./] *)
Definition numberedRe : regex :=
  seq [Bol; plus digit; Chr (one 46)].

(** [/^(abstract|introduction|conclusion)/i] *)
Definition sectionRe : regex :=
  seq [Bol;
       Group 1 (alt (litCI (js "abstract"))
                  [litCI (js "introduction"); litCI (js "conclusion")])].

(** [/^[A-Z\s]+$/] *)
Definition upperRe : regex :=
  seq [Bol; plus (union (range 65 90) space); Eol].

(** [/^[A-Z][a-z]+\s+[A-Z][a-z]+/] *)
Definition nameRe : regex :=
  seq [Bol; Chr (range 65 90); plus (range 97 122); plus space;
       Chr (range 65 90); plus (range 97 122)].

(** [/^(Abstract|Introduction|Conclusion)/i] *)
Definition headingRe : regex :=
  seq [Bol;
       Group 1 (alt (litCI (js "Abstract"))
                  [litCI (js "Introduction"); litCI (js "Conclusion")])].

(** [/abstract\s*:?\s*(.*?)(?=introduction|1\.|keywords|key\s*words)/is] *)
Definition abstractRe : regex :=
  seq [litCI (js "abstract"); star space; opt (one 58); star space;
       Group 1 (lazyStar dotAll);
       Ahead (alt (litCI (js "introduction"))
                [seq [Chr (one 49); Chr (one 46)];
                 litCI (js "keywords");
                 seq [litCI (js "key"); star space; litCI (js "words")]])].

(** [/doi\s*:?\s*10\.\d+\/[^\s]+/i] *)
Definition doiRe : regex :=
  seq [litCI (js "doi"); star space; opt (one 58); star space;
       Chr (one 49); Chr (one 48); Chr (one 46); plus digit; Chr (one 47);
       plus (except space)].

(** [/doi\s*:?\s*/i] *)
Definition doiLabelRe : regex :=
  seq [litCI (js "doi"); star space; opt (one 58); star space].

(** The three date patterns:
    [/(\d{4})\s*年\s*(\d{1,2})\s*月/],
    [/(\d{4})[-\/](\d{1,2})[-\/](\d{1,2})/] and
    [/(\d{4})\s+(\d{1,2})\s+(\d{1,2})/]. *)
Definition datePatterns : list regex :=
  [ seq [Group 1 (times digit 4 4); star space; lit (js "年"); star space;
         Group 2 (times digit 1 2); star space; lit (js "月")];
    seq [Group 1 (times digit 4 4); Chr (union (one 45) (one 47));
         Group 2 (times digit 1 2); Chr (union (one 45) (one 47));
         Group 3 (times digit 1 2)];
    seq [Group 1 (times digit 4 4); plus space;
         Group 2 (times digit 1 2); plus space;
         Group 3 (times digit 1 2)] ].

(** The three journal patterns: [/published\s+in\s+([^,]+)/i],
    [/journal\s+of\s+([^,]+)/i] and [/proceedings\s+of\s+([^,]+)/i]. *)
Definition journalPatterns : list regex :=
  [ seq [litCI (js "published"); plus space; litCI (js "in"); plus space;
         Group 1 (plus (except (one 44)))];
    seq [litCI (js "journal"); plus space; litCI (js "of"); plus space;
         Group 1 (plus (except (one 44)))];
    seq [litCI (js "proceedings"); plus space; litCI (js "of"); plus space;
         Group 1 (plus (except (one 44)))] ].

(** [text.split('\n').slice(0, count)]: the lines an extractor scans. *)
Definition lines (text : jsstring) (count : nat) : list jsstring :=
  slice (split text LF) 0 count.

(** The loop of [extractTitle] over the lines it was given. *)
Fixpoint extractTitleFrom (lines : list jsstring) : option jsstring :=
  match lines with
  | [] => None
  | line :: lines' =>
    let trimmed := trim line in
    if Nat.ltb 10 (List.length trimmed) && Nat.ltb (List.length trimmed) 200
    then
      if negb (test numberedRe trimmed)
         && negb (test sectionRe trimmed)
         && negb (test upperRe trimmed)
         && includes trimmed (js " ")
      then Some trimmed
      else extractTitleFrom lines'
    else extractTitleFrom lines'
  end.

Definition extractTitle (text : jsstring) : option jsstring :=
  extractTitleFrom (lines text 10).

(** The loop of [extractAuthors]: [authors] is the array pushed to. *)
Fixpoint extractAuthorsFrom (lines : list jsstring) (authors : list jsstring)
  : list jsstring :=
  match lines with
  | [] => authors
  | line :: lines' =>
    let trimmed := trim line in
    if test nameRe trimmed && negb (test headingRe trimmed)
    then extractAuthorsFrom lines' (authors ++ [trimmed])
    else extractAuthorsFrom lines' authors
  end.

Definition extractAuthors (text : jsstring) : list jsstring :=
  slice (extractAuthorsFrom (lines text 20) []) 0 5.

(** [abstractMatch[1].trim()] throws when element 1 is [undefined]. *)
Definition extractAbstract (text : jsstring) : Exc (option jsstring) :=
  match exec abstractRe text with
  | Some abstractMatch =>
    captured <- deref (group 1 abstractMatch) ;;
    Ok (Some (substring (trim captured) 0 1000))
  | None => Ok None
  end.

Definition extractDOI (text : jsstring) : option jsstring :=
  match exec doiRe text with
  | Some doiMatch => Some (removeFirst doiLabelRe (matched doiMatch))
  | None => None
  end.

(** The date built from a match of one of the patterns. *)
Definition dateOfMatch (m : MatchResult) : JSDate :=
  let year := parseInt (group 1 m) in
  let month := numberOr (parseInt (group 2 m)) 1 in
  let day := numberOr (parseInt (group 3 m)) 1 in
  NewDate year (month - 1) day.

Fixpoint extractPublicationDateFrom (patterns : list regex) (text : jsstring)
  : option JSDate :=
  match patterns with
  | [] => None
  | pattern :: patterns' =>
    match exec pattern text with
    | Some m => Some (dateOfMatch m)
    | None => extractPublicationDateFrom patterns' text
    end
  end.

Definition extractPublicationDate (text : jsstring) : option JSDate :=
  extractPublicationDateFrom datePatterns text.

Fixpoint extractJournalFrom (patterns : list regex) (text : jsstring)
  : Exc (option jsstring) :=
  match patterns with
  | [] => Ok None
  | pattern :: patterns' =>
    match exec pattern text with
    | Some m =>
      captured <- deref (group 1 m) ;;
      Ok (Some (trim captured))
    | None => extractJournalFrom patterns' text
    end
  end.

Definition extractJournal (text : jsstring) : Exc (option jsstring) :=
  extractJournalFrom journalPatterns text.

(** What the [catch] branch returns. *)
Definition degraded : BasicInfo :=
  MkBasicInfo unknownTitle [] None None None None.

Section Pipeline.

(** The PDF-to-text step, [(await pdf(pdfBuffer)).text], belongs to the
    [pdf-parse] package: it yields the text or rejects. *)
Variable Buffer : Type.
Variable pdf : Buffer -> Exc jsstring.

(** The body of the [try] block, given the text. *)
Definition assemble (text : jsstring) : Exc BasicInfo :=
  let title := extractTitle text in
  let authors := extractAuthors text in
  abstract <- extractAbstract text ;;
  let doi := extractDOI text in
  let publicationDate := extractPublicationDate text in
  journal <- extractJournal text ;;
  Ok (MkBasicInfo (stringOr title unknownTitle) authors abstract doi
        publicationDate journal).

Definition extractBasicInfo (pdfBuffer : Buffer) : Exc BasicInfo :=
  tryCatch
    (text <- pdf pdfBuffer ;; assemble text)
    (fun error => Ok degraded).

End Pipeline.

Arguments assemble text : simpl never.
Arguments extractBasicInfo {Buffer} pdf pdfBuffer.

End Route.

Export Route.

(** ** What a match is

    The matcher above is an algorithm.  The relation below says which
    states a pattern can lead to from a given state, whatever the order
    in which the matcher tries them. *)

Module Sem.

Definition within (max : option nat) (n : nat) : Prop :=
  match max with
  | Some m => (n <= m)%nat
  | None => True
  end.

Fixpoint matches (r : regex) (st st' : mstate) {struct r} : Prop :=
  match r with
  | Eps => st' = st
  | Chr p =>
    exists c, rest st = c :: rest st' /\ p c = true
              /\ pos st' = S (pos st) /\ caps st' = caps st
  | Rep p min max _ =>
    exists w, rest st = w ++ rest st' /\ forallb p w = true
              /\ (min <= List.length w)%nat /\ within max (List.length w)
              /\ pos st' = (pos st + List.length w)%nat /\ caps st' = caps st
  | Seq r1 r2 => exists st1, matches r1 st st1 /\ matches r2 st1 st'
  | Alt r1 r2 => matches r1 st st' \/ matches r2 st st'
  | Group i r1 =>
    exists st1, matches r1 st st1
                /\ st' = MState (pos st1) (rest st1)
                          ((i, firstn (pos st1 - pos st) (rest st)) :: caps st1)
  | Bol => pos st = O /\ st' = st
  | Eol => rest st = [] /\ st' = st
  | Ahead r1 =>
    exists st1, matches r1 st st1
                /\ st' = MState (pos st) (rest st) (caps st1)
  end.

(** The pattern matches somewhere in the text: after [before], on a
    prefix [w] of what follows. *)
Definition occurs (r : regex) (text : jsstring) : Prop :=
  exists before from st',
    text = before ++ from
    /\ matches r (MState (List.length before) from []) st'.

(** Whether a pattern contains a capture group. *)
Fixpoint hasGroup (r : regex) : bool :=
  match r with
  | Eps | Chr _ | Rep _ _ _ _ | Bol | Eol => false
  | Seq r1 r2 | Alt r1 r2 => hasGroup r1 || hasGroup r2
  | Group _ _ => true
  | Ahead r1 => hasGroup r1
  end.

(** A continuation whose success does not depend on the captures; no
    pattern here has a back-reference, so every continuation is such. *)
Definition blind (k : cont) : Prop :=
  forall n s cs cs',
    k (MState n s cs) = None <-> k (MState n s cs') = None.

End Sem.

Export Sem.

(** ** The rules the line scanners apply

    The conditions under which [extractTitle] returns a trimmed line and
    [extractAuthors] keeps one, named so that the scans can be stated as
    "the first line that passes" and "the lines that pass". *)

Module Rules.

(** The lines as the scanners see them: split, limited, trimmed. *)
Definition normalizedLines (text : jsstring) (count : nat) : list jsstring :=
  map trim (lines text count).

Definition lengthInBounds (l : jsstring) : bool :=
  Nat.ltb 10 (List.length l) && Nat.ltb (List.length l) 200.

Definition isNumbered (l : jsstring) : bool := test numberedRe l.

Definition isSection (l : jsstring) : bool := test sectionRe l.

Definition isUppercase (l : jsstring) : bool := test upperRe l.

Definition hasSpace (l : jsstring) : bool := includes l (js " ").

Definition titleRule (l : jsstring) : bool :=
  lengthInBounds l && negb (isNumbered l) && negb (isSection l)
  && negb (isUppercase l) && hasSpace l.

Definition authorRule (l : jsstring) : bool :=
  test nameRe l && negb (test headingRe l).

(** The section keywords of [sectionRe] and [headingRe]. *)
Definition sectionKeywords : list jsstring :=
  [js "abstract"; js "introduction"; js "conclusion"].

(** An upper-case letter, [A] to [Z]. *)
Definition isUpperLetter (c : cu) : bool := range 65 90 c.

(** The match of the first pattern, in the order of the list, that
    matches somewhere in the text. *)
Fixpoint firstMatching (patterns : list regex) (text : jsstring)
  : option MatchResult :=
  match patterns with
  | [] => None
  | pattern :: patterns' =>
    match exec pattern text with
    | Some m => Some m
    | None => firstMatching patterns' text
    end
  end.

(** A [doi] label as [doiRe] accepts it: the three letters in any case,
    white space, a colon or none, white space. *)
Definition isDoiLabel (lab : jsstring) : Prop :=
  exists d sp1 colon sp2,
    lab = d ++ sp1 ++ colon ++ sp2
    /\ map canonicalize d = js "DOI"
    /\ forallb isWhiteSpace sp1 = true
    /\ (colon = [] \/ colon = js ":")
    /\ forallb isWhiteSpace sp2 = true.

(** A DOI-shaped token: [10.], digits, a slash, and characters other
    than white space. *)
Definition isDoiToken (tok : jsstring) : Prop :=
  exists ds tl,
    tok = js "10." ++ ds ++ js "/" ++ tl
    /\ ds <> [] /\ forallb digit ds = true
    /\ tl <> [] /\ forallb (except space) tl = true.

(** The text that remains is empty or begins with a character of the
    class. *)
Definition nextIs (p : charset) (s : jsstring) : Prop :=
  match s with
  | [] => True
  | c :: _ => p c = true
  end.

(** The two words of each journal pattern. *)
Definition journalPhrases : list (jsstring * jsstring) :=
  [ (js "published", js "in"); (js "journal", js "of");
    (js "proceedings", js "of") ].

(** What stands before the capture of a journal pattern: the two words
    in any case, each followed by white space. *)
Definition isPhraseLead (a b lead : jsstring) : Prop :=
  exists va sp1 vb sp2,
    lead = va ++ sp1 ++ vb ++ sp2
    /\ map canonicalize va = map canonicalize a
    /\ sp1 <> [] /\ forallb isWhiteSpace sp1 = true
    /\ map canonicalize vb = map canonicalize b
    /\ sp2 <> [] /\ forallb isWhiteSpace sp2 = true.

(** The first of the date patterns, [YYYY年MM月]. *)
Definition yearMonthRe : regex := nth 0 datePatterns Eps.

(** The first of the journal patterns, [published in X]. *)
Definition publishedInRe : regex := nth 0 journalPatterns Eps.

End Rules.

Export Rules.

(* ------------------------------------------------------------------ *)
(** ** Vocabulary for what the extractors return                       *)
(* ------------------------------------------------------------------ *)

Module Shapes.

(** The number of line feeds of a text: one less than the number of
    pieces of [text.split('\n')]. *)
Definition countLF (s : jsstring) : nat := count_occ Z.eq_dec s LF.

(** Between [lo] and [hi] decimal digits, as [\d{lo,hi}] asks. *)
Definition isDigits (lo hi : nat) (s : jsstring) : Prop :=
  (lo <= List.length s <= hi)%nat /\ forallb digit s = true.

(** The alternatives of the lookahead that closes [abstractRe],
    [(?=introduction|1\.|keywords|key\s*words)] under [/i]. *)
Definition terminatorRe : regex :=
  alt (litCI (js "introduction"))
    [seq [Chr (one 49); Chr (one 46)];
     litCI (js "keywords");
     seq [litCI (js "key"); star space; litCI (js "words")]].

(** What that lookahead accepts: [introduction], [1.], or [key] and
    [words] with any white space or none between them; letters in
    either case. *)
Definition isTerminator (term : jsstring) : Prop :=
  map canonicalize term = js "INTRODUCTION"
  \/ term = js "1."
  \/ exists k sp w,
       term = k ++ sp ++ w
       /\ map canonicalize k = js "KEY"
       /\ forallb isWhiteSpace sp = true
       /\ map canonicalize w = js "WORDS".

End Shapes.

Export Shapes.

(* ------------------------------------------------------------------ *)
(** ** The request handlers                                            *)
(* ------------------------------------------------------------------ *)

(** [route.ts] exports [POST] and [GET] for [/api/papers];
    [[id]/route.ts] exports [GET], [PUT] and [DELETE] for
    [/api/papers/:id].  They talk to next-auth, the file system,
    pdf-parse and Prisma; each of those is a field of [World], a
    function of its arguments that returns or rejects.  A handler calls
    each of them at most once per request, so any behaviour of the
    outside during one request is some [World]. *)
Module Server.

(** *** Values *)

Definition Bytes : Type := list Z.

(** A point in time, as the database returns it. *)
Definition DateTime : Type := Z.

(** [a === b] on strings. *)
Fixpoint strictEquals (a b : jsstring) : bool :=
  match a, b with
  | [], [] => true
  | x :: a', y :: b' => (x =? y) && strictEquals a' b'
  | _, _ => false
  end.

(** Truthiness of a string that may be [undefined] or [null]. *)
Definition truthyString (s : option jsstring) : bool :=
  match s with
  | Some (_ :: _) => true
  | _ => false
  end.

(** The session of next-auth; [user] and [id] may be missing. *)
Module Session.
Record User : Type := MkUser { id : option jsstring }.
Record t : Type := Make { user : option User }.
End Session.

(** [session?.user?.id] *)
Definition sessionUserId (session : option Session.t) : option jsstring :=
  match session with
  | Some s =>
    match Session.user s with
    | Some u => Session.id u
    | None => None
    end
  | None => None
  end.

(** An uploaded [File]. *)
Record File : Type := MkFile {
  name : jsstring;
  type : jsstring;
  size : Z;
  arrayBuffer : Exc Bytes
}.

(** [FormDataEntryValue]: a form field is a file or a string. *)
Inductive FormEntry : Type :=
| Upload (file : File)
| Field (value : jsstring).

(** A JSON number is a double: [m * 2^e], or an infinity when the
    literal overflows. *)
Inductive Double : Type :=
| Finite (m e : Z)
| Infinite (negative : bool).

Local Set Warnings "-register-all".

(** What [request.json()] resolves to. *)
Inductive JSON : Type :=
| JNull
| JBool (b : bool)
| JNumber (n : Double)
| JString (s : jsstring)
| JArray (items : list JSON)
| JObject (members : list (jsstring * JSON)).

(** A JSON value or [undefined]. *)
Definition Value : Type := option JSON.

Definition truthy (v : Value) : bool :=
  match v with
  | None | Some JNull => false
  | Some (JBool b) => b
  | Some (JNumber (Finite m _)) => negb (m =? 0)
  | Some (JNumber (Infinite _)) => true
  | Some (JString s) => truthyString (Some s)
  | Some (JArray _) | Some (JObject _) => true
  end.

(** The member of an object that [JSON.parse] built: of two members
    with one key the later one counts. *)
Fixpoint lookupMember (members : list (jsstring * JSON)) (key : jsstring)
  : Value :=
  match members with
  | [] => None
  | (k, v) :: members' =>
    match lookupMember members' key with
    | Some later => Some later
    | None => if strictEquals k key then Some v else None
    end
  end.

(** [v.key] for one of the keys that the handlers read, none of which
    is a property of a string, a number, a boolean or an array.
    Reading a property of [null] or [undefined] throws. *)
Definition member (v : Value) (key : jsstring) : Exc Value :=
  match v with
  | None | Some JNull => Throw TypeError
  | Some (JObject members) => Ok (lookupMember members key)
  | Some _ => Ok None
  end.

(** [a || b] *)
Definition orElse (a b : Value) : Value := if truthy a then a else b.

(** A row of the [Paper] table. *)
Module Paper.
Record t : Type := Make {
  id : jsstring;
  title : jsstring;
  authors : list jsstring;
  abstract : option jsstring;
  doi : option jsstring;
  publicationDate : option DateTime;
  journal : option jsstring;
  volume : option jsstring;
  issue : option jsstring;
  pages : option jsstring;
  pdfUrl : option jsstring;
  pdfPath : option jsstring;
  createdAt : DateTime;
  updatedAt : DateTime;
  userId : jsstring;
  details : Value
}.
End Paper.

(** The [data] of [prisma.paper.create]. *)
Module CreateData.
Record t : Type := Make {
  title : jsstring;
  authors : list jsstring;
  abstract : option jsstring;
  doi : option jsstring;
  publicationDate : option JSDate;
  journal : option jsstring;
  pdfPath : jsstring;
  pdfUrl : jsstring;
  userId : jsstring
}.
End CreateData.

(** One entry of [where.OR]; [contains] is used with
    [mode: 'insensitive']. *)
Inductive Condition : Type :=
| TitleContains (search : jsstring)
| AuthorsHas (search : jsstring)
| AbstractContains (search : jsstring)
| JournalContains (search : jsstring).

Module Where.
Record t : Type := Make {
  userId : jsstring;
  OR : option (list Condition)
}.
End Where.

(** The argument of [prisma.paper.findMany]; [orderBy] is always
    [{ createdAt: 'desc' }] and [include] always [{ details: true }]. *)
Module FindMany.
Record t : Type := Make {
  where_ : Where.t;
  skip : number;
  take : number
}.
End FindMany.

(** The argument of [prisma.paper.findFirst]. *)
Module FindFirst.
Record t : Type := Make {
  id : jsstring;
  userId : jsstring;
  includeDetails : bool
}.
End FindFirst.

(** The [data] of [prisma.paper.update].  [publicationDate] holds the
    argument of [new Date], or [None] for [null]. *)
Module UpdateData.
Record t : Type := Make {
  title : Value;
  authors : Value;
  abstract : Value;
  doi : Value;
  publicationDate : option Value;
  journal : Value;
  volume : Value;
  issue : Value;
  pages : Value
}.
End UpdateData.

(** The fields that [prisma.paperDetails.upsert] writes, the same in
    its [update] and in its [create]; [create] adds [paperId]. *)
Module DetailsData.
Record t : Type := Make {
  summary : Value;
  methodology : Value;
  benefits : Value;
  verification : Value;
  discussion : Value;
  tags : Value
}.
End DetailsData.

(** The [paper] of the answer to an upload. *)
Module Uploaded.
Record t : Type := Make {
  id : jsstring;
  title : jsstring;
  authors : list jsstring;
  abstract : option jsstring;
  doi : option jsstring;
  publicationDate : option DateTime;
  journal : option jsstring;
  pdfUrl : option jsstring;
  createdAt : DateTime
}.
End Uploaded.

(** The [paper] of the answer to [GET /api/papers/:id]. *)
Module PaperView.
Record t : Type := Make {
  id : jsstring;
  title : jsstring;
  authors : list jsstring;
  abstract : option jsstring;
  doi : option jsstring;
  publicationDate : option DateTime;
  journal : option jsstring;
  volume : option jsstring;
  issue : option jsstring;
  pages : option jsstring;
  pdfUrl : option jsstring;
  createdAt : DateTime;
  updatedAt : DateTime;
  details : Value
}.
End PaperView.

(** In a JSON body NaN and the infinities are written [null]: [None]
    here. *)
Module Pagination.
Record t : Type := Make {
  page : number;
  limit : number;
  total : Z;
  totalPages : number
}.
End Pagination.

Inductive Body : Type :=
| ErrorBody (error : jsstring)
| UploadedBody (paper : Uploaded.t)
| ListBody (papers : list Paper.t) (pagination : Pagination.t)
| PaperBody (paper : PaperView.t)
| UpdatedBody (paper : Paper.t)
| DeletedBody (message : jsstring).

(** [NextResponse.json(body, { status })] *)
Record Response : Type := MkResponse {
  status : Z;
  body : Body
}.

(** *** The outside *)

Record World : Type := MkWorld {
  getServerSession : Exc (option Session.t);
  cwd : jsstring;
  join : list jsstring -> jsstring;
  existsSync : jsstring -> bool;
  mkdir : jsstring -> Exc unit;
  writeFile : jsstring -> Bytes -> Exc unit;
  unlink : jsstring -> Exc unit;
  pdf : Bytes -> Exc jsstring;
  (** [Date.now().toString(36) + Math.random().toString(36).substr(2)] *)
  fileId : jsstring;
  paperCreate : CreateData.t -> Exc Paper.t;
  paperFindMany : FindMany.t -> Exc (list Paper.t);
  paperCount : Where.t -> Exc Z;
  paperFindFirst : FindFirst.t -> Exc (option Paper.t);
  paperUpdate : jsstring -> UpdateData.t -> Exc Paper.t;
  paperDelete : jsstring -> Exc Paper.t;
  detailsUpsert : jsstring -> DetailsData.t -> Exc unit
}.

(** The calls that a handler makes, with their arguments.  The call of
    pdf-parse and the logging inside [extractBasicInfo] belong to that
    function and are not listed. *)
Inductive Effect : Type :=
| GetServerSession
| FormData
| Json
| ArrayBuffer
| ExistsSync (path : jsstring)
| Mkdir (path : jsstring)
| WriteFile (path : jsstring) (data : Bytes)
| Unlink (path : jsstring)
| ConsoleError (label : jsstring)
| PaperCreate (data : CreateData.t)
| PaperFindMany (args : FindMany.t)
| PaperCount (where_ : Where.t)
| PaperFindFirst (args : FindFirst.t)
| PaperUpdate (id : jsstring) (data : UpdateData.t)
| PaperDelete (id : jsstring)
| DetailsUpsert (paperId : jsstring) (data : DetailsData.t).

(** A computation: the calls it made, in order, and how it ended. *)
Definition Act (A : Type) : Type := list Effect * Exc A.

Definition ret {A : Type} (a : A) : Act A := ([], Ok a).

Definition lift {A : Type} (r : Exc A) : Act A := ([], r).

Definition call {A : Type} (e : Effect) (r : Exc A) : Act A := ([e], r).

Definition andThen {A B : Type} (m : Act A) (f : A -> Act B) : Act B :=
  match m with
  | (done, Ok a) => let '(more, r) := f a in (done ++ more, r)
  | (done, Throw e) => (done, Throw e)
  end.

(** [try { body } catch (error) { handler }] *)
Definition catch {A : Type} (body : Act A) (handler : JSError -> Act A)
  : Act A :=
  match body with
  | (done, Ok a) => (done, Ok a)
  | (done, Throw e) => let '(more, r) := handler e in (done ++ more, r)
  end.

Notation "x <~ m ;; f" := (andThen m (fun x => f))
  (at level 61, m at next level, right associativity).

Definition trace {A : Type} (m : Act A) : list Effect := fst m.

Definition outcome {A : Type} (m : Act A) : Exc A := snd m.

(** *** [route.ts] *)

Definition MAX_FILE_SIZE : Z := 50 * 1024 * 1024.

Definition ensureUploadDir (w : World) : Act jsstring :=
  let uploadDir := join w [cwd w; js "uploads"; js "papers"] in
  found <~ call (ExistsSync uploadDir) (Ok (existsSync w uploadDir)) ;;
  _ <~ (if negb found then call (Mkdir uploadDir) (mkdir w uploadDir)
        else ret tt) ;;
  ret uploadDir.

Definition unauthorized : Response :=
  MkResponse 401 (ErrorBody (js "認証が必要です")).

Definition notFound : Response :=
  MkResponse 404 (ErrorBody (js "論文が見つかりません")).

(** The [catch] of every handler: log, answer 500. *)
Definition failed (label message : jsstring) (error : JSError)
  : Act Response :=
  _ <~ call (ConsoleError label) (Ok tt) ;;
  ret (MkResponse 500 (ErrorBody message)).

(** The request of an upload: [request.formData()], and then
    [formData.get]. *)
Record UploadRequest : Type := MkUploadRequest {
  formData : Exc (jsstring -> option FormEntry)
}.

Definition POST (w : World) (request : UploadRequest) : Act Response :=
  catch
    (session <~ call GetServerSession (getServerSession w) ;;
     match sessionUserId session with
     | None | Some [] => ret unauthorized
     | Some userId =>
       form <~ call FormData (formData request) ;;
       match form (js "file") with
       | None | Some (Field []) =>
         ret (MkResponse 400 (ErrorBody (js "ファイルが選択されていません")))
       | Some (Field (_ :: _)) =>
         (* a string has no [type]: [undefined !== 'application/pdf'] *)
         ret (MkResponse 400
                (ErrorBody (js "PDFファイルのみアップロード可能です")))
       | Some (Upload file) =>
         if negb (strictEquals (type file) (js "application/pdf")) then
           ret (MkResponse 400
                  (ErrorBody (js "PDFファイルのみアップロード可能です")))
         else if size file >? MAX_FILE_SIZE then
           ret (MkResponse 400
                  (ErrorBody (js "ファイルサイズが50MBを超えています")))
         else
           bytes <~ call ArrayBuffer (arrayBuffer file) ;;
           let buffer := bytes in
           uploadDir <~ ensureUploadDir w ;;
           let fileName := fileId w ++ js "_" ++ name file in
           let filePath := join w [uploadDir; fileName] in
           _ <~ call (WriteFile filePath buffer)
                  (writeFile w filePath buffer) ;;
           extractedInfo <~ lift (extractBasicInfo (pdf w) buffer) ;;
           let data :=
             CreateData.Make
               (Route.title extractedInfo)
               (Route.authors extractedInfo)
               (Route.abstract extractedInfo)
               (Route.doi extractedInfo)
               (Route.publicationDate extractedInfo)
               (Route.journal extractedInfo)
               filePath
               (js "/uploads/papers/" ++ fileName)
               userId in
           paper <~ call (PaperCreate data) (paperCreate w data) ;;
           ret (MkResponse 200
                  (UploadedBody
                     (Uploaded.Make
                        (Paper.id paper)
                        (Paper.title paper)
                        (Paper.authors paper)
                        (Paper.abstract paper)
                        (Paper.doi paper)
                        (Paper.publicationDate paper)
                        (Paper.journal paper)
                        (Paper.pdfUrl paper)
                        (Paper.createdAt paper))))
       end
     end)
    (failed (js "アップロードエラー:")
       (js "アップロード中にエラーが発生しました")).

(** The request of a listing: [new URL(request.url).searchParams.get]. *)
Record ListRequest : Type := MkListRequest {
  searchParams : jsstring -> option jsstring
}.

(** Arithmetic on numbers that are integers or NaN.  It is that of the
    integers, so it is the arithmetic of doubles as long as the values
    stay below 2^53 in magnitude. *)
Definition sub (a b : number) : number :=
  match a, b with
  | Some x, Some y => Some (x - y)
  | _, _ => NaN
  end.

Definition mul (a b : number) : number :=
  match a, b with
  | Some x, Some y => Some (x * y)
  | _, _ => NaN
  end.

(** [Math.ceil(total / limit)] as the JSON body shows it: a division by
    zero gives an infinity or NaN, written [null]. *)
Definition ceilOfQuotient (total : Z) (limit : number) : number :=
  match limit with
  | Some l => if l =? 0 then NaN else Some (- ((- total) / l))
  | None => NaN
  end.

Definition GET (w : World) (request : ListRequest) : Act Response :=
  catch
    (session <~ call GetServerSession (getServerSession w) ;;
     match sessionUserId session with
     | None | Some [] => ret unauthorized
     | Some userId =>
       let page :=
         parseInt (Some (stringOr (searchParams request (js "page"))
                           (js "1"))) in
       let limit :=
         parseInt (Some (stringOr (searchParams request (js "limit"))
                           (js "10"))) in
       let search := stringOr (searchParams request (js "search")) [] in
       let where_ :=
         Where.Make userId
           (if truthyString (Some search) then
              Some [TitleContains search; AuthorsHas search;
                    AbstractContains search; JournalContains search]
            else None) in
       let args :=
         FindMany.Make where_ (mul (sub page (Some 1)) limit) limit in
       papers <~ call (PaperFindMany args) (paperFindMany w args) ;;
       total <~ call (PaperCount where_) (paperCount w where_) ;;
       ret (MkResponse 200
              (ListBody papers
                 (Pagination.Make page limit total
                    (ceilOfQuotient total limit))))
     end)
    (failed (js "論文一覧取得エラー:")
       (js "論文一覧の取得中にエラーが発生しました")).

(** *** [[id]/route.ts] *)

Definition view (paper : Paper.t) : PaperView.t :=
  PaperView.Make
    (Paper.id paper)
    (Paper.title paper)
    (Paper.authors paper)
    (Paper.abstract paper)
    (Paper.doi paper)
    (Paper.publicationDate paper)
    (Paper.journal paper)
    (Paper.volume paper)
    (Paper.issue paper)
    (Paper.pages paper)
    (Paper.pdfUrl paper)
    (Paper.createdAt paper)
    (Paper.updatedAt paper)
    (Paper.details paper).

Definition GET_id (w : World) (id : jsstring) : Act Response :=
  catch
    (session <~ call GetServerSession (getServerSession w) ;;
     match sessionUserId session with
     | None | Some [] => ret unauthorized
     | Some userId =>
       let args := FindFirst.Make id userId true in
       paper <~ call (PaperFindFirst args) (paperFindFirst w args) ;;
       match paper with
       | None => ret notFound
       | Some paper => ret (MkResponse 200 (PaperBody (view paper)))
       end
     end)
    (failed (js "論文取得エラー:")
       (js "論文の取得中にエラーが発生しました")).

(** The request of an update: [request.json()]. *)
Record UpdateRequest : Type := MkUpdateRequest {
  json : Exc JSON
}.

(** The fields written from a truthy [details]. *)
Definition detailsData (details : Value) : Exc DetailsData.t :=
  summary <- member details (js "summary") ;;
  methodology <- member details (js "methodology") ;;
  benefits <- member details (js "benefits") ;;
  verification <- member details (js "verification") ;;
  discussion <- member details (js "discussion") ;;
  tags <- member details (js "tags") ;;
  Ok (DetailsData.Make summary methodology benefits verification discussion
        (orElse tags (Some (JArray [])))).

Definition PUT (w : World) (request : UpdateRequest) (id : jsstring)
  : Act Response :=
  catch
    (session <~ call GetServerSession (getServerSession w) ;;
     match sessionUserId session with
     | None | Some [] => ret unauthorized
     | Some userId =>
       body <~ call Json (json request) ;;
       title <~ lift (member (Some body) (js "title")) ;;
       authors <~ lift (member (Some body) (js "authors")) ;;
       abstract <~ lift (member (Some body) (js "abstract")) ;;
       doi <~ lift (member (Some body) (js "doi")) ;;
       publicationDate <~ lift (member (Some body) (js "publicationDate")) ;;
       journal <~ lift (member (Some body) (js "journal")) ;;
       volume <~ lift (member (Some body) (js "volume")) ;;
       issue <~ lift (member (Some body) (js "issue")) ;;
       pages <~ lift (member (Some body) (js "pages")) ;;
       details <~ lift (member (Some body) (js "details")) ;;
       let args := FindFirst.Make id userId false in
       existingPaper <~ call (PaperFindFirst args) (paperFindFirst w args) ;;
       match existingPaper with
       | None => ret notFound
       | Some _ =>
         let data :=
           UpdateData.Make title authors abstract doi
             (if truthy publicationDate then Some publicationDate else None)
             journal volume issue pages in
         updatedPaper <~ call (PaperUpdate id data) (paperUpdate w id data) ;;
         _ <~ (if truthy details then
                 fields <~ lift (detailsData details) ;;
                 call (DetailsUpsert id fields) (detailsUpsert w id fields)
               else ret tt) ;;
         ret (MkResponse 200 (UpdatedBody updatedPaper))
       end
     end)
    (failed (js "論文更新エラー:")
       (js "論文の更新中にエラーが発生しました")).

Definition DELETE (w : World) (id : jsstring) : Act Response :=
  catch
    (session <~ call GetServerSession (getServerSession w) ;;
     match sessionUserId session with
     | None | Some [] => ret unauthorized
     | Some userId =>
       let args := FindFirst.Make id userId false in
       paper <~ call (PaperFindFirst args) (paperFindFirst w args) ;;
       match paper with
       | None => ret notFound
       | Some paper =>
         _ <~ match Paper.pdfPath paper with
              | Some (c :: path) =>
                catch (call (Unlink (c :: path)) (unlink w (c :: path)))
                  (fun error =>
                     call (ConsoleError (js "PDFファイル削除エラー:"))
                       (Ok tt))
              | _ => ret tt
              end ;;
         _ <~ call (PaperDelete id) (paperDelete w id) ;;
         ret (MkResponse 200 (DeletedBody (js "論文が削除されました")))
       end
     end)
    (failed (js "論文削除エラー:")
       (js "論文の削除中にエラーが発生しました")).

End Server.

(* ------------------------------------------------------------------ *)
(** ** Vocabulary for what the handlers do                             *)
(* ------------------------------------------------------------------ *)

Module Conduct.

Import Server.

(** Who is asking: the user id of the session when it is a non-empty
    string. *)
Definition requester (w : World) : option jsstring :=
  match getServerSession w with
  | Ok session =>
    match sessionUserId session with
    | Some (c :: t) => Some (c :: t)
    | _ => None
    end
  | Throw _ => None
  end.

(** The calls that change the file system or the database. *)
Definition isWrite (e : Effect) : bool :=
  match e with
  | Mkdir _ | WriteFile _ _ | Unlink _ | PaperCreate _ | PaperUpdate _ _
  | PaperDelete _ | DetailsUpsert _ _ => true
  | _ => false
  end.

(** A write [e] that concerns the paper [id], whose row is [row]: the
    database calls name [id], and a file that is unlinked is the one
    at the row's [pdfPath]. *)
Definition concerns (id : jsstring) (row : Paper.t) (e : Effect) : Prop :=
  match e with
  | PaperUpdate i _ | PaperDelete i | DetailsUpsert i _ => i = id
  | Unlink path => Paper.pdfPath row = Some path
  | _ => False
  end.

(** Where [POST] stores the upload. *)
Definition uploadDirOf (w : World) : jsstring :=
  join w [cwd w; js "uploads"; js "papers"].

Definition fileNameOf (w : World) (file : File) : jsstring :=
  fileId w ++ js "_" ++ name file.

Definition filePathOf (w : World) (file : File) : jsstring :=
  join w [uploadDirOf w; fileNameOf w file].

(** [v.key] where reading cannot throw: [undefined] when the member is
    missing. *)
Definition prop (v : Value) (key : jsstring) : Value :=
  match member v key with
  | Ok x => x
  | Throw _ => None
  end.

(** What [PUT] writes to the details of a paper, given a truthy
    [details]. *)
Definition detailsOf (details : Value) : DetailsData.t :=
  DetailsData.Make
    (prop details (js "summary"))
    (prop details (js "methodology"))
    (prop details (js "benefits"))
    (prop details (js "verification"))
    (prop details (js "discussion"))
    (orElse (prop details (js "tags")) (Some (JArray []))).


(** A session of the user [userId]. *)
Definition sessionOf (userId : jsstring) : option Session.t :=
  Some (Session.Make (Some (Session.MkUser (Some userId)))).

(** A row as [prisma.paper.create] returns it in the sample world. *)
Definition rowOf (data : CreateData.t) : Paper.t :=
  Paper.Make (js "p1")
    (CreateData.title data) (CreateData.authors data)
    (CreateData.abstract data) (CreateData.doi data) None
    (CreateData.journal data) None None None
    (Some (CreateData.pdfUrl data)) (Some (CreateData.pdfPath data))
    0 0 (CreateData.userId data) None.

(** Path segments joined with [/]. *)
Fixpoint slashed (parts : list jsstring) : jsstring :=
  match parts with
  | [] => []
  | [part] => part
  | part :: parts' => part ++ 47 :: slashed parts'
  end.

(** A sample world: the user [u1] is signed in, paths are joined with
    [/], the upload directory exists, every call succeeds, the database
    holds the one paper [p1] of [u1], and pdf-parse reads the bytes as
    code units. *)
Definition sampleRow : Paper.t :=
  Paper.Make (js "p1") (js "A Study of Things") [] None None None None
    None None None (Some (js "/uploads/papers/x_a.pdf"))
    (Some (js "/srv/uploads/papers/x_a.pdf")) 0 0 (js "u1") None.

Definition sampleWorld : World :=
  MkWorld
    (Ok (sessionOf (js "u1")))
    (js "/srv")
    slashed
    (fun _ => true)
    (fun _ => Ok tt)
    (fun _ _ => Ok tt)
    (fun _ => Ok tt)
    (fun bytes => Ok bytes)
    (js "x")
    (fun data => Ok (rowOf data))
    (fun _ => Ok [sampleRow])
    (fun _ => Ok 1)
    (fun args =>
       Ok (if strictEquals (FindFirst.id args) (js "p1")
              && strictEquals (FindFirst.userId args) (js "u1")
           then Some sampleRow else None))
    (fun _ _ => Ok sampleRow)
    (fun _ => Ok sampleRow)
    (fun _ _ => Ok tt).

(** The same world with nobody signed in. *)
Definition signedOut (w : World) : World :=
  MkWorld (Ok None) (cwd w) (join w) (existsSync w) (mkdir w) (writeFile w)
    (unlink w) (pdf w) (fileId w) (paperCreate w) (paperFindMany w)
    (paperCount w) (paperFindFirst w) (paperUpdate w) (paperDelete w)
    (detailsUpsert w).

(** The same world with a database that refuses every write. *)
Definition readOnly (w : World) : World :=
  MkWorld (getServerSession w) (cwd w) (join w) (existsSync w) (mkdir w)
    (writeFile w) (unlink w) (pdf w) (fileId w)
    (fun _ => Throw Rejected) (paperFindMany w) (paperCount w)
    (paperFindFirst w) (fun _ _ => Throw Rejected)
    (fun _ => Throw Rejected) (fun _ _ => Throw Rejected).

Definition sampleText : File :=
  MkFile (js "a.txt") (js "text/plain") 3 (Ok [65; 66; 67]).

Definition samplePdf : File :=
  MkFile (js "a.pdf") (js "application/pdf") 3 (Ok [65; 66; 67]).

Definition uploadOf (file : File) : UploadRequest :=
  MkUploadRequest
    (Ok (fun key =>
           if strictEquals key (js "file") then Some (Upload file)
           else None)).

End Conduct.

(* ------------------------------------------------------------------ *)
(** ** The upload forms                                                *)
(* ------------------------------------------------------------------ *)

(** [FileUpload.tsx] is the component that collects files; the upload
    page posts the files it holds to [/api/papers], one request per
    file.  The state of a component is passed in and returned; what a
    handler shows with [alert] is returned with it. *)
Module Client.

Import Server.

(** [String(n)] for an integer. *)
Fixpoint digitsOf (u : Decimal.uint) : jsstring :=
  match u with
  | Decimal.Nil => []
  | Decimal.D0 u' => 48 :: digitsOf u'
  | Decimal.D1 u' => 49 :: digitsOf u'
  | Decimal.D2 u' => 50 :: digitsOf u'
  | Decimal.D3 u' => 51 :: digitsOf u'
  | Decimal.D4 u' => 52 :: digitsOf u'
  | Decimal.D5 u' => 53 :: digitsOf u'
  | Decimal.D6 u' => 54 :: digitsOf u'
  | Decimal.D7 u' => 55 :: digitsOf u'
  | Decimal.D8 u' => 56 :: digitsOf u'
  | Decimal.D9 u' => 57 :: digitsOf u'
  end.

Definition numberToString (n : Z) : jsstring :=
  match Z.to_int n with
  | Decimal.Pos u => digitsOf u
  | Decimal.Neg u => 45 :: digitsOf u
  end.

(** [parts.join(sep)] *)
Fixpoint joinWith (sep : jsstring) (parts : list jsstring) : jsstring :=
  match parts with
  | [] => []
  | [part] => part
  | part :: parts' => part ++ sep ++ joinWith sep parts'
  end.

(** *** [FileUpload.tsx] *)

Module FileUpload.

(** The properties that the component reads; [maxSize] is in MB. *)
Record FileUploadProps : Type := MkProps {
  maxFiles : nat;
  maxSize : Z;
  acceptedTypes : list jsstring
}.

(** The defaults of the parameter list. *)
Definition defaultProps : FileUploadProps :=
  MkProps 10 50 [js "application/pdf"].

Inductive Status : Type := Pending | Uploading | Success | Failure.

Record UploadedFile : Type := MkUploadedFile {
  file : File;
  id : jsstring;
  status : Status
}.

Definition validateFile (props : FileUploadProps) (file : File)
  : option jsstring :=
  if size file >? maxSize props * 1024 * 1024 then
    Some (js "ファイルサイズが" ++ numberToString (maxSize props)
            ++ js "MBを超えています")
  else if negb (existsb (strictEquals (type file)) (acceptedTypes props)) then
    Some (js "対応していないファイル形式です")
  else None.

(** The [forEach] of [addFiles].  [random k] is the value of
    [Math.random().toString(36).substr(2, 9)] at its [k]-th call. *)
Fixpoint sift (props : FileUploadProps) (random : nat -> jsstring)
    (fileArray : list File) (validFiles : list UploadedFile)
    (errors : list jsstring) : list UploadedFile * list jsstring :=
  match fileArray with
  | [] => (validFiles, errors)
  | file :: fileArray' =>
    match validateFile props file with
    | Some (c :: error) =>
      sift props random fileArray' validFiles
        (errors ++ [name file ++ js ": " ++ c :: error])
    | _ =>
      sift props random fileArray'
        (validFiles
           ++ [MkUploadedFile file (random (List.length validFiles)) Pending])
        errors
    end
  end.

(** The function that [addFiles] hands to [setFiles]. *)
Definition appended (props : FileUploadProps)
    (validFiles prev : list UploadedFile)
  : list UploadedFile * list jsstring :=
  let updated := prev ++ validFiles in
  if (maxFiles props <? List.length updated)%nat then
    (slice updated 0 (maxFiles props),
     [js "最大" ++ numberToString (Z.of_nat (maxFiles props))
        ++ js "ファイルまでアップロード可能です"])
  else (updated, []).

(** [addFiles(newFiles)] in the state [prev]: the next state and the
    alerts shown. *)
Definition addFiles (props : FileUploadProps) (random : nat -> jsstring)
    (newFiles : list File) (prev : list UploadedFile)
  : list UploadedFile * list jsstring :=
  let '(validFiles, errors) := sift props random newFiles [] [] in
  let shown :=
    if (0 <? List.length errors)%nat then [joinWith [LF] errors] else [] in
  if (0 <? List.length validFiles)%nat then
    let '(next, more) := appended props validFiles prev in
    (next, shown ++ more)
  else (prev, shown).

End FileUpload.

(** *** The upload page *)

Module UploadPage.

(** [handleFileSelect(files)] in the state [prev]: the next
    [uploadedFiles] and the alerts shown. *)
Definition handleFileSelect (files : option (list File)) (prev : list File)
  : list File * list jsstring :=
  match files with
  | None => (prev, [])
  | Some files =>
    let pdfFiles :=
      filter (fun file => strictEquals (type file) (js "application/pdf"))
        files in
    if negb (List.length pdfFiles =? List.length files)%nat then
      (prev, [js "PDFファイルのみアップロード可能です"])
    else (prev ++ pdfFiles, [])
  end.







Definition isPdf (file : File) : bool :=
  strictEquals (type file) (js "application/pdf").

End UploadPage.

End Client.

(* ================================================================== *)
(** * Part II: properties                                              *)
(* ================================================================== *)

(** ** The matcher finds exactly the matches *)

Module RegExpFacts.

Local Open Scope nat_scope.

Lemma within_pred (max : option nat) (n : nat) :
  within max (S n) -> within (option_map Nat.pred max) n.
Proof. destruct max as [m|]; simpl; lia. Qed.

Lemma within_succ (max : option nat) (n : nat) :
  max <> Some 0 -> within (option_map Nat.pred max) n -> within max (S n).
Proof. destruct max as [[|m]|]; simpl; try lia; congruence. Qed.

(** Whatever [rep] returns was returned by the continuation, after a
    run of characters of the class whose length the bounds allow. *)
Lemma rep_sound (p : charset) (g : bool) (s : jsstring) :
  forall min max n cs k res,
    rep p g min max n s cs k = Some res ->
    exists w s',
      s = w ++ s' /\ forallb p w = true /\ min <= List.length w
      /\ within max (List.length w)
      /\ k (MState (n + List.length w) s' cs) = Some res.
Proof.
  induction s as [|c s IH]; intros min max n cs k res H.
  - exists [], []. rewrite Nat.add_0_r.
    destruct max as [[|m]|], min as [|min], g; simpl in H |- *;
      try discriminate; repeat split; try lia; auto;
      destruct (k (MState n [] cs)); congruence.
  - assert (Hstop : k (MState n (c :: s) cs) = Some res -> min = 0 ->
              exists w s', c :: s = w ++ s' /\ forallb p w = true
                /\ min <= List.length w /\ within max (List.length w)
                /\ k (MState (n + List.length w) s' cs) = Some res).
    { intros Hk ->. exists [], (c :: s). simpl. rewrite Nat.add_0_r.
      repeat split; auto. destruct max; simpl; lia. }
    assert (Hmore : forall min', min <= S min' -> max <> Some 0 ->
              (if p c
               then rep p g min' (option_map Nat.pred max) (S n) s cs k
               else None) = Some res ->
              exists w s', c :: s = w ++ s' /\ forallb p w = true
                /\ min <= List.length w /\ within max (List.length w)
                /\ k (MState (n + List.length w) s' cs) = Some res).
    { intros min' Hle Hmax Hr. destruct (p c) eqn:Hp; [|discriminate].
      destruct (IH _ _ _ _ _ _ Hr) as (w & s' & -> & Hw & Hmin & Hwi & Hk).
      exists (c :: w), s'. simpl. rewrite Hp, Hw.
      rewrite Nat.add_succ_r. repeat split; auto; try lia.
      apply within_succ; auto. }
    destruct max as [[|m]|], min as [|min]; simpl in H; try discriminate;
      try (apply Hstop; [exact H|reflexivity]);
      try (apply (Hmore min); [lia|discriminate|simpl; exact H]);
      destruct g;
      repeat match type of H with
             | match ?x with Some _ => _ | None => _ end = Some _ =>
               let E := fresh "E" in destruct x eqn:E
             end;
      try (apply Hstop; [congruence|reflexivity]);
      try (apply (Hmore 0); [lia|discriminate|simpl; congruence]).
Qed.

(** Whatever [run] returns was returned by the continuation, at a state
    the pattern leads to. *)
Theorem run_sound (r : regex) :
  forall st k res,
    run r st k = Some res ->
    exists st', matches r st st' /\ k st' = Some res.
Proof.
  induction r as [|p|p min max g|r1 IH1 r2 IH2|r1 IH1 r2 IH2|i r1 IH1| | |r1 IH1];
    intros st k res H; simpl in H.
  - exists st. split; [reflexivity|assumption].
  - destruct st as [n s cs]; simpl in *. destruct s as [|c s]; [discriminate|].
    destruct (p c) eqn:Hp; [|discriminate].
    exists (MState (S n) s cs). split; [|assumption].
    exists c. simpl. auto.
  - destruct st as [n s cs]; simpl in *.
    destruct (rep_sound _ _ _ _ _ _ _ _ _ H)
      as (w & s' & -> & Hw & Hmin & Hwi & Hk).
    exists (MState (n + List.length w) s' cs). split; [|assumption].
    exists w. simpl. auto 10.
  - destruct (IH1 _ _ _ H) as (st1 & M1 & H1).
    destruct (IH2 _ _ _ H1) as (st2 & M2 & H2).
    exists st2. split; [|assumption]. exists st1. auto.
  - destruct (run r1 st k) eqn:E.
    + destruct (IH1 _ _ _ E) as (st' & M & Hk). exists st'. split.
      * left. exact M.
      * congruence.
    + destruct (IH2 _ _ _ H) as (st' & M & Hk). exists st'. split.
      * right. exact M.
      * exact Hk.
  - destruct (IH1 _ _ _ H) as (st1 & M1 & H1).
    eexists. split; [|exact H1]. exists st1. auto.
  - destruct (Nat.eqb (pos st) 0) eqn:E; [|discriminate].
    apply Nat.eqb_eq in E. exists st. simpl. auto.
  - destruct (rest st) eqn:E; [|discriminate]. exists st. simpl. auto.
  - destruct (run r1 st Some) as [st1|] eqn:E; [|discriminate].
    destruct (IH1 _ _ _ E) as (st1' & M1 & H1). injection H1 as ->.
    eexists. split; [|exact H]. exists st1. auto.
Qed.

Lemma orelse_None {A : Type} (a b : option A) :
  match a with Some r => Some r | None => b end = None
  <-> a = None /\ b = None.
Proof. destruct a; intuition congruence. Qed.

Lemma blind_Some : blind Some.
Proof. intros n s cs cs'. split; discriminate. Qed.

Lemma blind_rep (p : charset) (g : bool) (k : cont) (s : jsstring) :
  blind k ->
  forall min max n cs cs',
    rep p g min max n s cs k = None <-> rep p g min max n s cs' k = None.
Proof.
  intros Hk. induction s as [|c s IH]; intros min max n cs cs'.
  - destruct max as [[|m]|], min as [|min], g; simpl;
      rewrite ?orelse_None; try reflexivity;
      rewrite ?(Hk n [] cs cs'); reflexivity.
  - pose proof (Hk n (c :: s) cs cs') as Hh.
    destruct max as [[|m]|], min as [|min], g; simpl;
      rewrite ?orelse_None; try reflexivity; try exact Hh;
      destruct (p c); rewrite ?Hh;
      try rewrite (IH 0 _ (S n) cs cs');
      try rewrite (IH min _ (S n) cs cs'); reflexivity.
Qed.

(** Whether [run] succeeds does not depend on the captures it starts
    from. *)
Lemma blind_run (r : regex) :
  forall k, blind k ->
  forall st cs',
    run r st k = None <-> run r (MState (pos st) (rest st) cs') k = None.
Proof.
  induction r as [|p|p min max g|r1 IH1 r2 IH2|r1 IH1 r2 IH2|i r1 IH1| | |r1 IH1];
    intros k Hk [n s cs] cs'; simpl.
  - apply Hk.
  - destruct s as [|c s]; [reflexivity|]. destruct (p c); [apply Hk|reflexivity].
  - apply blind_rep; assumption.
  - apply (IH1 (fun st1 => run r2 st1 k)
             (fun n' s' c1 c2 => IH2 k Hk (MState n' s' c1) c2)
             (MState n s cs) cs').
  - rewrite !orelse_None.
    rewrite (IH1 k Hk (MState n s cs) cs'), (IH2 k Hk (MState n s cs) cs').
    reflexivity.
  - apply (IH1 (fun st1 =>
                  k (MState (pos st1) (rest st1)
                       ((i, firstn (pos st1 - n) s) :: caps st1)))
             (fun n' s' c1 c2 => Hk n' s' _ _) (MState n s cs) cs').
  - destruct (Nat.eqb n 0); [apply Hk|reflexivity].
  - destruct s; [apply Hk|reflexivity].
  - pose proof (IH1 Some blind_Some (MState n s cs) cs') as HS. simpl in HS.
    destruct (run r1 (MState n s cs) Some) as [a|],
             (run r1 (MState n s cs') Some) as [b|].
    + apply Hk.
    + exfalso. destruct HS as [_ HS]. discriminate (HS eq_refl).
    + exfalso. destruct HS as [HS _]. discriminate (HS eq_refl).
    + reflexivity.
Qed.

Lemma rep_complete (p : charset) (g : bool) (k : cont) (s' : jsstring)
    (cs : captures) (w : jsstring) :
  forall min max n,
    forallb p w = true -> min <= List.length w -> within max (List.length w) ->
    k (MState (n + List.length w) s' cs) <> None ->
    rep p g min max n (w ++ s') cs k <> None.
Proof.
  induction w as [|c w IH]; intros min max n Hw Hmin Hwi Hk.
  - simpl in *. rewrite Nat.add_0_r in Hk.
    assert (min = 0) as -> by lia.
    destruct s' as [|c' s']; destruct max as [[|m]|], g; simpl; auto;
      rewrite orelse_None; tauto.
  - simpl in Hw. apply andb_prop in Hw as [Hc Hw]. simpl in Hmin, Hwi.
    simpl List.length in Hk. rewrite Nat.add_succ_r in Hk.
    assert (Hnext : forall min', min' <= List.length w ->
              rep p g min' (option_map Nat.pred max) (S n) (w ++ s') cs k
              <> None).
    { intros min' Hle. apply IH; auto. apply within_pred; assumption. }
    destruct max as [[|m]|]; [simpl in Hwi; lia| |];
      destruct min as [|min], g; simpl; rewrite Hc, ?orelse_None;
      try (apply Hnext; lia);
      intros [H1 H2]; revert H1 + revert H2; apply Hnext; lia.
Qed.

(** Where the pattern leads to a state at which the continuation
    succeeds, [run] succeeds. *)
Theorem run_complete (r : regex) :
  forall st st' k,
    matches r st st' -> blind k -> k st' <> None -> run r st k <> None.
Proof.
  induction r as [|p|p min max g|r1 IH1 r2 IH2|r1 IH1 r2 IH2|i r1 IH1| | |r1 IH1];
    intros [n s cs] [n' s' cs'] k M Hb Hk; simpl in M |- *.
  - injection M as -> -> ->. assumption.
  - destruct M as (c & -> & Hp & -> & ->). rewrite Hp. assumption.
  - destruct M as (w & -> & Hw & Hmin & Hwi & -> & ->).
    apply rep_complete; assumption.
  - destruct M as (st1 & M1 & M2).
    apply (IH1 _ st1); [assumption| |].
    + intros a b c1 c2. apply (blind_run r2 k Hb (MState a b c1) c2).
    + apply (IH2 _ _ _ M2 Hb Hk).
  - rewrite orelse_None. intros [H1 H2]. destruct M as [M|M].
    + exact (IH1 _ _ _ M Hb Hk H1).
    + exact (IH2 _ _ _ M Hb Hk H2).
  - destruct M as (st1 & M1 & E). injection E as -> -> ->.
    apply (IH1 _ st1); [assumption| |assumption].
    intros a b c1 c2. apply Hb.
  - destruct M as (-> & E). injection E as -> -> ->. assumption.
  - destruct M as (-> & E). injection E as -> -> ->. assumption.
  - destruct M as (st1 & M1 & E). injection E as -> -> ->.
    pose proof (IH1 _ _ Some M1 blind_Some) as H.
    destruct (run r1 (MState n s cs) Some) as [st2|].
    + intros E. apply Hk. apply (Hb n s (caps st2) (caps st1)). exact E.
    + exfalso. apply H; [discriminate|reflexivity].
Qed.

(** A match consumes a prefix of the input that remains and advances
    the index by its length. *)
Lemma matches_consumes (r : regex) :
  forall st st',
    matches r st st' ->
    exists w, rest st = w ++ rest st' /\ pos st' = pos st + List.length w.
Proof.
  induction r as [|p|p min max g|r1 IH1 r2 IH2|r1 IH1 r2 IH2|i r1 IH1| | |r1 IH1];
    intros st st' M; simpl in M.
  - subst. exists []. simpl. auto.
  - destruct M as (c & E & _ & P & _). exists [c]. simpl. split; [exact E|lia].
  - destruct M as (w & E & _ & _ & _ & P & _). exists w. auto.
  - destruct M as (st1 & M1 & M2).
    destruct (IH1 _ _ M1) as (w1 & E1 & P1).
    destruct (IH2 _ _ M2) as (w2 & E2 & P2).
    exists (w1 ++ w2). rewrite <- app_assoc, <- E2, length_app. split; [exact E1|lia].
  - destruct M as [M|M]; [apply IH1|apply IH2]; exact M.
  - destruct M as (st1 & M1 & ->). simpl. apply IH1. exact M1.
  - destruct M as (_ & ->). exists []. simpl. auto.
  - destruct M as (_ & ->). exists []. simpl. auto.
  - destruct M as (st1 & _ & ->). exists []. simpl. auto.
Qed.

Lemma search_Some (r : regex) (s : jsstring) :
  forall n i from st,
    search r n s = Some (i, from, st) ->
    exists before,
      s = before ++ from /\ i = n + List.length before
      /\ run r (MState i from []) Some = Some st
      /\ forall b1 f1,
          s = b1 ++ f1 -> List.length b1 < List.length before ->
          run r (MState (n + List.length b1) f1 []) Some = None.
Proof.
  induction s as [|c s IH]; intros n i from st H; simpl in H.
  - destruct (run r (MState n [] []) Some) as [st0|] eqn:E; [|discriminate].
    injection H as <- <- <-. exists []. simpl. rewrite Nat.add_0_r.
    repeat split; auto. intros; lia.
  - destruct (run r (MState n (c :: s) []) Some) as [st0|] eqn:E.
    + injection H as <- <- <-. exists []. simpl. rewrite Nat.add_0_r.
      repeat split; auto. intros; lia.
    + destruct (IH _ _ _ _ H) as (before & -> & -> & Hrun & Hleft).
      exists (c :: before). simpl. rewrite Nat.add_succ_r.
      repeat split; auto.
      intros [|c1 b1] f1 E1 Hlt; simpl in E1.
      * subst f1. simpl. rewrite Nat.add_0_r. exact E.
      * injection E1 as <- E1. simpl. rewrite Nat.add_succ_r.
        apply Hleft; [exact E1|simpl in Hlt; lia].
Qed.

Lemma search_None (r : regex) (s : jsstring) :
  forall n,
    search r n s = None ->
    forall before from,
      s = before ++ from ->
      run r (MState (n + List.length before) from []) Some = None.
Proof.
  induction s as [|c s IH]; intros n H before from E; simpl in H.
  - destruct before; [|discriminate]. simpl in E. subst from.
    simpl. rewrite Nat.add_0_r.
    destruct (run r (MState n [] []) Some); [discriminate|reflexivity].
  - destruct (run r (MState n (c :: s) []) Some) eqn:E0; [discriminate|].
    destruct before as [|c1 b1]; simpl in E.
    + subst from. simpl. rewrite Nat.add_0_r. exact E0.
    + injection E as <- E. simpl. rewrite Nat.add_succ_r.
      apply (IH (S n) H b1 from E).
Qed.

Lemma search_first (r : regex) (before : jsstring) :
  forall n from st,
    (forall b1 f1,
        before ++ from = b1 ++ f1 -> List.length b1 < List.length before ->
        run r (MState (n + List.length b1) f1 []) Some = None) ->
    run r (MState (n + List.length before) from []) Some = Some st ->
    search r n (before ++ from) = Some (n + List.length before, from, st).
Proof.
  induction before as [|c before IH]; intros n from st Hleft Hrun.
  - simpl in *. rewrite Nat.add_0_r in *.
    destruct from; simpl; rewrite Hrun; reflexivity.
  - pose proof (Hleft [] (c :: before ++ from) eq_refl) as H0.
    simpl in H0. rewrite Nat.add_0_r in H0.
    simpl. rewrite H0 by lia. rewrite Nat.add_succ_r.
    apply IH.
    + intros b1 f1 E Hlt.
      specialize (Hleft (c :: b1) f1). simpl in Hleft.
      rewrite Nat.add_succ_r in Hleft. apply Hleft; [congruence|lia].
    + simpl in Hrun. rewrite Nat.add_succ_r in Hrun. exact Hrun.
Qed.

(** [exec] fails exactly on the texts in which the pattern does not
    occur. *)
Theorem exec_None_iff (r : regex) (s : jsstring) :
  exec r s = None <-> ~ occurs r s.
Proof.
  unfold exec, occurs. split.
  - intros H (before & from & st' & -> & M).
    destruct (search r 0 (before ++ from)) as [[[i f] st]|] eqn:E;
      [discriminate|].
    pose proof (search_None _ _ _ E before from eq_refl) as Hn. simpl in Hn.
    apply (run_complete _ _ _ Some M blind_Some); [discriminate|exact Hn].
  - intros H. destruct (search r 0 s) as [[[i f] st]|] eqn:E; [|reflexivity].
    exfalso. apply H.
    destruct (search_Some _ _ _ _ _ _ E) as (before & -> & -> & Hrun & _).
    destruct (run_sound _ _ _ _ Hrun) as (st' & M & Hst).
    exists before, f, st'. auto.
Qed.

(** What [exec] returns is the leftmost match. *)
Theorem exec_Some_inv (r : regex) (s : jsstring) (m : MatchResult) :
  exec r s = Some m ->
  exists before w after st,
    s = before ++ w ++ after
    /\ index m = List.length before /\ matched m = w /\ groups m = caps st
    /\ matches r (MState (List.length before) (w ++ after) []) st
    /\ rest st = after
    /\ forall b1 f1 st1,
        s = b1 ++ f1 -> List.length b1 < List.length before ->
        ~ matches r (MState (List.length b1) f1 []) st1.
Proof.
  unfold exec. intros H.
  destruct (search r 0 s) as [[[i f] st]|] eqn:E; [|discriminate].
  injection H as <-.
  destruct (search_Some _ _ _ _ _ _ E) as (before & -> & -> & Hrun & Hleft).
  destruct (run_sound _ _ _ _ Hrun) as (st' & M & Hst). injection Hst as ->.
  destruct (matches_consumes _ _ _ M) as (w & Hw & Hp). simpl in Hw, Hp.
  exists before, w, (rest st), st. simpl. subst f.
  rewrite Hp, Nat.add_comm, Nat.add_sub, firstn_app, firstn_all, Nat.sub_diag.
  simpl. rewrite app_nil_r. repeat split; auto.
  intros b1 f1 st1 E1 Hlt M1.
  specialize (Hleft b1 f1 E1 Hlt). simpl in Hleft.
  apply (run_complete _ _ _ Some M1 blind_Some); [discriminate|exact Hleft].
Qed.

(** Where the pattern matches at an index and at no earlier one, [exec]
    returns the match the matcher finds at that index. *)
Theorem exec_first (r : regex) (before from : jsstring) (st : mstate) :
  (forall b1 f1 st1,
      before ++ from = b1 ++ f1 -> List.length b1 < List.length before ->
      ~ matches r (MState (List.length b1) f1 []) st1) ->
  run r (MState (List.length before) from []) Some = Some st ->
  exec r (before ++ from)
  = Some (MkMatch (List.length before)
            (firstn (pos st - List.length before) from) (caps st)).
Proof.
  intros Hleft Hrun. unfold exec.
  rewrite (search_first r before 0 from st); [reflexivity| |exact Hrun].
  intros b1 f1 E Hlt. simpl.
  destruct (run r (MState (List.length b1) f1 []) Some) as [st1|] eqn:E1;
    [|reflexivity].
  exfalso. destruct (run_sound _ _ _ _ E1) as (st' & M & _).
  exact (Hleft _ _ _ E Hlt M).
Qed.

(** What [exec] returns, in terms of the run of the matcher. *)
Lemma exec_Some_run (r : regex) (s : jsstring) (m : MatchResult) :
  exec r s = Some m ->
  exists before from st,
    s = before ++ from
    /\ run r (MState (List.length before) from []) Some = Some st
    /\ m = MkMatch (List.length before)
             (firstn (pos st - List.length before) from) (caps st)
    /\ forall b1 f1 st1,
        s = b1 ++ f1 -> (List.length b1 < List.length before)%nat ->
        ~ matches r (MState (List.length b1) f1 []) st1.
Proof.
  unfold exec. intros H.
  destruct (search r 0 s) as [[[i f] st]|] eqn:E; [|discriminate].
  injection H as <-.
  destruct (search_Some _ _ _ _ _ _ E) as (before & -> & -> & Hrun & Hleft).
  exists before, f, st. simpl. repeat split; auto.
  intros b1 f1 st1 E1 Hlt M1.
  specialize (Hleft b1 f1 E1 Hlt). simpl in Hleft.
  apply (run_complete _ _ _ Some M1 blind_Some); [discriminate|exact Hleft].
Qed.

End RegExpFacts.

(** ** Strings and arrays *)

Module JSFacts.

Local Open Scope nat_scope.

Lemma slice_0 {A : Type} (l : list A) (n : nat) : slice l 0 n = firstn n l.
Proof. unfold slice. rewrite Nat.sub_0_r. reflexivity. Qed.

Lemma substring_0 (s : jsstring) (n : nat) : substring s 0 n = firstn n s.
Proof. unfold substring. simpl. rewrite Nat.sub_0_r. reflexivity. Qed.

Lemma split_not_nil (s : jsstring) (sep : cu) : split s sep <> [].
Proof.
  destruct s as [|c s]; simpl; [discriminate|].
  destruct (c =? sep)%Z; [discriminate|].
  destruct (split s sep); discriminate.
Qed.

Lemma lines_not_nil (text : jsstring) (count : nat) :
  0 < count -> lines text count <> [].
Proof.
  intros H. unfold lines. rewrite slice_0.
  pose proof (split_not_nil text LF) as Hs.
  destruct (split text LF); [congruence|].
  destruct count; [lia|]. discriminate.
Qed.

Lemma trimStart_head (s : jsstring) (c : cu) (t : jsstring) :
  trimStart s = c :: t -> isWhiteSpace c = false.
Proof.
  induction s as [|a s IH]; simpl; [discriminate|].
  destruct (isWhiteSpace a) eqn:E; [exact IH|].
  intros [= <- _]. exact E.
Qed.

Lemma trimStart_fixed (s : jsstring) :
  match s with [] => True | c :: _ => isWhiteSpace c = false end ->
  trimStart s = s.
Proof. destruct s as [|c s]; simpl; [reflexivity|]. intros ->. reflexivity. Qed.

Lemma trimStart_idem (s : jsstring) : trimStart (trimStart s) = trimStart s.
Proof.
  apply trimStart_fixed. destruct (trimStart s) eqn:E; [exact I|].
  exact (trimStart_head _ _ _ E).
Qed.

Lemma trimStart_suffix (s : jsstring) :
  exists w, s = w ++ trimStart s /\ forallb isWhiteSpace w = true.
Proof.
  induction s as [|c s (w & E & Hw)]; simpl.
  - exists []. auto.
  - destruct (isWhiteSpace c) eqn:Hc.
    + exists (c :: w). simpl. rewrite Hc, Hw. split; [congruence|reflexivity].
    + exists []. auto.
Qed.

Lemma trimEnd_idem (s : jsstring) : trimEnd (trimEnd s) = trimEnd s.
Proof. unfold trimEnd. rewrite rev_involutive, trimStart_idem. reflexivity. Qed.

Lemma trimEnd_prefix (s : jsstring) :
  exists w, s = trimEnd s ++ w /\ forallb isWhiteSpace w = true.
Proof.
  unfold trimEnd. destruct (trimStart_suffix (rev s)) as (w & E & Hw).
  exists (rev w). split.
  - rewrite <- rev_app_distr, <- E, rev_involutive. reflexivity.
  - rewrite forallb_forall in *. intros x Hx. apply Hw.
    apply in_rev. exact Hx.
Qed.

(** Removing trailing white space keeps a leading character that is not
    white space. *)
Lemma trimEnd_head (s : jsstring) (c : cu) :
  match s with [] => True | a :: _ => isWhiteSpace a = false end ->
  match trimEnd s with [] => True | a :: _ => isWhiteSpace a = false end.
Proof.
  intros H. destruct (trimEnd_prefix s) as (w & E & Hw).
  destruct (trimEnd s) as [|a t]; [exact I|].
  rewrite E in H. exact H.
Qed.

Lemma trim_head (s : jsstring) (c : cu) (t : jsstring) :
  trim s = c :: t -> isWhiteSpace c = false.
Proof.
  unfold trim. intros E.
  pose proof (trimEnd_head (trimStart s) c) as H. rewrite E in H.
  apply H. destruct (trimStart s) eqn:E1; [exact I|].
  exact (trimStart_head _ _ _ E1).
Qed.

Lemma trimStart_trimEnd (s : jsstring) :
  trimStart (trimEnd (trimStart s)) = trimEnd (trimStart s).
Proof.
  apply trimStart_fixed. apply (trimEnd_head _ 0%Z).
  destruct (trimStart s) eqn:E; [exact I|]. exact (trimStart_head _ _ _ E).
Qed.

(** [trim] is idempotent. *)
Lemma trim_idem (s : jsstring) : trim (trim s) = trim s.
Proof. unfold trim. rewrite trimStart_trimEnd, trimEnd_idem. reflexivity. Qed.

End JSFacts.

(** ** The line scanners *)

Module ScanFacts.

Import RegExpFacts JSFacts.

(** The loop of [extractTitle] returns the first trimmed line that
    passes [titleRule]. *)
Lemma extractTitleFrom_find (ls : list jsstring) :
  extractTitleFrom ls = find titleRule (map trim ls).
Proof.
  induction ls as [|l ls IH]; simpl; [reflexivity|].
  unfold titleRule, lengthInBounds, isNumbered, isSection, isUppercase,
    hasSpace.
  destruct (Nat.ltb 10 (List.length (trim l))
            && Nat.ltb (List.length (trim l)) 200); simpl; [|exact IH].
  destruct (negb (test numberedRe (trim l)) && negb (test sectionRe (trim l))
            && negb (test upperRe (trim l)) && includes (trim l) (js " "));
    [reflexivity|exact IH].
Qed.

Lemma extractTitle_find (text : jsstring) :
  extractTitle text = find titleRule (normalizedLines text 10).
Proof. apply extractTitleFrom_find. Qed.

Lemma extractTitle_Some (text t : jsstring) :
  extractTitle text = Some t ->
  In t (normalizedLines text 10) /\ titleRule t = true.
Proof. rewrite extractTitle_find. apply find_some. Qed.

(** The loop of [extractAuthors] appends, in order, the trimmed lines
    that pass [authorRule]. *)
Lemma extractAuthorsFrom_filter (ls : list jsstring) :
  forall acc,
    extractAuthorsFrom ls acc = acc ++ filter authorRule (map trim ls).
Proof.
  induction ls as [|l ls IH]; intros acc; simpl.
  - rewrite app_nil_r. reflexivity.
  - unfold authorRule at 1.
    destruct (test nameRe (trim l) && negb (test headingRe (trim l))).
    + rewrite IH, <- app_assoc. reflexivity.
    + apply IH.
Qed.

Lemma extractAuthors_filter (text : jsstring) :
  extractAuthors text = firstn 5 (filter authorRule (normalizedLines text 20)).
Proof.
  unfold extractAuthors. rewrite slice_0, extractAuthorsFrom_filter.
  reflexivity.
Qed.

(** [/^[A-Z\s]+$/] matches every non-empty string of upper-case letters
    and white space. *)
Lemma upperRe_matches (l : jsstring) :
  l <> [] -> forallb (union (range 65 90) space) l = true ->
  test upperRe l = true.
Proof.
  intros Hne Hall. unfold test.
  destruct (exec upperRe l) eqn:E; [reflexivity|].
  exfalso. apply exec_None_iff in E. apply E.
  exists [], l, (MState (List.length l) [] []). split; [reflexivity|].
  simpl. eexists. split; [split; reflexivity|].
  exists (MState (List.length l) [] []). split.
  - exists l. simpl. rewrite app_nil_r. repeat split; auto.
    destruct l; [congruence|simpl; lia].
  - eexists. split; [split; reflexivity|reflexivity].
Qed.

Lemma upper_letters_only (l : jsstring) :
  forallb isUpperLetter l = true ->
  forallb (union (range 65 90) space) l = true.
Proof.
  rewrite !forallb_forall. intros H x Hx. unfold union.
  unfold isUpperLetter in H. rewrite (H x Hx). reflexivity.
Qed.

(** A line of upper-case letters and white space fails [titleRule]. *)
Lemma titleRule_uppercase (l : jsstring) :
  forallb (union (range 65 90) space) l = true -> titleRule l = false.
Proof.
  intros H. unfold titleRule. destruct l as [|c l]; [reflexivity|].
  unfold isUppercase. rewrite (upperRe_matches (c :: l)) by (auto; discriminate).
  simpl. rewrite !andb_false_r. reflexivity.
Qed.

(** So does a line without the space character, whatever its letters. *)
Lemma titleRule_no_space (l : jsstring) :
  forallb (fun c => negb (c =? SPACE)) l = true -> titleRule l = false.
Proof.
  intros H. unfold titleRule.
  assert (hasSpace l = false) as ->; [|apply andb_false_r].
  unfold hasSpace. induction l as [|c l IH]; [reflexivity|].
  simpl in H. apply andb_prop in H as [Hc Hl].
  change (js " ") with [SPACE] in *. simpl.
  apply negb_true_iff in Hc. rewrite Hc. simpl.
  specialize (IH Hl). destruct l; simpl in IH |- *; exact IH.
Qed.

End ScanFacts.


(** ** Running the patterns of the source *)

Module PatternFacts.

Import RegExpFacts JSFacts.

(** A greedy quantifier without upper bound takes the whole run of
    characters of its class, when the continuation accepts that. *)
Lemma rep_greedy_max (p : charset) (k : cont) (cs : captures)
    (s' : jsstring) (res : mstate) (w : jsstring) :
  forall min n,
    forallb p w = true -> (min <= List.length w)%nat ->
    match s' with [] => True | c :: _ => p c = false end ->
    k (MState (n + List.length w) s' cs) = Some res ->
    rep p true min None n (w ++ s') cs k = Some res.
Proof.
  induction w as [|c w IH]; intros min n Hw Hmin Hs Hk.
  - simpl in *. rewrite Nat.add_0_r in Hk. assert (min = 0)%nat as -> by lia.
    destruct s' as [|c' s']; simpl; [exact Hk|]. rewrite Hs. exact Hk.
  - simpl in Hw. apply andb_prop in Hw as [Hc Hw].
    simpl List.length in *. rewrite Nat.add_succ_r in Hk.
    destruct min as [|min]; simpl; rewrite Hc.
    + rewrite (IH 0%nat (S n)); auto. lia.
    + apply IH; auto. lia.
Qed.

Lemma first_pivot {A : Type} (x : A) (a a' b b' : list A) :
  ~ In x a -> ~ In x a' -> a ++ x :: b = a' ++ x :: b' -> a = a' /\ b = b'.
Proof.
  revert a'. induction a as [|y a IH]; intros [|y' a'] Ha Ha' E; simpl in *.
  - injection E as E. auto.
  - injection E as -> _. tauto.
  - injection E as -> _. tauto.
  - injection E as -> E. destruct (IH a') as [-> ->]; auto.
Qed.

Lemma forallb_not_In (p : charset) (x : cu) (w : jsstring) :
  forallb p w = true -> p x = false -> ~ In x w.
Proof.
  intros Hw Hx Hin. rewrite forallb_forall in Hw. rewrite (Hw x Hin) in Hx.
  discriminate.
Qed.

(** A text cut in two ways, the second cut before the first. *)
Lemma app_split_lt {A : Type} (pre from b1 f1 : list A) :
  pre ++ from = b1 ++ f1 -> (List.length b1 < List.length pre)%nat ->
  exists u, u <> [] /\ pre = b1 ++ u /\ f1 = u ++ from.
Proof.
  revert b1.
  induction pre as [|c pre IH]; intros [|c1 b1] E Hlt; simpl in *; try lia.
  - subst f1. exists (c :: pre). repeat split. discriminate.
  - injection E as <- E. destruct (IH b1 E) as (u & Hu & -> & ->); [lia|].
    exists u. auto.
Qed.

Lemma includes_In (s : jsstring) (x : cu) :
  includes s [x] = false -> ~ In x s.
Proof.
  induction s as [|c s IH]; simpl; [tauto|].
  intros H [->|Hin].
  - rewrite Z.eqb_refl in H. destruct s; discriminate.
  - apply orb_false_elim in H as [_ H]. exact (IH H Hin).
Qed.

Lemma includes_app_r (a b sub : jsstring) :
  startsWith b sub = true -> includes (a ++ b) sub = true.
Proof.
  intros H. induction a as [|c a IH]; simpl.
  - destruct b; simpl in *; rewrite H; reflexivity.
  - rewrite IH. apply orb_true_r.
Qed.

Lemma firstn_app_exact {A : Type} (a b : list A) :
  firstn (List.length a) (a ++ b) = a.
Proof. rewrite firstn_app, firstn_all, Nat.sub_diag. simpl. apply app_nil_r. Qed.

(** What a literal under the [i] flag matches: the same letters, up to
    case. *)
Lemma matches_litCI (w : jsstring) :
  forall st st',
    matches (litCI w) st st' ->
    exists v,
      rest st = v ++ rest st'
      /\ map canonicalize v = map canonicalize w
      /\ pos st' = (pos st + List.length w)%nat /\ caps st' = caps st.
Proof.
  induction w as [|c w IH]; intros st st' M.
  - cbn in M. subst st'. exists []. rewrite Nat.add_0_r. auto.
  - cbn [litCI seq map fold_right matches] in M.
    destruct M as (st1 & (x & E & Hx & P & C) & M).
    destruct (IH _ _ M) as (v & E' & Hv & P' & C').
    exists (x :: v). simpl. rewrite E, E', Hv, P', P, C', C.
    apply Z.eqb_eq in Hx. rewrite Hx.
    repeat split; auto; lia.
Qed.

Lemma trimStart_app_ws (w s : jsstring) :
  forallb isWhiteSpace w = true -> trimStart (w ++ s) = trimStart s.
Proof.
  induction w as [|c w IH]; simpl; [reflexivity|].
  intros H. apply andb_prop in H as [-> H]. exact (IH H).
Qed.

Lemma trimEnd_app_ws (s w : jsstring) :
  forallb isWhiteSpace w = true -> trimEnd (s ++ w) = trimEnd s.
Proof.
  intros H. unfold trimEnd. rewrite rev_app_distr, trimStart_app_ws; auto.
  rewrite forallb_forall in *. intros x Hx. apply H, in_rev, Hx.
Qed.

Lemma run_litCI (w : jsstring) :
  forall v n s cs k,
    map canonicalize v = map canonicalize w ->
    run (litCI w) (MState n (v ++ s) cs) k
    = k (MState (n + List.length w) s cs).
Proof.
  induction w as [|c w IH]; intros [|x v] n s cs k E; try discriminate.
  - cbn. rewrite Nat.add_0_r. reflexivity.
  - cbn in E. injection E as Ex E.
    cbn [litCI seq map fold_right run rest pos caps app].
    unfold oneCI at 1. rewrite Ex, Z.eqb_refl.
    change (run (litCI w) (MState (S n) (v ++ s) cs) k = k (MState (n + S (List.length w)) s cs)).
    rewrite (IH v (S n) s cs k E). rewrite Nat.add_succ_r. reflexivity.
Qed.

Lemma rep_max0 (p : charset) (g : bool) (n : nat) (s : jsstring)
    (cs : captures) (k : cont) :
  rep p g 0 (Some 0%nat) n s cs k = k (MState n s cs).
Proof. destruct s; reflexivity. Qed.

Lemma search_here (r : regex) (n : nat) (s : jsstring) (st : mstate) :
  run r (MState n s []) Some = Some st -> search r n s = Some (n, s, st).
Proof. intros H. destruct s; cbn [search]; rewrite H; reflexivity. Qed.

Lemma matches_Rep_intro (p : charset) (min : nat) (max : option nat)
    (g : bool) (n : nat) (w s : jsstring) (cs : captures) :
  forallb p w = true -> (min <= List.length w)%nat ->
  within max (List.length w) ->
  matches (Rep p min max g) (MState n (w ++ s) cs)
    (MState (n + List.length w) s cs).
Proof. intros. exists w. cbn. auto 10. Qed.

Lemma matches_Chr_intro (p : charset) (n : nat) (c : cu) (s : jsstring)
    (cs : captures) :
  p c = true ->
  matches (Chr p) (MState n (c :: s) cs) (MState (S n) s cs).
Proof. intros. exists c. cbn. auto. Qed.

Lemma matches_litCI_intro (w : jsstring) :
  forall v n s cs,
    map canonicalize v = map canonicalize w ->
    matches (litCI w) (MState n (v ++ s) cs)
      (MState (n + List.length w) s cs).
Proof.
  induction w as [|c w IH]; intros [|x v] n s cs E; try discriminate.
  - cbn. rewrite Nat.add_0_r. reflexivity.
  - cbn in E. injection E as Ex E.
    cbn [litCI seq map fold_right matches].
    exists (MState (S n) (v ++ s) cs). split.
    + apply matches_Chr_intro. unfold oneCI. rewrite Ex. apply Z.eqb_refl.
    + cbn [List.length]. rewrite Nat.add_succ_r. apply (IH v (S n) s cs E).
Qed.

Lemma one_forallb (c : cu) (w : jsstring) :
  forallb (one c) w = true -> (List.length w <= 1)%nat -> w = [] \/ w = [c].
Proof.
  destruct w as [|x [|y w]]; simpl; intros H L; [auto| |lia].
  right. rewrite andb_true_r in H. apply Z.eqb_eq in H. congruence.
Qed.

Lemma matches_Seq_intro (r1 r2 : regex) (st st1 st' : mstate) :
  matches r1 st st1 -> matches r2 st1 st' -> matches (Seq r1 r2) st st'.
Proof. intros. exists st1. auto. Qed.

(** A pattern without groups leaves the captures as they are. *)
Lemma matches_caps (r : regex) :
  hasGroup r = false ->
  forall st st', matches r st st' -> caps st' = caps st.
Proof.
  induction r as [|p|p min max g|r1 IH1 r2 IH2|r1 IH1 r2 IH2|i r1 IH1| | |r1 IH1];
    simpl; intros H st st' M; try discriminate.
  - subst. reflexivity.
  - destruct M as (c & _ & _ & _ & C). exact C.
  - destruct M as (w & _ & _ & _ & _ & _ & C). exact C.
  - apply orb_false_elim in H as [H1 H2]. destruct M as (st1 & M1 & M2).
    rewrite (IH2 H2 _ _ M2). exact (IH1 H1 _ _ M1).
  - apply orb_false_elim in H as [H1 H2].
    destruct M as [M|M]; [exact (IH1 H1 _ _ M)|exact (IH2 H2 _ _ M)].
  - destruct M as (_ & ->). reflexivity.
  - destruct M as (_ & ->). reflexivity.
  - destruct M as (st1 & M1 & ->). simpl. exact (IH1 H _ _ M1).
Qed.

(** A greedy quantifier without upper bound, before a continuation that
    accepts every state, stops only at the end of the input or at a
    character outside its class. *)
Lemma rep_greedy_stop (p : charset) (k : cont) (cs : captures)
    (s : jsstring) :
  (forall st, k st <> None) ->
  forall min n res,
    rep p true min None n s cs k = Some res ->
    exists w s',
      s = w ++ s' /\ forallb p w = true /\ (min <= List.length w)%nat
      /\ match s' with [] => True | c :: _ => p c = false end
      /\ k (MState (n + List.length w) s' cs) = Some res.
Proof.
  intros Hk. induction s as [|c s IH]; intros min n res H.
  - exists [], []. rewrite Nat.add_0_r.
    destruct min; simpl in H; [|discriminate]. simpl. auto.
  - destruct (p c) eqn:Hc.
    + assert (Hrec : exists min',
                (min <= S min')%nat
                /\ rep p true min' None (S n) s cs k = Some res).
      { destruct min as [|min]; simpl in H; rewrite Hc in H.
        - exists 0%nat. split; [lia|].
          destruct (rep p true 0 None (S n) s cs k) eqn:E; [exact H|].
          exfalso. revert E.
          apply (rep_complete p true k s cs [] 0%nat None (S n));
            simpl; auto.
        - exists min. split; [lia|exact H]. }
      destruct Hrec as (min' & Hle & Hr).
      destruct (IH _ _ _ Hr) as (w & s' & -> & Hw & Hmin & Hs & Hres).
      exists (c :: w), s'. simpl. rewrite Hc, Hw, Nat.add_succ_r.
      repeat split; auto. lia.
    + exists [], (c :: s). rewrite Nat.add_0_r.
      destruct min; simpl in H; rewrite Hc in H; [|discriminate].
      simpl. auto.
Qed.

(** Running a sequence: the patterns before the last lead to some state,
    from which the last pattern runs. *)
Lemma run_seq_sound (r : regex) (rs : list regex) :
  forall st k res,
    run (seq (rs ++ [r])) st k = Some res ->
    exists st1, matches (seq rs) st st1 /\ run r st1 k = Some res.
Proof.
  induction rs as [|r0 rs IH]; intros st k res H.
  - exists st. split; [reflexivity|exact H].
  - cbn [app seq fold_right run] in H.
    apply run_sound in H as (st0 & M0 & H).
    destruct (IH _ _ _ H) as (st1 & M1 & H1).
    exists st1. split; [|exact H1]. exists st0. auto.
Qed.

End PatternFacts.

(** ** What the rules of the line scanners mean *)

Module RuleFacts.

Import RegExpFacts JSFacts PatternFacts ScanFacts.

(** A pattern that begins with [^] matches at the start of the string
    or nowhere. *)
Lemma test_anchored (r : regex) (l : jsstring) :
  test (Seq Bol r) l = true <-> exists st', matches r (MState 0 l []) st'.
Proof.
  unfold test. split.
  - destruct (exec (Seq Bol r) l) as [m|] eqn:E; [|discriminate]. intros _.
    destruct (exec_Some_inv _ _ _ E)
      as (before & w & after & st & -> & _ & _ & _ & M & _).
    destruct M as (st1 & (Hp & ->) & M). cbn in Hp.
    destruct before; [|discriminate]. exists st. exact M.
  - intros (st' & M). destruct (exec (Seq Bol r) l) eqn:E; [reflexivity|].
    exfalso. apply exec_None_iff in E. apply E.
    exists [], l, st'. split; [reflexivity|].
    eexists. split; [split; reflexivity|exact M].
Qed.

(** A line begins with a numbering: digits and a full stop. *)
Lemma isNumbered_iff (l : jsstring) :
  isNumbered l = true
  <-> exists ds tl,
        l = ds ++ js "." ++ tl /\ ds <> [] /\ forallb digit ds = true.
Proof.
  unfold isNumbered, numberedRe. cbn [seq fold_right]. rewrite test_anchored.
  split.
  - intros (st' & M). cbn in M.
    destruct M as (s1 & (ds & E1 & Hd & L & _) & s2 & (c & E2 & Hc & _) & ->).
    apply Z.eqb_eq in Hc. subst c.
    exists ds, (rest s2). rewrite E1, E2. repeat split; auto.
    intros ->. simpl in L. lia.
  - intros (ds & tl & -> & Hne & Hd).
    exists (MState (0 + List.length ds + 1) tl []).
    cbn [matches plus].
    exists (MState (0 + List.length ds) (js "." ++ tl) []). split.
    + exists ds. cbn. repeat split; auto.
      destruct ds; [congruence|simpl; lia].
    + eexists. split; [|reflexivity]. exists 46. cbn.
      repeat split; auto. lia.
Qed.

Lemma keywords_iff (k1 k2 k3 l : jsstring) :
  test (seq [Bol; Group 1 (alt (litCI k1) [litCI k2; litCI k3])]) l = true
  <-> exists kw v tl,
        In kw [k1; k2; k3] /\ l = v ++ tl
        /\ map canonicalize v = map canonicalize kw.
Proof.
  cbn [seq fold_right]. rewrite test_anchored. split.
  - intros (st' & M). cbn [matches alt] in M.
    destruct M as (s1 & (s2 & M & ->) & ->).
    destruct M as [M|[M|M]];
      apply matches_litCI in M as (v & E & Hv & _); cbn in E;
      [exists k1|exists k2|exists k3]; exists v, (rest s2);
      (split; [simpl; auto|split; [exact E|exact Hv]]).
  - intros (kw & v & tl & Hin & -> & Hv).
    pose proof (matches_litCI_intro kw v 0 tl [] Hv) as M.
    eexists. cbn [matches alt].
    eexists. split; [|reflexivity].
    eexists. split; [|reflexivity].
    destruct Hin as [<-|[<-|[<-|[]]]]; [left|right; left|right; right]; exact M.
Qed.

(** A line begins with a section keyword, in any case. *)
Lemma isSection_iff (l : jsstring) :
  isSection l = true
  <-> exists kw v tl,
        In kw sectionKeywords /\ l = v ++ tl
        /\ map canonicalize v = map canonicalize kw.
Proof. apply keywords_iff. Qed.

Lemma heading_iff (l : jsstring) :
  test headingRe l = true
  <-> exists kw v tl,
        In kw sectionKeywords /\ l = v ++ tl
        /\ map canonicalize v = map canonicalize kw.
Proof.
  unfold headingRe. rewrite keywords_iff. unfold sectionKeywords.
  split; intros (kw & v & tl & Hin & E & Hv).
  - destruct Hin as [<-|[<-|[<-|[]]]];
      [exists (js "abstract")|exists (js "introduction")
      |exists (js "conclusion")];
      exists v, tl; (split; [simpl; auto|split; [exact E|exact Hv]]).
  - destruct Hin as [<-|[<-|[<-|[]]]];
      [exists (js "Abstract")|exists (js "Introduction")
      |exists (js "Conclusion")];
      exists v, tl; (split; [simpl; auto|split; [exact E|exact Hv]]).
Qed.

(** A line is made of upper-case letters and white space only. *)
Lemma isUppercase_iff (l : jsstring) :
  isUppercase l = true
  <-> l <> [] /\ forallb (union (range 65 90) space) l = true.
Proof.
  split.
  - unfold isUppercase, upperRe. cbn [seq fold_right]. rewrite test_anchored.
    intros (st' & M). cbn in M.
    destruct M as (s1 & (w & E1 & Hw & L & _) & s2 & (E2 & ->) & ->).
    rewrite E1, E2, app_nil_r. split; [|exact Hw].
    intros ->. simpl in L. lia.
  - intros [Hne H]. apply upperRe_matches; assumption.
Qed.

Lemma hasSpace_iff (l : jsstring) : hasSpace l = true <-> In SPACE l.
Proof.
  unfold hasSpace. change (js " ") with [SPACE].
  induction l as [|c l IH]; simpl; [intuition discriminate|].
  rewrite orb_true_iff, andb_true_iff, IH, Z.eqb_eq.
  split; [intros [[H _]|H]|intros [H|H]]; auto.
Qed.

(** A line passes [authorRule]'s first test when it begins with two
    capitalised words: an upper-case letter and lower-case letters,
    white space, and the same again. *)
Lemma nameRe_iff (l : jsstring) :
  test nameRe l = true
  <-> exists c1 w1 sp c2 w2 tl,
        l = c1 :: w1 ++ sp ++ c2 :: w2 ++ tl
        /\ range 65 90 c1 = true
        /\ w1 <> [] /\ forallb (range 97 122) w1 = true
        /\ sp <> [] /\ forallb isWhiteSpace sp = true
        /\ range 65 90 c2 = true
        /\ w2 <> [] /\ forallb (range 97 122) w2 = true.
Proof.
  unfold nameRe. cbn [seq fold_right]. rewrite test_anchored. split.
  - intros (st' & M). cbn [matches plus] in M.
    destruct M as (s1 & (c1 & E1 & H1 & _)
                   & s2 & (w1 & E2 & H2 & L2 & _)
                   & s3 & (sp & E3 & H3 & L3 & _)
                   & s4 & (c2 & E4 & H4 & _)
                   & s5 & (w2 & E5 & H5 & L5 & _) & ->).
    cbn [rest] in E1.
    exists c1, w1, sp, c2, w2, (rest s5).
    rewrite E1, E2, E3, E4, E5.
    repeat split; auto; intros ->; simpl in *; lia.
  - intros (c1 & w1 & sp & c2 & w2 & tl & -> & H1 & N1 & L1 & Ns & Ls
            & H2 & N2 & L2).
    eexists. cbn [plus].
    eapply matches_Seq_intro; [apply matches_Chr_intro; exact H1|].
    eapply matches_Seq_intro.
    { apply matches_Rep_intro; [exact L1| |exact I].
      destruct w1; [congruence|simpl; lia]. }
    eapply matches_Seq_intro.
    { apply matches_Rep_intro; [exact Ls| |exact I].
      destruct sp; [congruence|simpl; lia]. }
    eapply matches_Seq_intro; [apply matches_Chr_intro; exact H2|].
    eapply matches_Seq_intro.
    { apply matches_Rep_intro; [exact L2| |exact I].
      destruct w2; [congruence|simpl; lia]. }
    reflexivity.
Qed.

(** What a returned title satisfies. *)
Lemma extractTitle_returns (text t : jsstring) :
  extractTitle text = Some t ->
  In t (normalizedLines text 10)
  /\ (10 < List.length t < 200)%nat
  /\ isNumbered t = false /\ isSection t = false /\ isUppercase t = false
  /\ In SPACE t.
Proof.
  intros H. apply extractTitle_Some in H as [Hin H]. split; [exact Hin|].
  unfold titleRule, lengthInBounds in H.
  repeat (apply andb_prop in H as [H ?]).
  repeat match goal with
         | H : negb _ = true |- _ => apply negb_true_iff in H
         | H : Nat.ltb _ _ = true |- _ => apply Nat.ltb_lt in H
         end.
  rewrite <- hasSpace_iff. auto 10.
Qed.

End RuleFacts.

(** Positions met while running a pattern at a symbolic index. *)
Ltac simp_sub :=
  repeat match goal with
         | |- context [(S ?a - S ?b)%nat] =>
           change (S a - S b)%nat with (a - b)%nat
         | |- context [(S ?a - ?n)%nat] => rewrite (Nat.sub_succ_l n a) by lia
         | |- context [(?n + ?l - ?n)%nat] =>
           rewrite (Nat.add_comm n l), (Nat.add_sub l n)
         | |- context [(?n - ?n)%nat] => rewrite Nat.sub_diag
         end.

(** ** The publication date *)

Module DateFacts.

Import RegExpFacts JSFacts PatternFacts.

Local Arguments Nat.sub : simpl never.

Lemma extractPublicationDate_firstMatching (text : jsstring) :
  extractPublicationDate text
  = option_map dateOfMatch (firstMatching datePatterns text).
Proof.
  unfold extractPublicationDate.
  induction datePatterns as [|p ps IH]; simpl; [reflexivity|].
  destruct (exec p text); [reflexivity|exact IH].
Qed.

(** Before the first [年] of a text that goes on with [2023年5月], the
    first pattern has no match: its four digits and white space would
    have to end on the [3]. *)
Lemma yearMonth_not_before (u post : jsstring) (n : nat) (st1 : mstate) :
  u <> [] -> ~ In 24180 u ->
  ~ matches yearMonthRe (MState n (u ++ js "2023年5月" ++ post) []) st1.
Proof.
  intros Hu Hin M. cbn in M.
  destruct M as (st2 & ((sa & (w & E1 & Hw & Hl1 & Hl2 & _) & ->)
                 & st3 & (w2 & E2 & Hw2 & _)
                 & st4 & ((sb & (c & E3 & Hc & _) & _) & _))).
  simpl in E2. rewrite E2, E3 in E1.
  apply Z.eqb_eq in Hc. subst c.
  change (u ++ 50 :: 48 :: 50 :: 51 :: 24180 :: 53 :: 26376 :: post)
    with (u ++ [50; 48; 50] ++ [51] ++ 24180 :: 53 :: 26376 :: post) in E1.
  rewrite !app_assoc in E1.
  apply first_pivot in E1 as [E1 _].
  - assert (Hlen : List.length w2 = List.length u).
    { apply (f_equal (@List.length _)) in E1. rewrite !length_app in E1.
      simpl in E1. unfold jsstring, cu in *. lia. }
    destruct w2 as [|z w2] using rev_ind.
    + destruct u; [congruence|discriminate].
    + rewrite app_assoc in E1. apply app_inj_tail in E1 as [_ E1]. subst z.
      rewrite forallb_app in Hw2. simpl in Hw2.
      rewrite andb_false_r in Hw2. discriminate.
  - rewrite !in_app_iff. simpl. intuition discriminate.
  - rewrite in_app_iff.
    intros [H|H]; revert H;
      [apply (forallb_not_In digit)|apply (forallb_not_In space)]; auto.
Qed.

Lemma yearMonth_at (n : nat) (post : jsstring) :
  run yearMonthRe (MState n (js "2023年5月" ++ post) []) Some
  = Some (MState (7 + n) post [(2%nat, js "5"); (1%nat, js "2023")]).
Proof. cbn. simp_sub. reflexivity. Qed.

(** The match that [exec] returns for the first pattern on such a
    text. *)
Lemma exec_yearMonth (pre post : jsstring) :
  ~ In 24180 pre ->
  exec yearMonthRe (pre ++ js "2023年5月" ++ post)
  = Some (MkMatch (List.length pre) (js "2023年5月")
            [(2%nat, js "5"); (1%nat, js "2023")]).
Proof.
  intros Hin.
  rewrite (exec_first yearMonthRe pre (js "2023年5月" ++ post) _)
    with (2 := yearMonth_at _ _).
  - cbn [pos caps Nat.add]. simp_sub. reflexivity.
  - intros b1 f1 st1 E Hlt.
    destruct (app_split_lt _ _ _ _ E Hlt) as (u & Hu & -> & ->).
    apply yearMonth_not_before; [exact Hu|].
    intros H. apply Hin. apply in_or_app. right. exact H.
Qed.

(** A match of the first date pattern has its groups 1 and 2, four
    digits and one or two digits, and no group 3. *)
Lemma yearMonth_groups (text : jsstring) (m : MatchResult) :
  exec yearMonthRe text = Some m ->
  exists y mo,
    group 1 m = Some y /\ List.length y = 4%nat /\ forallb digit y = true
    /\ group 2 m = Some mo /\ (1 <= List.length mo <= 2)%nat
    /\ forallb digit mo = true
    /\ group 3 m = None.
Proof.
  intros E.
  destruct (exec_Some_inv _ _ _ E)
    as (before & w & after & st & _ & _ & _ & Hg & M & _).
  cbn in M.
  destruct M as (s1 & (a1 & (y & E1 & Hy & Ly1 & Ly2 & P1 & C1) & ->)
                 & s2 & (w2 & E2 & _ & _ & _ & P2 & C2)
                 & s3 & (a3 & (c3 & E3 & _ & P3 & C3) & ->)
                 & s4 & (w4 & E4 & _ & _ & _ & P4 & C4)
                 & s5 & (a5 & (mo & E5 & Hmo & Lm1 & Lm2 & P5 & C5) & ->)
                 & s6 & (w6 & E6 & _ & _ & _ & P6 & C6)
                 & s7 & (a7 & (c7 & E7 & _ & P7 & C7) & ->) & ->).
  cbn [pos rest caps] in *.
  exists y, mo. unfold group. rewrite Hg, C7, C6. cbn [lookup Nat.eqb].
  rewrite C5, C4, C3, C2. cbn [lookup Nat.eqb]. rewrite C1.
  rewrite P1, P5, E1, E5.
  replace (List.length before + List.length y - List.length before)%nat
    with (List.length y) by lia.
  replace (pos s4 + List.length mo - pos s4)%nat with (List.length mo) by lia.
  rewrite !firstn_app_exact.
  repeat split; auto; lia.
Qed.

Lemma yearMonth_first (text : jsstring) (m : MatchResult) :
  exec yearMonthRe text = Some m ->
  extractPublicationDate text = Some (dateOfMatch m)
  /\ dateDay (dateOfMatch m) = 1.
Proof.
  intros E. split.
  - rewrite extractPublicationDate_firstMatching.
    unfold datePatterns. cbn [firstMatching].
    change (seq _) with yearMonthRe at 1. rewrite E. reflexivity.
  - destruct (yearMonth_groups _ _ E) as (y & mo & _ & _ & _ & _ & _ & _ & G3).
    unfold dateOfMatch. rewrite G3. reflexivity.
Qed.

End DateFacts.

(** ** The journal *)

Module JournalFacts.

Import RegExpFacts JSFacts PatternFacts.

Local Arguments Nat.sub : simpl never.

(** Before the phrase, where no [published] is written in any case, the
    first pattern has no match. *)
Lemma publishedIn_not_before (b1 u tail : jsstring) (n : nat)
    (st1 : mstate) :
  u <> [] ->
  includes (map canonicalize (b1 ++ u)) (js "PUBLISHED") = false ->
  ~ matches publishedInRe
      (MState n (u ++ js "Published in XYZ Magazine" ++ tail) []) st1.
Proof.
  intros Hu Hinc M.
  cbn [publishedInRe journalPatterns nth seq fold_right matches] in M.
  destruct M as (st2 & M & _).
  apply matches_litCI in M as (v & E & Hv & _). cbn in E, Hv.
  destruct v as [|v0 [|v1 [|v2 [|v3 [|v4 [|v5 [|v6 [|v7 [|v8 [|]]]]]]]]]];
    try discriminate.
  injection Hv as H0 H1 H2 H3 H4 H5 H6 H7 H8.
  destruct u as [|u0 u]; [congruence|].
  do 8 (destruct u as [|? u];
        [cbn in E; injection E; intros; subst; discriminate|]).
  cbn in E. injection E as -> -> -> -> -> -> -> -> -> _.
  rewrite map_app, includes_app_r in Hinc; [discriminate|].
  cbn. rewrite H0, H1, H2, H3, H4, H5, H6, H7, H8. reflexivity.
Qed.

(** At the phrase, the capture runs over the white space that follows,
    up to the comma or the end of the text. *)
Lemma publishedIn_at (n : nat) (sp post : jsstring) :
  forallb isWhiteSpace sp = true ->
  match post with [] => True | c :: _ => c = 44 end ->
  run publishedInRe
    (MState n (js "Published in XYZ Magazine" ++ sp ++ post) []) Some
  = Some (MState (25 + n + List.length sp) post
            [(1%nat, js "XYZ Magazine" ++ sp)]).
Proof.
  intros Hsp Hpost. cbn.
  erewrite (rep_greedy_max _ _ _ post _ sp 0%nat).
  - cbn. reflexivity.
  - rewrite forallb_forall in *. intros x Hx. specialize (Hsp x Hx).
    unfold except, one.
    destruct (Z.eqb_spec x 44); [subst x; discriminate|reflexivity].
  - lia.
  - destruct post; [exact I|]. subst. reflexivity.
  - cbn. simp_sub. cbn. rewrite firstn_app_exact. reflexivity.
Qed.

Lemma exec_publishedIn (pre sp post : jsstring) :
  includes (map canonicalize pre) (js "PUBLISHED") = false ->
  forallb isWhiteSpace sp = true ->
  match post with [] => True | c :: _ => c = 44 end ->
  exec publishedInRe (pre ++ js "Published in XYZ Magazine" ++ sp ++ post)
  = Some (MkMatch (List.length pre) (js "Published in XYZ Magazine" ++ sp)
            [(1%nat, js "XYZ Magazine" ++ sp)]).
Proof.
  intros Hpre Hsp Hpost.
  rewrite (exec_first publishedInRe pre
             (js "Published in XYZ Magazine" ++ sp ++ post) _)
    with (2 := publishedIn_at _ _ _ Hsp Hpost).
  - cbn [pos caps Nat.add]. simp_sub.
    match goal with
    | |- context [firstn ?n _] =>
      change n with (List.length (js "Published in XYZ Magazine" ++ sp))
    end.
    rewrite app_assoc, firstn_app_exact. reflexivity.
  - intros b1 f1 st1 E Hlt.
    destruct (app_split_lt _ _ _ _ E Hlt) as (u & Hu & -> & ->).
    apply (publishedIn_not_before b1); assumption.
Qed.

Lemma trim_XYZ (sp : jsstring) :
  forallb isWhiteSpace sp = true ->
  trim (js "XYZ Magazine" ++ sp) = js "XYZ Magazine".
Proof.
  intros H. unfold trim.
  change (trimStart (js "XYZ Magazine" ++ sp)) with (js "XYZ Magazine" ++ sp).
  rewrite trimEnd_app_ws by exact H. reflexivity.
Qed.

Lemma phrase_exec (a b text : jsstring) (m : MatchResult) :
  exec (seq [litCI a; plus space; litCI b; plus space;
             Group 1 (plus (except (one 44)))]) text = Some m ->
  exists before lead cap after,
    text = before ++ lead ++ cap ++ after
    /\ index m = List.length before /\ matched m = lead ++ cap
    /\ group 1 m = Some cap
    /\ isPhraseLead a b lead
    /\ cap <> [] /\ forallb (except (one 44)) cap = true
    /\ nextIs (one 44) after.
Proof.
  intros E.
  destruct (exec_Some_run _ _ _ E) as (before & from & st & -> & R & -> & _).
  change (seq [litCI a; plus space; litCI b; plus space;
               Group 1 (plus (except (one 44)))])
    with (seq ([litCI a; plus space; litCI b; plus space]
               ++ [Group 1 (plus (except (one 44)))])) in R.
  apply run_seq_sound in R as (st1 & M1 & R).
  cbn [plus run] in R.
  apply rep_greedy_stop in R as (cap & s' & Ew & Hw & Hmin & Hs & [= <-]);
    [|discriminate].
  cbn [seq fold_right matches plus] in M1.
  destruct M1 as (a1 & A1 & a2 & (sp1 & E1 & H1 & L1 & _ & P1 & _)
                  & a3 & A3 & a4 & (sp2 & E2 & H2 & L2 & _ & P2 & _) & ->).
  apply matches_litCI in A1 as (va & Ea & Hva & Pa & _).
  apply matches_litCI in A3 as (vb & Eb & Hvb & Pb & _).
  cbn [rest pos] in *.
  assert (Ef : from = (va ++ sp1 ++ vb ++ sp2) ++ cap ++ s').
  { rewrite Ea, E1, Eb, E2, Ew, <- !app_assoc. reflexivity. }
  assert (Hp : pos a4 = (List.length before
                         + List.length (va ++ sp1 ++ vb ++ sp2))%nat).
  { rewrite !length_app, P2, Pb, P1, Pa.
    rewrite <- (length_map canonicalize va), <- (length_map canonicalize vb),
      Hva, Hvb, !length_map. lia. }
  exists before, (va ++ sp1 ++ vb ++ sp2), cap, s'.
  cbn [index matched pos caps group groups lookup Nat.eqb].
  replace (pos a4 + List.length cap - List.length before)%nat
    with (List.length ((va ++ sp1 ++ vb ++ sp2) ++ cap))
    by (rewrite Hp, length_app; lia).
  replace (pos a4 + List.length cap - pos a4)%nat
    with (List.length cap) by lia.
  rewrite Ew, firstn_app_exact, Ef.
  rewrite (app_assoc _ cap s'), firstn_app_exact.
  split; [reflexivity|]. split; [reflexivity|]. split; [reflexivity|].
  split; [reflexivity|]. split; [|split; [|split]].
  - exists va, sp1, vb, sp2. repeat split; auto.
    + intros ->. simpl in L1. lia.
    + intros ->. simpl in L2. lia.
  - intros ->. simpl in Hmin. lia.
  - exact Hw.
  - unfold nextIs. destruct s' as [|c s']; [exact I|].
    unfold except in Hs. apply negb_false_iff in Hs. exact Hs.
Qed.


Lemma journal_exec (p : regex) (text : jsstring) (m : MatchResult) :
  In p journalPatterns -> exec p text = Some m ->
  exists a b before lead cap after,
    In (a, b) journalPhrases
    /\ text = before ++ lead ++ cap ++ after
    /\ index m = List.length before /\ matched m = lead ++ cap
    /\ group 1 m = Some cap
    /\ isPhraseLead a b lead
    /\ cap <> [] /\ forallb (except (one 44)) cap = true
    /\ nextIs (one 44) after.
Proof.
  intros [<-|[<-|[<-|[]]]] E;
    destruct (phrase_exec _ _ _ _ E) as (before & lead & cap & after & H);
    [exists (js "published"), (js "in")
    |exists (js "journal"), (js "of")
    |exists (js "proceedings"), (js "of")];
    exists before, lead, cap, after; (split; [simpl; auto|exact H]).
Qed.

Lemma firstMatching_In (ps : list regex) (text : jsstring) (m : MatchResult) :
  firstMatching ps text = Some m -> exists p, In p ps /\ exec p text = Some m.
Proof.
  induction ps as [|p ps IH]; simpl; [discriminate|].
  destruct (exec p text) as [m'|] eqn:E.
  - intros [= <-]. exists p. auto.
  - intros H. destruct (IH H) as (q & Hq & Eq). exists q. auto.
Qed.

Lemma extractJournalFrom_firstMatching (ps : list regex) (text : jsstring) :
  extractJournalFrom ps text
  = match firstMatching ps text with
    | Some m => captured <- deref (group 1 m) ;; Ok (Some (trim captured))
    | None => Ok None
    end.
Proof.
  induction ps as [|p ps IH]; simpl; [reflexivity|].
  destruct (exec p text); [reflexivity|exact IH].
Qed.

(** The journal is the trimmed capture of the first pattern that
    matches; the capture stands behind the two words of the pattern, is
    not empty, holds no comma and ends at a comma or at the end of the
    text. *)
Lemma extractJournal_spec (text : jsstring) :
  match firstMatching journalPatterns text with
  | Some m =>
    exists a b before lead cap after,
      In (a, b) journalPhrases
      /\ text = before ++ lead ++ cap ++ after
      /\ isPhraseLead a b lead
      /\ group 1 m = Some cap
      /\ cap <> [] /\ forallb (except (one 44)) cap = true
      /\ nextIs (one 44) after
      /\ extractJournal text = Ok (Some (trim cap))
  | None => extractJournal text = Ok None
  end.
Proof.
  unfold extractJournal. rewrite extractJournalFrom_firstMatching.
  destruct (firstMatching journalPatterns text) as [m|] eqn:E; [|reflexivity].
  destruct (firstMatching_In _ _ _ E) as (p & Hp & Ep).
  destruct (journal_exec p text m Hp Ep)
    as (a & b & before & lead & cap & after
        & Hab & Et & _ & _ & G & Hl & Hne & Hc & Hn).
  exists a, b, before, lead, cap, after. rewrite G. auto 10.
Qed.

Lemma extractJournal_never_throws (text : jsstring) :
  exists r, extractJournal text = Ok r.
Proof.
  pose proof (extractJournal_spec text) as H.
  destruct (firstMatching journalPatterns text).
  - destruct H as (a & b & before & lead & cap & after
                   & _ & _ & _ & _ & _ & _ & _ & ->).
    eexists; reflexivity.
  - rewrite H. eexists; reflexivity.
Qed.

End JournalFacts.

(** ** The DOI *)

Module DoiFacts.

Import RegExpFacts JSFacts PatternFacts.

Local Arguments Nat.sub : simpl never.

(** On a label followed by a token, the label pattern matches the label
    and no more. *)
Lemma doiLabel_run (lab tok : jsstring) :
  isDoiLabel lab ->
  run doiLabelRe (MState 0 (lab ++ 49 :: tok) []) Some
  = Some (MState (List.length lab) (49 :: tok) []).
Proof.
  intros (d & sp1 & colon & sp2 & -> & Hd & H1 & Hc & H2).
  assert (Ld : List.length d = 3%nat)
    by (rewrite <- (length_map canonicalize), Hd; reflexivity).
  cbn [doiLabelRe seq fold_right run].
  rewrite <- !app_assoc.
  rewrite (run_litCI (js "doi") d) by exact Hd.
  cbn [star run pos rest caps].
  destruct Hc as [->| ->].
  - cbn [app]. rewrite app_assoc.
    apply rep_greedy_max.
    + unfold space. rewrite forallb_app, H1, H2. reflexivity.
    + lia.
    + reflexivity.
    + cbn. rewrite !length_app, Ld. reflexivity.
  - apply rep_greedy_max; [exact H1|lia|reflexivity|].
    cbn. rewrite rep_max0. cbn [pos rest caps].
    erewrite (rep_greedy_max _ _ _ (49 :: tok) _ sp2 0%nat);
      [reflexivity|exact H2|lia|reflexivity|].
    rewrite !length_app, Ld. cbn. rewrite Nat.add_succ_r. reflexivity.
Qed.

Lemma doiLabel_strip (lab tok : jsstring) :
  isDoiLabel lab ->
  removeFirst doiLabelRe (lab ++ 49 :: tok) = 49 :: tok.
Proof.
  intros H. unfold removeFirst, exec.
  assert (E : search doiLabelRe 0 (lab ++ 49 :: tok)
              = Some (0%nat, lab ++ 49 :: tok, MState (List.length lab) (49 :: tok) [])).
  { apply search_here, doiLabel_run, H. }
  rewrite E. cbn [index matched pos]. rewrite Nat.sub_0_r, firstn_app_exact.
  simpl. rewrite skipn_app, skipn_all, Nat.sub_diag. reflexivity.
Qed.

(** What [doiRe] matches is a label followed by a token. *)
Lemma doiRe_matches_inv (st st' : mstate) :
  matches doiRe st st' ->
  exists lab tok,
    rest st = lab ++ tok ++ rest st' /\ isDoiLabel lab /\ isDoiToken tok.
Proof.
  intros M.
  cbn [doiRe seq fold_right matches star opt plus] in M.
  destruct M as (s1 & M1 & s2 & (w1 & E1 & Hw1 & _)
                 & s3 & (w2 & E2 & Hw2 & _ & Hmax2 & _)
                 & s4 & (w3 & E3 & Hw3 & _)
                 & s5 & (c1 & E4 & Hc1 & _) & s6 & (c2 & E5 & Hc2 & _)
                 & s7 & (c3 & E6 & Hc3 & _)
                 & s8 & (w4 & E7 & Hw4 & Hmin4 & _)
                 & s9 & (c4 & E8 & Hc4 & _)
                 & s10 & (w5 & E9 & Hw5 & Hmin5 & _) & ->).
  apply matches_litCI in M1 as (v & E0 & Hv & _).
  apply Z.eqb_eq in Hc1, Hc2, Hc3, Hc4. subst c1 c2 c3 c4.
  exists (v ++ w1 ++ w2 ++ w3), (js "10." ++ w4 ++ js "/" ++ w5).
  split; [|split].
  - rewrite E0, E1, E2, E3, E4, E5, E6, E7, E8, E9.
    rewrite <- !app_assoc. reflexivity.
  - exists v, w1, w2, w3. repeat split; auto.
    apply one_forallb; assumption.
  - exists w4, w5. repeat split; auto.
    + intros ->. simpl in Hmin4. lia.
    + intros ->. simpl in Hmin5. lia.
Qed.

Lemma doiRe_matches_intro (lab tok s : jsstring) (n : nat) :
  isDoiLabel lab -> isDoiToken tok ->
  exists st', matches doiRe (MState n (lab ++ tok ++ s) []) st'.
Proof.
  intros (d & sp1 & colon & sp2 & -> & Hd & H1 & Hc & H2)
         (ds & tl & -> & Hds & Hds' & Htl & Htl').
  cbn [doiRe seq fold_right star opt plus].
  rewrite <- !app_assoc. cbn [js bytes_of utf16_of_utf8 app].
  eexists.
  eapply matches_Seq_intro; [apply matches_litCI_intro; exact Hd|].
  eapply matches_Seq_intro; [apply matches_Rep_intro; [exact H1|lia|exact I]|].
  eapply matches_Seq_intro.
  { apply matches_Rep_intro.
    - destruct Hc as [->| ->]; reflexivity.
    - lia.
    - destruct Hc as [->| ->]; simpl; lia. }
  eapply matches_Seq_intro; [apply matches_Rep_intro; [exact H2|lia|exact I]|].
  cbn [js bytes_of utf16_of_utf8 app].
  eapply matches_Seq_intro; [apply matches_Chr_intro; reflexivity|].
  eapply matches_Seq_intro; [apply matches_Chr_intro; reflexivity|].
  eapply matches_Seq_intro; [apply matches_Chr_intro; reflexivity|].
  eapply matches_Seq_intro.
  { apply matches_Rep_intro; [exact Hds'| |exact I].
    destruct ds; [congruence|simpl; lia]. }
  eapply matches_Seq_intro; [apply matches_Chr_intro; reflexivity|].
  eapply matches_Seq_intro.
  { apply matches_Rep_intro; [exact Htl'| |exact I].
    destruct tl; [congruence|simpl; lia]. }
  reflexivity.
Qed.

(** The match of [doiRe] that [exec] returns: the leftmost label and
    token, the token running on to white space or to the end. *)
Lemma doiRe_exec (text : jsstring) (m : MatchResult) :
  exec doiRe text = Some m ->
  exists before lab tok after,
    text = before ++ lab ++ tok ++ after
    /\ index m = List.length before /\ matched m = lab ++ tok
    /\ isDoiLabel lab /\ isDoiToken tok
    /\ nextIs isWhiteSpace after
    /\ forall b1 lab1 tok1 a1,
        text = b1 ++ lab1 ++ tok1 ++ a1 ->
        isDoiLabel lab1 -> isDoiToken tok1 ->
        (List.length before <= List.length b1)%nat.
Proof.
  intros E.
  destruct (exec_Some_run _ _ _ E) as (before & from & st & -> & R & -> & L).
  change doiRe with
    (seq ([litCI (js "doi"); star space; opt (one 58); star space;
           Chr (one 49); Chr (one 48); Chr (one 46); plus digit;
           Chr (one 47)] ++ [plus (except space)])) in R.
  apply run_seq_sound in R as (st1 & M1 & R).
  cbn [plus run] in R.
  apply rep_greedy_stop in R as (w & s' & Ew & Hw & Hmin & Hs & [= <-]);
    [|discriminate].
  (* the pattern as a whole, from its two parts *)
  assert (M : matches doiRe (MState (List.length before) from [])
                (MState (pos st1 + List.length w) s' (caps st1))).
  { change doiRe with
      (seq [litCI (js "doi"); star space; opt (one 58); star space;
            Chr (one 49); Chr (one 48); Chr (one 46); plus digit;
            Chr (one 47); plus (except space)]).
    cbn [seq fold_right matches] in M1 |- *.
    destruct M1 as (a1 & A1 & a2 & A2 & a3 & A3 & a4 & A4 & a5 & A5 & a6 & A6
                    & a7 & A7 & a8 & A8 & a9 & A9 & ->).
    exists a1. split; [exact A1|]. exists a2. split; [exact A2|].
    exists a3. split; [exact A3|]. exists a4. split; [exact A4|].
    exists a5. split; [exact A5|]. exists a6. split; [exact A6|].
    exists a7. split; [exact A7|]. exists a8. split; [exact A8|].
    exists a9. split; [exact A9|]. eexists. split; [|reflexivity].
    exists w. cbn. auto 10. }
  destruct (doiRe_matches_inv _ _ M) as (lab & tok & E1 & Hlab & Htok).
  cbn [rest] in E1. subst from.
  destruct (matches_consumes _ _ _ M) as (w0 & E0 & P0). cbn [rest pos] in E0, P0.
  assert (w0 = lab ++ tok) as ->.
  { rewrite app_assoc in E0. apply app_inv_tail in E0. auto. }
  exists before, lab, tok, s'. cbn [index matched pos].
  replace (pos st1 + List.length w - List.length before)%nat
    with (List.length (lab ++ tok)) by (rewrite P0; lia).
  rewrite (app_assoc lab tok s'), firstn_app_exact.
  repeat split; auto.
  - unfold nextIs. destruct s' as [|c s']; [exact I|].
    unfold except, space in Hs. apply negb_false_iff in Hs. exact Hs.
  - intros b1 lab1 tok1 a1 Et Hl1 Ht1.
    destruct (Nat.le_gt_cases (List.length before) (List.length b1)) as [Hle|Hgt];
      [exact Hle|exfalso].
    destruct (doiRe_matches_intro lab1 tok1 a1 (List.length b1) Hl1 Ht1)
      as (st' & M').
    apply (L b1 (lab1 ++ tok1 ++ a1) st'); [|exact Hgt|exact M'].
    rewrite <- Et, <- !app_assoc. reflexivity.
Qed.


(** The DOI returned is a bare token that stands in the text behind a
    label, at the leftmost such place, and runs on to white space or to
    the end of the text. *)
Theorem extractDOI_Some (text d : jsstring) :
  extractDOI text = Some d ->
  isDoiToken d
  /\ exists before lab after,
       text = before ++ lab ++ d ++ after /\ isDoiLabel lab
       /\ nextIs isWhiteSpace after
       /\ forall b1 lab1 tok1 a1,
           text = b1 ++ lab1 ++ tok1 ++ a1 ->
           isDoiLabel lab1 -> isDoiToken tok1 ->
           (List.length before <= List.length b1)%nat.
Proof.
  unfold extractDOI. intros H.
  destruct (exec doiRe text) as [m|] eqn:E; [|discriminate].
  injection H as <-.
  destruct (doiRe_exec _ _ E)
    as (before & lab & tok & after & -> & _ & -> & Hlab & Htok & Hn & L).
  assert (Hd : removeFirst doiLabelRe (lab ++ tok) = tok).
  { destruct Htok as (ds & tl & -> & _). apply doiLabel_strip, Hlab. }
  rewrite Hd. split; [exact Htok|].
  exists before, lab, after. auto.
Qed.

(** A DOI is returned exactly when a label followed by a token stands
    somewhere in the text. *)
Theorem extractDOI_None_iff (text : jsstring) :
  extractDOI text = None
  <-> ~ exists pre lab tok post,
        text = pre ++ lab ++ tok ++ post /\ isDoiLabel lab /\ isDoiToken tok.
Proof.
  unfold extractDOI. split.
  - intros H (pre & lab & tok & post & -> & Hlab & Htok).
    destruct (exec doiRe _) eqn:E; [discriminate|].
    apply exec_None_iff in E. apply E.
    destruct (doiRe_matches_intro lab tok post (List.length pre) Hlab Htok)
      as (st' & M).
    exists pre, (lab ++ tok ++ post), st'. auto.
  - intros H. destruct (exec doiRe text) as [m|] eqn:E; [|reflexivity].
    exfalso. apply H.
    destruct (exec_Some_inv _ _ _ E)
      as (before & w & after & st & -> & _ & _ & _ & M & Hr & _).
    destruct (doiRe_matches_inv _ _ M) as (lab & tok & E1 & Hlab & Htok).
    cbn [rest] in E1. rewrite Hr, !app_assoc in E1.
    apply app_inv_tail in E1. subst w.
    exists before, lab, tok, after. rewrite <- app_assoc. auto.
Qed.

Lemma doi_not_before (b1 u tail : jsstring) (n : nat) (st1 : mstate) :
  u <> [] ->
  includes (map canonicalize (b1 ++ u)) (js "DOI") = false ->
  ~ matches doiRe (MState n (u ++ js "DOI: 10.1000/xyz123" ++ tail) []) st1.
Proof.
  intros Hu Hinc M.
  cbn [doiRe seq fold_right matches] in M.
  destruct M as (st2 & M & _).
  apply matches_litCI in M as (v & E & Hv & _). cbn in E, Hv.
  destruct v as [|v0 [|v1 [|v2 [|]]]]; try discriminate.
  injection Hv as H0 H1 H2.
  destruct u as [|u0 u]; [congruence|].
  do 2 (destruct u as [|? u];
        [cbn in E; injection E; intros; subst; discriminate|]).
  cbn in E. injection E as -> -> -> _.
  rewrite map_app, includes_app_r in Hinc; [discriminate|].
  cbn. rewrite H0, H1, H2. reflexivity.
Qed.

Lemma doi_at (n : nat) (post : jsstring) :
  match post with [] => True | c :: _ => isWhiteSpace c = true end ->
  run doiRe (MState n (js "DOI: 10.1000/xyz123" ++ post) []) Some
  = Some (MState (19 + n) post []).
Proof.
  intros Hpost. destruct post as [|c post]; [reflexivity|].
  cbn. unfold except at 1, space at 1. rewrite Hpost. reflexivity.
Qed.

Lemma exec_doi (pre post : jsstring) :
  includes (map canonicalize pre) (js "DOI") = false ->
  match post with [] => True | c :: _ => isWhiteSpace c = true end ->
  exec doiRe (pre ++ js "DOI: 10.1000/xyz123" ++ post)
  = Some (MkMatch (List.length pre) (js "DOI: 10.1000/xyz123") []).
Proof.
  intros Hpre Hpost.
  rewrite (exec_first doiRe pre (js "DOI: 10.1000/xyz123" ++ post) _)
    with (2 := doi_at _ _ Hpost).
  - cbn [pos caps Nat.add]. simp_sub. reflexivity.
  - intros b1 f1 st1 E Hlt.
    destruct (app_split_lt _ _ _ _ E Hlt) as (u & Hu & -> & ->).
    apply (doi_not_before b1); assumption.
Qed.

End DoiFacts.

(** ** The abstract *)

Module AbstractFacts.

Import RegExpFacts JSFacts PatternFacts.

(** A match of [abstractRe] has its group 1: the text between the
    marker and the place where the lookahead holds. *)
Lemma abstractRe_group (text : jsstring) (m : MatchResult) :
  exec abstractRe text = Some m ->
  exists before marker cap after,
    text = before ++ marker ++ cap ++ after
    /\ matched m = marker ++ cap
    /\ group 1 m = Some cap.
Proof.
  intros E.
  destruct (exec_Some_inv _ _ _ E)
    as (before & w & after & st & -> & _ & Hm & Hg & M & Hr & _).
  cbn [abstractRe seq fold_right matches star opt lazyStar] in M.
  destruct M as (s1 & M1 & s2 & (w1 & E1 & _ & _ & _ & P1 & C1)
                 & s3 & (w2 & E2 & _ & _ & _ & P2 & C2)
                 & s4 & (w3 & E3 & _ & _ & _ & P3 & C3)
                 & s5 & (s5' & (w4 & E4 & _ & _ & _ & P4 & C4) & ->)
                 & s6 & (s6' & MA & ->) & ->).
  apply matches_litCI in M1 as (v & E0 & _ & P0 & C0).
  cbn [pos rest caps] in *.
  apply matches_caps in MA; [|reflexivity]. cbn [caps] in MA.
  exists before, (v ++ w1 ++ w2 ++ w3), w4, after.
  assert (Ew : w ++ after = (v ++ w1 ++ w2 ++ w3) ++ w4 ++ after).
  { rewrite E0, E1, E2, E3, E4, Hr, <- !app_assoc. reflexivity. }
  assert (Ew' : w = (v ++ w1 ++ w2 ++ w3) ++ w4).
  { rewrite !app_assoc in Ew. apply app_inv_tail in Ew. rewrite Ew, !app_assoc. reflexivity. }
  split; [|split].
  - rewrite Ew', <- !app_assoc. reflexivity.
  - rewrite Hm. exact Ew'.
  - unfold group. rewrite Hg, MA. cbn [lookup Nat.eqb].
    rewrite P4, Nat.add_comm, Nat.add_sub, E4, firstn_app_exact. reflexivity.
Qed.

Lemma extractAbstract_spec (text : jsstring) :
  extractAbstract text
  = match exec abstractRe text with
    | Some m =>
      match group 1 m with
      | Some cap => Ok (Some (firstn 1000 (trim cap)))
      | None => Throw TypeError
      end
    | None => Ok None
    end.
Proof.
  unfold extractAbstract. destruct (exec abstractRe text) as [m|]; [|reflexivity].
  destruct (group 1 m); simpl; [rewrite substring_0|]; reflexivity.
Qed.

Lemma firstn_head_trimStart (n : nat) (s : jsstring) :
  trimStart s = s -> trimStart (firstn n s) = firstn n s.
Proof.
  intros H. destruct n; [reflexivity|]. destruct s as [|c s]; [reflexivity|].
  simpl in *. destruct (isWhiteSpace c) eqn:E; [|reflexivity].
  exfalso. pose proof (trimStart_suffix s) as (w & Hw & _).
  apply (f_equal (@List.length _)) in H. rewrite Hw in H at 2.
  simpl in H. rewrite length_app in H. lia.
Qed.

Lemma trimStart_trim (s : jsstring) : trimStart (trim s) = trim s.
Proof. apply trimStart_trimEnd. Qed.

(** What is returned is the capture, trimmed and then cut. *)
Lemma extractAbstract_Some (text a : jsstring) :
  extractAbstract text = Ok (Some a) ->
  exists m cap,
    exec abstractRe text = Some m /\ group 1 m = Some cap
    /\ a = firstn 1000 (trim cap)
    /\ (List.length a <= 1000)%nat
    /\ trimStart a = a
    /\ ((List.length (trim cap) <= 1000)%nat -> trim a = a).
Proof.
  rewrite extractAbstract_spec. intros H.
  destruct (exec abstractRe text) as [m|] eqn:E; [|discriminate].
  destruct (group 1 m) as [cap|] eqn:G; [|discriminate].
  assert (Ha : a = firstn 1000 (trim cap)) by congruence.
  exists m, cap.
  split; [reflexivity|]. split; [exact G|]. split; [exact Ha|].
  rewrite Ha. split; [|split].
  - apply firstn_le_length.
  - apply firstn_head_trimStart, trimStart_trim.
  - intros L. rewrite firstn_all2 by exact L. apply trim_idem.
Qed.

Lemma extractAbstract_never_throws (text : jsstring) :
  exists r, extractAbstract text = Ok r.
Proof.
  rewrite extractAbstract_spec.
  destruct (exec abstractRe text) as [m|] eqn:E; [|eexists; reflexivity].
  destruct (abstractRe_group _ _ E) as (b & mk & cap & af & _ & _ & ->).
  eexists; reflexivity.
Qed.

End AbstractFacts.

(** ** The assembled value *)

Module AssembleFacts.

Import AbstractFacts JournalFacts.

(** No extractor throws: the [try] block always reaches its [return]. *)
Theorem assemble_never_throws (text : jsstring) :
  exists abstract journal,
    extractAbstract text = Ok abstract
    /\ extractJournal text = Ok journal
    /\ assemble text
       = Ok (MkBasicInfo (stringOr (extractTitle text) unknownTitle)
               (extractAuthors text) abstract (extractDOI text)
               (extractPublicationDate text) journal).
Proof.
  destruct (extractAbstract_never_throws text) as (a & Ha).
  destruct (extractJournal_never_throws text) as (j & Hj).
  exists a, j. unfold assemble. rewrite Ha, Hj. auto.
Qed.

End AssembleFacts.

(** ** The extractors on sample texts *)

Module Examples.

Example js_code_units :
  js "年" = [0x5E74] /\ js "月" = [0x6708]
  /\ unknownTitle = [0x30BF; 0x30A4; 0x30C8; 0x30EB; 0x4E0D; 0x660E].
Proof. repeat split. Qed.

Example parseInt_samples :
  parseInt (Some (js "2023")) = Some 2023
  /\ parseInt (Some (js "05")) = Some 5
  /\ parseInt (Some (js "  -12px")) = Some (-12)
  /\ parseInt (Some (js "0x1F")) = Some 31
  /\ parseInt (Some (js "")) = NaN
  /\ parseInt None = NaN.
Proof. repeat split. Qed.

Example split_samples :
  split (js "") LF = [js ""]
  /\ split (js "a" ++ [LF] ++ js "b") LF = [js "a"; js "b"]
  /\ split (js "a" ++ [LF]) LF = [js "a"; js ""].
Proof. repeat split. Qed.

Example title_of_first_line :
  extractTitle
    (js "Attention Is All You Need" ++ [LF] ++ js "Ashish Vaswani" ++ [LF]
       ++ js "Abstract")
  = Some (js "Attention Is All You Need").
Proof. vm_compute. reflexivity. Qed.

Example title_after_rejected_lines :
  extractTitle
    (js "PROCEEDINGS OF THE WORKSHOP" ++ [LF]
       ++ js "1. Introduction to the field" ++ [LF]
       ++ js "Abstract of the talk given" ++ [LF]
       ++ js "Short one" ++ [LF]
       ++ js "  A Survey of Verified Parsers  ")
  = Some (js "A Survey of Verified Parsers").
Proof. vm_compute. reflexivity. Qed.

Example title_needs_the_space_character :
  extractTitle (js "Deep" ++ [0x09] ++ js "Learning" ++ [0x09] ++ js "Today")
  = None.
Proof. vm_compute. reflexivity. Qed.

Example authors_in_order :
  extractAuthors
    (js "Attention Is All You Need" ++ [LF] ++ js "Ashish Vaswani" ++ [LF]
       ++ js "Noam Shazeer, Google" ++ [LF] ++ js "Abstract Nonsense")
  = [js "Attention Is All You Need"; js "Ashish Vaswani";
     js "Noam Shazeer, Google"].
Proof. vm_compute. reflexivity. Qed.

Example abstract_to_keywords :
  extractAbstract
    (js "ABSTRACT" ++ [LF] ++ js "We study parsers." ++ [LF]
       ++ js "Keywords: parsing")
  = Ok (Some (js "We study parsers.")).
Proof. vm_compute. reflexivity. Qed.

Example doi_of_the_label_alone :
  extractDOI (js "DOI: 10.1000/xyz123") = Some (js "10.1000/xyz123")
  /\ extractDOI (js "doi10.1000/xyz123") = Some (js "10.1000/xyz123")
  /\ extractDOI (js "https://doi.org/10.1000/xyz123") = None.
Proof. repeat split; vm_compute; reflexivity. Qed.

Example date_in_either_order :
  extractPublicationDate (js "2023年5月 2023-06-07")
  = Some (NewDate (Some 2023) 4 1)
  /\ extractPublicationDate (js "2023-06-07 2023年5月")
     = Some (NewDate (Some 2023) 4 1)
  /\ extractPublicationDate (js "2023-06-07")
     = Some (NewDate (Some 2023) 5 7)
  /\ extractPublicationDate (js "2023 06 07")
     = Some (NewDate (Some 2023) 5 7)
  /\ extractPublicationDate (js "2023-00-07")
     = Some (NewDate (Some 2023) 0 7).
Proof. repeat split; vm_compute; reflexivity. Qed.

Example journal_in_either_order :
  extractJournal
    (js "Journal of Computing, 2020" ++ [LF] ++ js "Published in XYZ Magazine")
  = Ok (Some (js "XYZ Magazine"))
  /\ extractJournal
       (js "Published in XYZ Magazine, Journal of Computing, 2020")
     = Ok (Some (js "XYZ Magazine"))
  /\ extractJournal (js "Journal of Computing, 2020")
     = Ok (Some (js "Computing")).
Proof. repeat split; vm_compute; reflexivity. Qed.

End Examples.

(* ================================================================== *)
(** * Part III: the properties of the specification                    *)
(* ================================================================== *)

Import RegExpFacts JSFacts ScanFacts PatternFacts DateFacts JournalFacts
  DoiFacts AbstractFacts AssembleFacts.

(** C1.  Whatever the PDF-to-text step yields, [extractBasicInfo]
    resolves to a value whose title is a non-empty string: either the
    sentinel, or the line that [extractTitle] selected from the text.
    No extractor throws, so when the text was obtained the title is the
    selected line whenever there is one. *)
Theorem extractBasicInfo_title (Buffer : Type) (pdf : Buffer -> Exc jsstring)
    (pdfBuffer : Buffer) :
  exists info,
    extractBasicInfo pdf pdfBuffer = Ok info
    /\ title info <> []
    /\ (title info = unknownTitle
        \/ exists text,
             pdf pdfBuffer = Ok text /\ extractTitle text = Some (title info))
    /\ (forall text,
          pdf pdfBuffer = Ok text ->
          title info = stringOr (extractTitle text) unknownTitle
          /\ authors info = extractAuthors text).
Proof.
  unfold extractBasicInfo.
  destruct (pdf pdfBuffer) as [text|e] eqn:Hpdf; simpl.
  - destruct (assemble_never_throws text) as (a & j & _ & _ & ->).
    eexists. split; [reflexivity|]. simpl.
    split; [|split].
    + destruct (extractTitle text) as [[|c t]|]; discriminate.
    + destruct (extractTitle text) as [[|c t]|] eqn:E; simpl.
      * left; reflexivity.
      * right. exists text. split; [reflexivity|exact E].
      * left; reflexivity.
    + intros text' [= <-]. split; reflexivity.
  - exists degraded. split; [reflexivity|].
    split; [discriminate|]. split; [left; reflexivity|].
    intros text' H. discriminate.
Qed.

Lemma extractBasicInfo_title_witness :
  let pdf := fun _ : list Z =>
    Ok (js "Attention Is All You Need" ++ [LF] ++ js "Ashish Vaswani") in
  exists info,
    extractBasicInfo pdf [37; 80; 68; 70] = Ok info
    /\ title info = js "Attention Is All You Need".
Proof.
  intros pdf.
  destruct (extractBasicInfo_title (list Z) pdf [37; 80; 68; 70])
    as (info & E & _ & _ & H).
  exists info. split; [exact E|].
  exact (proj1 (H _ eq_refl)).
Defined.

(** C2.  When the PDF-to-text step fails, [extractBasicInfo] does not
    throw: it returns the degraded value, with the sentinel title, no
    authors and every optional field absent. *)
Theorem extractBasicInfo_upstream_failure (Buffer : Type)
    (pdf : Buffer -> Exc jsstring) (pdfBuffer : Buffer) (e : JSError) :
  pdf pdfBuffer = Throw e ->
  extractBasicInfo pdf pdfBuffer
  = Ok (MkBasicInfo unknownTitle [] None None None None).
Proof. intros H. unfold extractBasicInfo. rewrite H. reflexivity. Qed.

Lemma extractBasicInfo_upstream_failure_witness :
  (fun _ : list Z => @Throw jsstring Rejected) [37; 80; 68; 70] = Throw Rejected
  /\ extractBasicInfo (fun _ : list Z => Throw Rejected) [37; 80; 68; 70]
     = Ok (MkBasicInfo unknownTitle [] None None None None).
Proof.
  split; [reflexivity|].
  apply (extractBasicInfo_upstream_failure (list Z) _ _ Rejected).
  reflexivity.
Defined.

(** C3.  [extractAuthors] returns the lines that pass [authorRule] among
    the first 20 normalized lines, in the order met, cut to the first 5:
    at most 5 entries, and none when no line passes. *)
Theorem extractAuthors_capped (text : jsstring) :
  extractAuthors text = firstn 5 (filter authorRule (normalizedLines text 20))
  /\ (List.length (extractAuthors text) <= 5)%nat
  /\ (List.length (normalizedLines text 20) <= 20)%nat
  /\ (filter authorRule (normalizedLines text 20) = [] ->
      extractAuthors text = []).
Proof.
  rewrite extractAuthors_filter. repeat split.
  - apply firstn_le_length.
  - unfold normalizedLines, lines. rewrite length_map, slice_0.
    apply firstn_le_length.
  - intros ->. reflexivity.
Qed.

Lemma extractAuthors_capped_witness :
  filter authorRule (normalizedLines (js "1. Introduction") 20) = []
  /\ extractAuthors (js "1. Introduction") = [].
Proof.
  split; [reflexivity|].
  apply (proj2 (proj2 (proj2 (extractAuthors_capped (js "1. Introduction"))))).
  reflexivity.
Defined.

(** C4, as stated, fails: a text may contain both dates and an earlier
    date in the first notation, and that one is returned. *)
Lemma extractPublicationDate_earlier_date :
  let text := js "2020年1月 2023年5月 2023-06-07" in
  includes text (js "2023年5月") = true
  /\ includes text (js "2023-06-07") = true
  /\ extractPublicationDate text = Some (NewDate (Some 2020) 0 1)
  /\ extractPublicationDate text <> Some (NewDate (Some 2023) 4 1).
Proof.
  cbv zeta. repeat split; try (vm_compute; reflexivity).
  intros H. vm_compute in H. discriminate H.
Qed.

(** C4, amended.  The date patterns are tried in the order of
    [datePatterns] and the first that matches somewhere in the text gives
    the date, from its leftmost match; a month or day whose group is
    unmatched is 1.  A text that contains [2023年5月] with no [年] before
    it is resolved by the first pattern to year 2023, month 5 (index 4),
    day 1, whatever other dates (such as [2023-06-07]) it contains. *)
Theorem extractPublicationDate_priority (pre post : jsstring) :
  includes pre (js "年") = false ->
  let text := pre ++ js "2023年5月" ++ post in
  extractPublicationDate text = Some (NewDate (Some 2023) 4 1)
  /\ (exists m,
        exec yearMonthRe text = Some m
        /\ group 3 m = None
        /\ extractPublicationDate text = Some (dateOfMatch m))
  /\ (forall t,
        extractPublicationDate t
        = option_map dateOfMatch (firstMatching datePatterns t))
  /\ (forall t m,
        exec yearMonthRe t = Some m ->
        extractPublicationDate t = Some (dateOfMatch m)
        /\ dateDay (dateOfMatch m) = 1)
  /\ (forall m, group 2 m = None -> dateMonthIndex (dateOfMatch m) = 0)
  /\ (forall m, group 3 m = None -> dateDay (dateOfMatch m) = 1).
Proof.
  intros H text. apply includes_In in H.
  assert (E : exec yearMonthRe text = Some _) by exact (exec_yearMonth pre post H).
  assert (D : extractPublicationDate text = Some (NewDate (Some 2023) 4 1)).
  { rewrite extractPublicationDate_firstMatching.
    unfold datePatterns. cbn [firstMatching].
    change (seq _) with yearMonthRe at 1. rewrite E. reflexivity. }
  split; [exact D|]. split; [|split; [|split; [|split]]].
  - eexists. split; [exact E|]. split; [reflexivity|exact D].
  - apply extractPublicationDate_firstMatching.
  - apply yearMonth_first.
  - intros m Hm. unfold dateOfMatch. rewrite Hm. reflexivity.
  - intros m Hm. unfold dateOfMatch. rewrite Hm. reflexivity.
Qed.

Lemma extractPublicationDate_priority_witness :
  includes (js "Received 2023-06-07; issue of ") (js "年") = false
  /\ extractPublicationDate
       (js "Received 2023-06-07; issue of " ++ js "2023年5月" ++ js ".")
     = Some (NewDate (Some 2023) 4 1).
Proof.
  split; [reflexivity|].
  apply (extractPublicationDate_priority
           (js "Received 2023-06-07; issue of ") (js ".")).
  reflexivity.
Defined.

(** C5, as stated, fails: the capture of [published in X] runs to the
    next comma, here across the full stop and the second phrase. *)
Lemma extractJournal_runs_to_comma :
  let text := js "Published in XYZ Magazine. Journal of Computing, 2020" in
  includes text (js "Journal of Computing, 2020") = true
  /\ includes text (js "Published in XYZ Magazine") = true
  /\ extractJournal text
     = Ok (Some (js "XYZ Magazine. Journal of Computing"))
  /\ extractJournal text <> Ok (Some (js "XYZ Magazine")).
Proof.
  cbv zeta. repeat split; try (vm_compute; reflexivity).
  intros H. vm_compute in H. discriminate H.
Qed.

(** C5, amended.  The journal is the trimmed capture of the first of
    [journalPatterns], in the order of the list, that matches somewhere
    in the text; the capture follows the two words of the pattern and
    runs to the next comma or to the end of the text.  A text that
    contains [Published in XYZ Magazine], with no [published] in any case
    before it and nothing but white space between it and the next comma
    or the end of the text, yields the journal [XYZ Magazine] through the
    first pattern, wherever [Journal of Computing, 2020] stands in it. *)
Theorem extractJournal_priority (pre sp post : jsstring) :
  includes (map canonicalize pre) (js "PUBLISHED") = false ->
  forallb isWhiteSpace sp = true ->
  (post = [] \/ exists post', post = js "," ++ post') ->
  let text := pre ++ js "Published in XYZ Magazine" ++ sp ++ post in
  extractJournal text = Ok (Some (js "XYZ Magazine"))
  /\ (exists m,
        firstMatching journalPatterns text = Some m
        /\ exec publishedInRe text = Some m
        /\ group 1 m = Some (js "XYZ Magazine" ++ sp))
  /\ (forall t,
        match firstMatching journalPatterns t with
        | Some m =>
          exists a b before lead cap after,
            In (a, b) journalPhrases
            /\ t = before ++ lead ++ cap ++ after
            /\ isPhraseLead a b lead
            /\ group 1 m = Some cap
            /\ cap <> [] /\ forallb (except (one 44)) cap = true
            /\ nextIs (one 44) after
            /\ extractJournal t = Ok (Some (trim cap))
        | None => extractJournal t = Ok None
        end).
Proof.
  intros Hpre Hsp Hpost text.
  assert (Hc : match post with [] => True | c :: _ => c = 44 end)
    by (destruct Hpost as [->|(post' & ->)]; [exact I|reflexivity]).
  pose proof (exec_publishedIn pre sp post Hpre Hsp Hc) as E.
  fold text in E. split.
  - unfold extractJournal, journalPatterns. cbn [extractJournalFrom].
    change (seq _) with publishedInRe at 1. rewrite E.
    cbn [group groups lookup Nat.eqb deref bind].
    rewrite trim_XYZ by exact Hsp. reflexivity.
  - split; [|apply extractJournal_spec].
    eexists. split; [|split; [exact E|reflexivity]].
    unfold journalPatterns. cbn [firstMatching].
    change (seq _) with publishedInRe at 1. rewrite E. reflexivity.
Qed.

Lemma extractJournal_priority_witness :
  includes (map canonicalize (js "Journal of Computing, 2020; "))
    (js "PUBLISHED") = false
  /\ forallb isWhiteSpace (js " ") = true
  /\ extractJournal
       (js "Journal of Computing, 2020; " ++ js "Published in XYZ Magazine"
          ++ js " " ++ js ", vol. 3")
     = Ok (Some (js "XYZ Magazine")).
Proof.
  split; [reflexivity|]. split; [reflexivity|].
  apply (extractJournal_priority (js "Journal of Computing, 2020; ") (js " ")
           (js ", vol. 3")).
  - reflexivity.
  - reflexivity.
  - right. exists (js " vol. 3"). reflexivity.
Defined.

(** C6, as stated, fails: the token runs on over every character that is
    not white space, here the full stop that ends the sentence. *)
Lemma extractDOI_runs_to_space :
  let text := js "DOI: 10.1000/xyz123." in
  includes text (js "DOI: 10.1000/xyz123") = true
  /\ extractDOI text = Some (js "10.1000/xyz123.")
  /\ extractDOI text <> Some (js "10.1000/xyz123").
Proof.
  cbv zeta. repeat split; try (vm_compute; reflexivity).
  intros H. vm_compute in H. discriminate H.
Qed.

(** C6, amended.  [extractDOI] returns a DOI exactly when the text
    contains a label (the letters [doi] in any case, white space, a colon
    or none, white space) followed by a DOI-shaped token, and what it
    returns is such a token alone, the label stripped: the one at the
    leftmost such place, running on to the next white space or to the
    end of the text.  A text that contains [DOI: 10.1000/xyz123] followed
    by white space or by the end of the text, with no [doi] in any case
    before it, yields [10.1000/xyz123]. *)
Theorem extractDOI_bare_token (pre post : jsstring) :
  includes (map canonicalize pre) (js "DOI") = false ->
  (post = [] \/ exists c post', post = c :: post' /\ isWhiteSpace c = true) ->
  extractDOI (pre ++ js "DOI: 10.1000/xyz123" ++ post)
  = Some (js "10.1000/xyz123")
  /\ (forall text d,
        extractDOI text = Some d ->
        isDoiToken d
        /\ exists before lab after,
             text = before ++ lab ++ d ++ after /\ isDoiLabel lab
             /\ nextIs isWhiteSpace after
             /\ forall b1 lab1 tok1 a1,
                 text = b1 ++ lab1 ++ tok1 ++ a1 ->
                 isDoiLabel lab1 -> isDoiToken tok1 ->
                 (List.length before <= List.length b1)%nat)
  /\ (forall text,
        extractDOI text = None
        <-> ~ exists before lab tok after,
              text = before ++ lab ++ tok ++ after
              /\ isDoiLabel lab /\ isDoiToken tok).
Proof.
  intros Hpre Hpost. split; [|split].
  - unfold extractDOI. rewrite exec_doi; [reflexivity|exact Hpre|].
    destruct Hpost as [->|(c & post' & -> & H)]; [exact I|exact H].
  - apply extractDOI_Some.
  - apply extractDOI_None_iff.
Qed.

Lemma extractDOI_bare_token_witness :
  includes (map canonicalize (js "Nature 2020, ")) (js "DOI") = false
  /\ extractDOI (js "Nature 2020, " ++ js "DOI: 10.1000/xyz123"
                   ++ js " (open access)")
     = Some (js "10.1000/xyz123").
Proof.
  split; [reflexivity|].
  apply (extractDOI_bare_token (js "Nature 2020, ") (js " (open access)")).
  - reflexivity.
  - right. exists 32, (js "(open access)"). split; reflexivity.
Defined.

(** C7.  [extractTitle] returns the first of the first 10 normalized
    lines that passes [titleRule] (length, no numbering, no section
    keyword, not upper case, a space); a line that consists only of
    upper-case letters is matched by [/^[A-Z\s]+$/], fails the rule and
    is never the title returned, whatever its length. *)
Theorem extractTitle_never_uppercase (text l : jsstring) :
  forallb isUpperLetter l = true ->
  extractTitle text = find titleRule (normalizedLines text 10)
  /\ (l <> [] -> isUppercase l = true)
  /\ titleRule l = false
  /\ extractTitle text <> Some l.
Proof.
  intros H.
  assert (Hr : titleRule l = false)
    by (apply titleRule_uppercase, upper_letters_only, H).
  split; [apply extractTitle_find|]. split; [|split; [exact Hr|]].
  - intros Hne. apply upperRe_matches; [exact Hne|].
    apply upper_letters_only, H.
  - intros E. apply extractTitle_Some in E as [_ E]. congruence.
Qed.

Lemma extractTitle_never_uppercase_witness :
  forallb isUpperLetter (js "INTRODUCTION") = true
  /\ extractTitle (js "INTRODUCTION") <> Some (js "INTRODUCTION").
Proof.
  split; [reflexivity|].
  apply (extractTitle_never_uppercase (js "INTRODUCTION") (js "INTRODUCTION")).
  reflexivity.
Defined.

(** The same holds when the upper-case words are separated by white
    space, as in a heading of several words. *)
Lemma uppercase_words_never_title (text l : jsstring) :
  forallb (union (range 65 90) space) l = true ->
  extractTitle text <> Some l.
Proof.
  intros H E. apply extractTitle_Some in E as [_ E].
  rewrite (titleRule_uppercase l H) in E. discriminate.
Qed.

(** C8, as stated, fails: the capture is trimmed before it is cut, so a
    cut that falls behind a space leaves that space at the end. *)
Lemma extractAbstract_cut_after_space :
  let text := js "abstract:" ++ repeat 97 999 ++ js " bintroduction" in
  extractAbstract text = Ok (Some (repeat 97 999 ++ js " "))
  /\ trim (repeat 97 999 ++ js " ") <> repeat 97 999 ++ js " ".
Proof.
  split.
  - vm_compute. reflexivity.
  - intros H. apply (f_equal (@List.length _)) in H. vm_compute in H.
    discriminate.
Qed.

(** C8, amended.  [extractAbstract] never throws.  When the pattern
    matches, the abstract returned is the capture, trimmed and then cut
    to its first 1000 characters: at most 1000 long, without leading
    white space, and without trailing white space when nothing was cut.
    When the pattern does not match, no abstract is returned. *)
Theorem extractAbstract_trim_then_cut (text : jsstring) :
  (exists r, extractAbstract text = Ok r)
  /\ (forall a,
        extractAbstract text = Ok (Some a) ->
        exists m cap,
          exec abstractRe text = Some m /\ group 1 m = Some cap
          /\ a = firstn 1000 (trim cap)
          /\ (List.length a <= 1000)%nat
          /\ trimStart a = a
          /\ ((List.length (trim cap) <= 1000)%nat -> trim a = a))
  /\ (exec abstractRe text = None <-> extractAbstract text = Ok None).
Proof.
  split; [apply extractAbstract_never_throws|].
  split; [apply extractAbstract_Some|].
  rewrite extractAbstract_spec.
  destruct (exec abstractRe text) as [m|] eqn:E.
  - destruct (abstractRe_group _ _ E) as (b & mk & cap & af & _ & _ & ->).
    split; discriminate.
  - split; reflexivity.
Qed.

Lemma extractAbstract_trim_then_cut_witness :
  let text := js "Abstract: We propose a model. 1. Introduction" in
  extractAbstract text = Ok (Some (js "We propose a model."))
  /\ exists m cap,
       exec abstractRe text = Some m /\ group 1 m = Some cap
       /\ js "We propose a model." = firstn 1000 (trim cap)
       /\ (List.length (js "We propose a model.") <= 1000)%nat
       /\ trimStart (js "We propose a model.") = js "We propose a model."
       /\ ((List.length (trim cap) <= 1000)%nat ->
           trim (js "We propose a model.") = js "We propose a model.").
Proof.
  intros text. split; [reflexivity|].
  apply (proj1 (proj2 (extractAbstract_trim_then_cut text))).
  reflexivity.
Defined.

(** C9.  On the empty text [extractBasicInfo] does not throw and returns
    the sentinel title, no authors and no optional field. *)
Theorem extractBasicInfo_empty_text (Buffer : Type)
    (pdf : Buffer -> Exc jsstring) (pdfBuffer : Buffer) :
  pdf pdfBuffer = Ok (js "") ->
  extractBasicInfo pdf pdfBuffer
  = Ok (MkBasicInfo unknownTitle [] None None None None).
Proof. intros H. unfold extractBasicInfo. rewrite H. reflexivity. Qed.

Lemma extractBasicInfo_empty_text_witness :
  (fun _ : list Z => Ok (js "")) [37; 80; 68; 70] = Ok (js "")
  /\ extractBasicInfo (fun _ : list Z => Ok (js "")) [37; 80; 68; 70]
     = Ok (MkBasicInfo unknownTitle [] None None None None).
Proof.
  split; [reflexivity|].
  apply (extractBasicInfo_empty_text (list Z)). reflexivity.
Defined.

(** C10, as stated, fails: the empty text is split into one line, the
    empty string, not into zero lines. *)
Lemma normalizedLines_empty_not_nil :
  normalizedLines (js "") 10 = [js ""]
  /\ normalizedLines (js "") 20 = [js ""]
  /\ List.length (normalizedLines (js "") 10) <> 0%nat
  /\ List.length (normalizedLines (js "") 20) <> 0%nat.
Proof. repeat split; discriminate. Qed.

(** C10, amended.  Splitting into lines is a total function; a scanner
    that asks for [count > 0] lines gets at least one and at most
    [count]; on the empty text it gets exactly one, the empty string,
    which neither scanner accepts. *)
Theorem normalizedLines_empty (count : nat) :
  (0 < count)%nat ->
  normalizedLines (js "") count = [js ""]
  /\ (forall text,
         (1 <= List.length (normalizedLines text count) <= count)%nat)
  /\ extractTitle (js "") = None
  /\ extractAuthors (js "") = [].
Proof.
  intros H. repeat split.
  - destruct count; [lia|].
    unfold normalizedLines, lines, slice. simpl. rewrite firstn_nil.
    reflexivity.
  - pose proof (lines_not_nil text count H) as Hn.
    unfold normalizedLines. rewrite length_map.
    destruct (lines text count); [congruence|simpl; lia].
  - unfold normalizedLines, lines. rewrite length_map, slice_0.
    apply firstn_le_length.
Qed.

Lemma normalizedLines_empty_witness :
  (0 < 10)%nat /\ normalizedLines (js "") 10 = [js ""].
Proof.
  split; [lia|]. apply (normalizedLines_empty 10). lia.
Defined.

(* ================================================================== *)
(** * Part IV: further properties of the extractors                    *)
(* ================================================================== *)

Import RuleFacts.

Module ShapeFacts.

Lemma split_cons (c : cu) (s : jsstring) (sep : cu) :
  split (c :: s) sep
  = if c =? sep then [] :: split s sep
    else match split s sep with
         | piece :: pieces => (c :: piece) :: pieces
         | [] => [[c]]
         end.
Proof. reflexivity. Qed.

(** The first [n] pieces of a text with at least [n] separators do not
    depend on what follows the text. *)
Lemma split_app_firstn (rest : jsstring) (text : jsstring) :
  forall n,
    (n <= countLF text)%nat ->
    firstn n (split (text ++ rest) LF) = firstn n (split text LF).
Proof.
  unfold countLF.
  induction text as [|c text IH]; intros n H.
  - simpl in H. assert (n = 0)%nat as -> by lia. reflexivity.
  - destruct n as [|n]; [reflexivity|].
    cbn [app]. rewrite !split_cons. cbn [count_occ] in H.
    destruct (Z.eq_dec c LF) as [->|Hne].
    + rewrite Z.eqb_refl. cbn [firstn]. f_equal. apply IH. lia.
    + destruct (Z.eqb_spec c LF) as [E|_]; [congruence|].
      destruct (Z.eq_dec LF c) as [E|_]; [congruence|].
      specialize (IH (S n) H).
      pose proof (split_not_nil (text ++ rest) LF) as N1.
      pose proof (split_not_nil text LF) as N2.
      destruct (split (text ++ rest) LF) as [|p ps]; [congruence|].
      destruct (split text LF) as [|p' ps']; [congruence|].
      cbn [firstn] in IH |- *. injection IH as -> ->. reflexivity.
Qed.

Lemma normalizedLines_trimmed (text : jsstring) (n : nat) (l : jsstring) :
  In l (normalizedLines text n) -> trim l = l.
Proof.
  unfold normalizedLines. rewrite in_map_iff. intros (x & <- & _).
  apply trim_idem.
Qed.

Lemma In_firstn_In {A : Type} (n : nat) (l : list A) (x : A) :
  In x (firstn n l) -> In x l.
Proof.
  intros H. rewrite <- (firstn_skipn n l). apply in_or_app. left. exact H.
Qed.

(** [parseInt] of a string of decimal digits is the number they write. *)
Lemma parseDigits_digits (ds : jsstring) :
  forall acc,
    forallb digit ds = true -> 0 <= acc ->
    exists v,
      parseDigits 10 ds (Some acc) = Some v
      /\ acc * 10 ^ Z.of_nat (List.length ds) <= v
         < (acc + 1) * 10 ^ Z.of_nat (List.length ds).
Proof.
  induction ds as [|c ds IH]; intros acc H Hacc.
  - exists acc. simpl. split; [reflexivity|lia].
  - simpl in H. apply andb_prop in H as [Hc H].
    unfold digit, range in Hc. apply andb_prop in Hc as [H1 H2].
    apply Z.leb_le in H1, H2.
    cbn [parseDigits]. unfold digitValue.
    replace ((48 <=? c) && (c <=? 57)) with true
      by (symmetry; apply andb_true_intro; split; apply Z.leb_le; lia).
    destruct (Z.ltb_spec (c - 48) 10) as [_|?]; [|lia].
    destruct (IH (acc * 10 + (c - 48)) H) as (v & E & B); [lia|].
    exists v. split; [exact E|].
    cbn [List.length]. rewrite Nat2Z.inj_succ, Z.pow_succ_r by lia.
    nia.
Qed.

Lemma digit_cases (c : cu) :
  digit c = true ->
  c = 48 \/ c = 49 \/ c = 50 \/ c = 51 \/ c = 52 \/ c = 53 \/ c = 54
  \/ c = 55 \/ c = 56 \/ c = 57.
Proof.
  unfold digit, range. intros H. apply andb_prop in H as [H1 H2].
  apply Z.leb_le in H1, H2. lia.
Qed.

Lemma parseInt_digits (ds : jsstring) :
  ds <> [] -> forallb digit ds = true ->
  exists v,
    parseInt (Some ds) = Some v
    /\ 0 <= v < 10 ^ Z.of_nat (List.length ds).
Proof.
  intros Hne H. destruct ds as [|c ds]; [congruence|].
  simpl in H. apply andb_prop in H as [Hc H].
  assert (Hgoal : forall d,
             0 <= d <= 9 ->
             parseInt (Some (c :: ds))
             = match parseDigits 10 ds (Some d) with
               | Some n => Some (1 * n)
               | None => NaN
               end ->
             exists v,
               parseInt (Some (c :: ds)) = Some v
               /\ 0 <= v < 10 ^ Z.of_nat (List.length (c :: ds))).
  { intros d Hd E. rewrite E.
    destruct (parseDigits_digits ds d H) as (v & -> & B); [lia|].
    exists (1 * v). split; [reflexivity|].
    cbn [List.length]. rewrite Nat2Z.inj_succ, Z.pow_succ_r by lia.
    nia. }
  destruct (digit_cases c Hc)
    as [->|[->|[->|[->|[->|[->|[->|[->|[->| ->]]]]]]]]];
    try (match goal with
         | |- context [Some (?c :: _)] =>
           apply (Hgoal (c - 48)); [lia|reflexivity]
         end).
  destruct ds as [|d ds]; [exists 0; split; [reflexivity|simpl; lia]|].
  simpl in H. apply andb_prop in H as [Hd H'].
  assert (H2 : forallb digit (d :: ds) = true)
    by (simpl; rewrite Hd, H'; reflexivity).
  destruct (digit_cases d Hd)
    as [->|[->|[->|[->|[->|[->|[->|[->|[->| ->]]]]]]]]];
    (apply (Hgoal 0); [lia|reflexivity]).
Qed.

Ltac group_text :=
  repeat match goal with
         | |- context [firstn (?a + List.length ?y - ?a) (?y ++ _)] =>
           replace (a + List.length y - a)%nat with (List.length y) by lia;
           rewrite firstn_app_exact
         end.

Lemma date_groups (p : regex) (text : jsstring) (m : MatchResult) :
  In p datePatterns -> exec p text = Some m ->
  exists y mo,
    group 1 m = Some y /\ isDigits 4 4 y
    /\ group 2 m = Some mo /\ isDigits 1 2 mo
    /\ (group 3 m = None
        \/ exists d, group 3 m = Some d /\ isDigits 1 2 d).
Proof.
  intros [<-|[<-|[<-|[]]]] E.
  - destruct (yearMonth_groups _ _ E)
      as (y & mo & G1 & L1 & D1 & G2 & L2 & D2 & G3).
    exists y, mo. unfold isDigits. repeat split; auto; lia.
  - destruct (exec_Some_inv _ _ _ E)
      as (before & w & after & st & _ & _ & _ & Hg & M & _).
    cbn in M.
    destruct M as (s1 & (a1 & (y & E1 & Hy & Ly1 & Ly2 & P1 & C1) & ->)
                   & s2 & (c2 & E2 & _ & P2 & C2)
                   & s3 & (a3 & (mo & E3 & Hmo & Lm1 & Lm2 & P3 & C3) & ->)
                   & s4 & (c4 & E4 & _ & P4 & C4)
                   & s5 & (a5 & (d & E5 & Hd & Ld1 & Ld2 & P5 & C5) & ->)
                   & ->).
    cbn [pos rest caps] in *.
    exists y, mo. unfold group. rewrite Hg.
    repeat first [ progress cbn [lookup Nat.eqb caps pos rest]
                 | rewrite C1 | rewrite C2 | rewrite C3 | rewrite C4
                 | rewrite C5 ].
    rewrite P1, P3, P5, E1, E3, E5.
    group_text. unfold isDigits.
    repeat split; auto; try lia.
    right. exists d. repeat split; auto; lia.
  - destruct (exec_Some_inv _ _ _ E)
      as (before & w & after & st & _ & _ & _ & Hg & M & _).
    cbn in M.
    destruct M as (s1 & (a1 & (y & E1 & Hy & Ly1 & Ly2 & P1 & C1) & ->)
                   & s2 & (w2 & E2 & _ & _ & _ & P2 & C2)
                   & s3 & (a3 & (mo & E3 & Hmo & Lm1 & Lm2 & P3 & C3) & ->)
                   & s4 & (w4 & E4 & _ & _ & _ & P4 & C4)
                   & s5 & (a5 & (d & E5 & Hd & Ld1 & Ld2 & P5 & C5) & ->)
                   & ->).
    cbn [pos rest caps] in *.
    exists y, mo. unfold group. rewrite Hg.
    repeat first [ progress cbn [lookup Nat.eqb caps pos rest]
                 | rewrite C1 | rewrite C2 | rewrite C3 | rewrite C4
                 | rewrite C5 ].
    rewrite P1, P3, P5, E1, E3, E5.
    group_text. unfold isDigits.
    repeat split; auto; try lia.
    right. exists d. repeat split; auto; lia.
Qed.

Lemma parseInt_isDigits (lo hi : nat) (s : jsstring) :
  (0 < lo)%nat -> isDigits lo hi s ->
  exists v, parseInt (Some s) = Some v /\ 0 <= v < 10 ^ Z.of_nat hi.
Proof.
  intros Hlo [L D].
  destruct (parseInt_digits s) as (v & E & B); auto.
  - intros ->. simpl in L. lia.
  - exists v. split; [exact E|]. split; [lia|].
    apply Z.lt_le_trans with (1 := proj2 B).
    apply Z.pow_le_mono_r; lia.
Qed.

Lemma numberOr_bounds (n : number) (hi : Z) :
  1 < hi ->
  (n = NaN \/ exists v, n = Some v /\ 0 <= v < hi) ->
  1 <= numberOr n 1 < hi.
Proof.
  intros Hhi [->|(v & -> & B)]; simpl; [lia|].
  destruct v; simpl; lia.
Qed.

Lemma In_trim (s : jsstring) (x : cu) : In x (trim s) -> In x s.
Proof.
  unfold trim. intros H.
  destruct (trimEnd_prefix (trimStart s)) as (w2 & E2 & _).
  destruct (trimStart_suffix s) as (w1 & E1 & _).
  rewrite E1, E2. apply in_or_app. right. apply in_or_app. left. exact H.
Qed.

(** A lazy quantifier stops at the first place where the continuation
    succeeds. *)
Lemma rep_lazy_first (p : charset) (k : cont) (cs : captures)
    (s : jsstring) :
  forall n res,
    rep p false 0 None n s cs k = Some res ->
    exists w s',
      s = w ++ s' /\ forallb p w = true
      /\ k (MState (n + List.length w) s' cs) = Some res
      /\ forall w1 s1,
          s = w1 ++ s1 -> (List.length w1 < List.length w)%nat ->
          k (MState (n + List.length w1) s1 cs) = None.
Proof.
  induction s as [|c s IH]; intros n res H.
  - simpl in H. exists [], []. rewrite Nat.add_0_r.
    destruct (k (MState n [] cs)) eqn:E; [|discriminate].
    repeat split; auto. simpl. intros; lia.
  - simpl in H. destruct (k (MState n (c :: s) cs)) as [r|] eqn:E.
    + exists [], (c :: s). rewrite Nat.add_0_r.
      repeat split; auto; [congruence|]. simpl. intros; lia.
    + destruct (p c) eqn:Hc; [|discriminate].
      destruct (IH _ _ H) as (w & s' & -> & Hw & Hk & Hfirst).
      exists (c :: w), s'. simpl. rewrite Hc, Hw, Nat.add_succ_r.
      repeat split; auto.
      intros [|c1 w1] s1 E1 L; simpl in E1.
      * subst s1. simpl. rewrite Nat.add_0_r. exact E.
      * injection E1 as <- E1. simpl. rewrite Nat.add_succ_r.
        apply Hfirst; [exact E1|simpl in L; lia].
Qed.

Lemma run_seq_split (rs' : list regex) (rs : list regex) :
  forall st k res,
    run (seq (rs ++ rs')) st k = Some res ->
    exists st1, matches (seq rs) st st1 /\ run (seq rs') st1 k = Some res.
Proof.
  induction rs as [|r0 rs IH]; intros st k res H.
  - exists st. split; [reflexivity|exact H].
  - cbn [app seq fold_right run] in H.
    apply run_sound in H as (st0 & M0 & H).
    destruct (IH _ _ _ H) as (st1 & M1 & H1).
    exists st1. split; [|exact H1]. exists st0. auto.
Qed.

Lemma map_canonicalize_app_inv (v a b : jsstring) :
  map canonicalize v = a ++ b ->
  exists va vb,
    v = va ++ vb /\ map canonicalize va = a /\ map canonicalize vb = b.
Proof.
  revert v. induction a as [|x a IH]; intros v E.
  - exists [], v. auto.
  - destruct v as [|c v]; [discriminate|]. simpl in E. injection E as E1 E.
    destruct (IH v E) as (va & vb & -> & Ea & Eb).
    exists (c :: va), vb. simpl. rewrite E1, Ea. auto.
Qed.

Lemma terminator_inv (st st' : mstate) :
  matches terminatorRe st st' ->
  exists term, rest st = term ++ rest st' /\ isTerminator term.
Proof.
  unfold terminatorRe. cbn [alt matches].
  intros [M|[M|[M|M]]].
  - apply matches_litCI in M as (v & E & Hv & _).
    exists v. split; [exact E|]. left. exact Hv.
  - cbn in M. destruct M as (s1 & (c1 & E1 & H1 & _) & s2 & (c2 & E2 & H2 & _) & ->).
    apply Z.eqb_eq in H1, H2. subst.
    exists (js "1."). split; [rewrite E1, E2; reflexivity|].
    right. left. reflexivity.
  - apply matches_litCI in M as (v & E & Hv & _).
    exists v. split; [exact E|]. right. right.
    change (map canonicalize (js "keywords")) with (js "KEY" ++ js "WORDS") in Hv.
    apply map_canonicalize_app_inv in Hv as (va & vb & -> & Ea & Eb).
    exists va, [], vb. auto.
  - cbn [seq fold_right matches star] in M.
    destruct M as (s1 & M1 & s2 & (sp & E2 & Hsp & _) & s3 & M3 & ->).
    apply matches_litCI in M1 as (k & E1 & Hk & _).
    apply matches_litCI in M3 as (w & E3 & Hw & _).
    exists (k ++ sp ++ w). split.
    + rewrite E1, E2, E3, <- !app_assoc. reflexivity.
    + right. right. exists k, sp, w. auto.
Qed.

Lemma terminator_intro (term s : jsstring) (n : nat) (cs : captures) :
  isTerminator term ->
  exists st', matches terminatorRe (MState n (term ++ s) cs) st'.
Proof.
  unfold terminatorRe. cbn [alt matches].
  intros [H|[->|(k & sp & w & -> & Hk & Hsp & Hw)]].
  - eexists. left. apply matches_litCI_intro. exact H.
  - eexists. right. left. cbn [seq fold_right].
    eapply matches_Seq_intro; [apply matches_Chr_intro; reflexivity|].
    eapply matches_Seq_intro; [apply matches_Chr_intro; reflexivity|].
    reflexivity.
  - eexists. right. right. right. cbn [seq fold_right star].
    rewrite <- !app_assoc.
    eapply matches_Seq_intro; [apply matches_litCI_intro; exact Hk|].
    eapply matches_Seq_intro; [apply matches_Rep_intro; [exact Hsp|lia|exact I]|].
    eapply matches_Seq_intro; [apply matches_litCI_intro; exact Hw|].
    reflexivity.
Qed.

Lemma terminator_not_nil (term : jsstring) : isTerminator term -> term <> [].
Proof.
  intros [H|[->|(k & sp & w & -> & Hk & _)]]; try discriminate.
  - intros ->. discriminate.
  - destruct k; discriminate.
Qed.

(** The capture of [abstractRe] ends where the first terminator after
    the marker begins. *)
Lemma abstractRe_capture (text : jsstring) (m : MatchResult) :
  exec abstractRe text = Some m ->
  exists before marker cap term after,
    text = before ++ marker ++ cap ++ term ++ after
    /\ group 1 m = Some cap
    /\ isTerminator term
    /\ forall x t y,
        cap ++ term ++ after = x ++ t ++ y ->
        (List.length x < List.length cap)%nat ->
        ~ isTerminator t.
Proof.
  intros E.
  destruct (exec_Some_run _ _ _ E) as (before & from & st & -> & R & -> & _).
  change abstractRe with
    (seq ([litCI (js "abstract"); star space; opt (one 58); star space]
          ++ [Group 1 (lazyStar dotAll); Ahead terminatorRe])) in R.
  apply run_seq_split in R as (st1 & M1 & R).
  cbn [seq fold_right run lazyStar] in R.
  apply rep_lazy_first in R as (cap & s' & Es & _ & K & First).
  cbn [pos rest caps] in K.
  destruct (run terminatorRe _ Some) as [st3|] eqn:RT in K; [|discriminate].
  injection K as <-.
  destruct (run_sound _ _ _ _ RT) as (st3' & MT & [= ->]).
  pose proof (matches_caps terminatorRe eq_refl _ _ MT) as C3.
  destruct (terminator_inv _ _ MT) as (term & Et & Hterm).
  cbn [pos rest caps] in C3, Et.
  destruct (matches_consumes _ _ _ M1) as (marker & Em & _).
  cbn [rest] in Em.
  exists before, marker, cap, term, (rest st3).
  split; [rewrite Em, Es, Et; reflexivity|].
  split.
  { unfold group. cbn [groups caps]. rewrite C3. cbn [lookup Nat.eqb].
    replace (pos st1 + List.length cap - pos st1)%nat
      with (List.length cap) by lia.
    rewrite Es, firstn_app_exact. reflexivity. }
  split; [exact Hterm|].
  intros x t y Ex Lx Ht.
  assert (E1 : rest st1 = x ++ (t ++ y)) by (rewrite Es, Et; exact Ex).
  specialize (First x (t ++ y) E1 Lx). cbn [pos rest caps] in First.
  destruct (terminator_intro t y (pos st1 + List.length x)
              ((1%nat, firstn (pos st1 + List.length x - pos st1) (rest st1))
                 :: caps st1) Ht) as (st' & M').
  apply (run_complete _ _ _ Some M' blind_Some ltac:(discriminate)).
  match type of First with
  | match ?r with _ => _ end = _ => destruct r eqn:Er
  end; [discriminate First|reflexivity].
Qed.

Lemma infix_firstn_trim (n : nat) (s : jsstring) :
  exists u v, s = u ++ firstn n (trim s) ++ v.
Proof.
  unfold trim.
  destruct (trimStart_suffix s) as (w1 & E1 & _).
  destruct (trimEnd_prefix (trimStart s)) as (w2 & E2 & _).
  exists w1, (skipn n (trimEnd (trimStart s)) ++ w2).
  rewrite (app_assoc (firstn n _) (skipn n _) w2), firstn_skipn, <- E2.
  exact E1.
Qed.

Lemma abstract_present_iff (text : jsstring) :
  (exists a, extractAbstract text = Ok (Some a))
  <-> exists before kw body term after,
        text = before ++ kw ++ body ++ term ++ after
        /\ map canonicalize kw = js "ABSTRACT"
        /\ isTerminator term.
Proof.
  split.
  - intros (a & E).
    apply extractAbstract_Some in E as (m & cap & E & _).
    destruct (exec_Some_run _ _ _ E) as (before & from & st & -> & R & _).
    destruct (run_sound _ _ _ _ R) as (st' & M & _).
    cbn [abstractRe seq fold_right matches] in M.
    destruct M as (s1 & M1 & s2 & M2 & s3 & M3 & s4 & M4 & s5
                   & (s5' & M5 & ->) & s6 & (s6' & M6 & ->) & _).
    apply matches_litCI in M1 as (kw & E1 & Hk & _).
    apply matches_consumes in M2 as (w2 & E2 & _).
    apply matches_consumes in M3 as (w3 & E3 & _).
    apply matches_consumes in M4 as (w4 & E4 & _).
    apply matches_consumes in M5 as (w5 & E5 & _).
    apply terminator_inv in M6 as (term & E6 & Ht).
    cbn [rest] in *.
    exists before, kw, (w2 ++ w3 ++ w4 ++ w5), term, (rest s6').
    split; [|split; [exact Hk|exact Ht]].
    rewrite E1, E2, E3, E4, E5, E6, <- !app_assoc. reflexivity.
  - intros (before & kw & body & term & after & -> & Hk & Ht).
    destruct (exec abstractRe (before ++ kw ++ body ++ term ++ after))
      as [m|] eqn:E.
    + destruct (abstractRe_group _ _ E) as (_ & _ & cap & _ & _ & _ & G).
      rewrite extractAbstract_spec, E, G. eauto.
    + exfalso. apply exec_None_iff in E. apply E.
      destruct (terminator_intro term after
                  (List.length before + 8 + 0 + 0 + 0 + List.length body)
                  ((1%nat, firstn
                      (List.length before + 8 + 0 + 0 + 0 + List.length body
                       - (List.length before + 8 + 0 + 0 + 0))
                      (body ++ term ++ after)) :: []) Ht) as (st' & M').
      exists before, (kw ++ body ++ term ++ after). eexists.
      split; [reflexivity|].
      cbn [abstractRe seq fold_right star opt lazyStar].
      eapply matches_Seq_intro;
        [apply (matches_litCI_intro (js "abstract")); exact Hk|].
      eapply matches_Seq_intro;
        [apply (matches_Rep_intro _ _ _ _ _ []); [reflexivity|cbn; lia|exact I]|].
      eapply matches_Seq_intro;
        [apply (matches_Rep_intro _ _ _ _ _ []); [reflexivity|cbn; lia|cbn; lia]|].
      eapply matches_Seq_intro;
        [apply (matches_Rep_intro _ _ _ _ _ []); [reflexivity|cbn; lia|exact I]|].
      cbn [List.length app].
      eapply matches_Seq_intro.
      { cbn [matches]. eexists. split; [|reflexivity].
        apply (matches_Rep_intro _ _ _ _ _ body); [|cbn; lia|exact I].
        apply forallb_forall. intros c _. reflexivity. }
      cbn [pos rest caps].
      eapply matches_Seq_intro; [|reflexivity].
      cbn [matches]. eexists. split; [|reflexivity].
      exact M'.
Qed.

End ShapeFacts.

Import ShapeFacts.

(** X1.  [extractTitle] reads the first ten lines only: once a text has
    ten line feeds, nothing appended to it changes the title. *)
Theorem title_ignores_later_lines (text rest : jsstring) :
  (10 <= countLF text)%nat ->
  extractTitle (text ++ rest) = extractTitle text.
Proof.
  intros H. unfold extractTitle, lines. rewrite !slice_0.
  rewrite (split_app_firstn rest text 10 H). reflexivity.
Qed.

Lemma title_ignores_later_lines_witness :
  (10 <= countLF (js "Deep Residual Learning" ++ repeat LF 10))%nat
  /\ extractTitle
       ((js "Deep Residual Learning" ++ repeat LF 10)
          ++ js "A Second Candidate Title")
     = Some (js "Deep Residual Learning").
Proof.
  split; [vm_compute; lia|].
  rewrite (title_ignores_later_lines
             (js "Deep Residual Learning" ++ repeat LF 10)
             (js "A Second Candidate Title")).
  - reflexivity.
  - vm_compute. lia.
Defined.

(** X2.  [extractAuthors] reads the first twenty lines only: once a text
    has twenty line feeds, nothing appended to it changes the authors. *)
Theorem authors_ignore_later_lines (text rest : jsstring) :
  (20 <= countLF text)%nat ->
  extractAuthors (text ++ rest) = extractAuthors text.
Proof.
  intros H. unfold extractAuthors, lines. rewrite !slice_0.
  rewrite (split_app_firstn rest text 20 H). reflexivity.
Qed.

Lemma authors_ignore_later_lines_witness :
  (20 <= countLF (js "Ada Lovelace" ++ repeat LF 20))%nat
  /\ extractAuthors
       ((js "Ada Lovelace" ++ repeat LF 20) ++ js "Alan Turing")
     = [js "Ada Lovelace"].
Proof.
  split; [vm_compute; lia|].
  rewrite (authors_ignore_later_lines
             (js "Ada Lovelace" ++ repeat LF 20) (js "Alan Turing")).
  - reflexivity.
  - vm_compute. lia.
Defined.

(** X3.  A title that [extractTitle] returns is one of the first ten
    lines, trimmed; it has 11 to 199 code units and a U+0020 space; it
    does not start with digits and a full stop, nor with [abstract],
    [introduction] or [conclusion] in any case; and it is not made of
    capital letters and white space alone. *)
Theorem title_shape (text t : jsstring) :
  extractTitle text = Some t ->
  In t (normalizedLines text 10)
  /\ trim t = t
  /\ (10 < List.length t < 200)%nat
  /\ In SPACE t
  /\ ~ (exists ds tl,
           t = ds ++ js "." ++ tl /\ ds <> [] /\ forallb digit ds = true)
  /\ ~ (exists kw v tl,
           In kw sectionKeywords /\ t = v ++ tl
           /\ map canonicalize v = map canonicalize kw)
  /\ forallb (union (range 65 90) space) t = false.
Proof.
  intros H.
  destruct (extractTitle_returns _ _ H) as (Hin & Hlen & Hn & Hs & Hu & Hsp).
  split; [exact Hin|]. split; [exact (normalizedLines_trimmed _ _ _ Hin)|].
  split; [exact Hlen|]. split; [exact Hsp|]. split; [|split].
  - intros E. apply isNumbered_iff in E. congruence.
  - intros E. apply isSection_iff in E. congruence.
  - destruct (forallb (union (range 65 90) space) t) eqn:E; [|reflexivity].
    assert (isUppercase t = true); [|congruence].
    apply isUppercase_iff. split; [|exact E].
    intros ->. simpl in Hlen. lia.
Qed.

Lemma title_shape_witness :
  extractTitle (js "Attention Is All You Need")
  = Some (js "Attention Is All You Need")
  /\ In SPACE (js "Attention Is All You Need").
Proof.
  split; [reflexivity|].
  apply (title_shape (js "Attention Is All You Need")
           (js "Attention Is All You Need")).
  reflexivity.
Defined.

(** X4.  Every author that [extractAuthors] returns is one of the first
    twenty lines, trimmed; it begins with two capitalised words, each a
    capital letter and at least one small letter, separated by white
    space; and it does not start with a section keyword. *)
Theorem authors_shape (text a : jsstring) :
  In a (extractAuthors text) ->
  In a (normalizedLines text 20)
  /\ trim a = a
  /\ (exists c1 w1 sp c2 w2 tl,
         a = c1 :: w1 ++ sp ++ c2 :: w2 ++ tl
         /\ range 65 90 c1 = true
         /\ w1 <> [] /\ forallb (range 97 122) w1 = true
         /\ sp <> [] /\ forallb isWhiteSpace sp = true
         /\ range 65 90 c2 = true
         /\ w2 <> [] /\ forallb (range 97 122) w2 = true)
  /\ ~ (exists kw v tl,
           In kw sectionKeywords /\ a = v ++ tl
           /\ map canonicalize v = map canonicalize kw).
Proof.
  rewrite extractAuthors_filter. intros H.
  apply In_firstn_In, filter_In in H as [Hin Hr].
  unfold authorRule in Hr. apply andb_prop in Hr as [Hn Hh].
  apply negb_true_iff in Hh.
  split; [exact Hin|]. split; [exact (normalizedLines_trimmed _ _ _ Hin)|].
  split; [apply nameRe_iff; exact Hn|].
  intros E. apply heading_iff in E. congruence.
Qed.

Lemma authors_shape_witness :
  In (js "Ada Lovelace") (extractAuthors (js "Ada Lovelace"))
  /\ trim (js "Ada Lovelace") = js "Ada Lovelace".
Proof.
  split; [left; reflexivity|].
  apply (authors_shape (js "Ada Lovelace") (js "Ada Lovelace")).
  left. reflexivity.
Defined.

(** X5.  The date that [extractPublicationDate] builds has a year of
    four digits, so between 0 and 9999; the month index passed to
    [new Date] is between 0 and 98 and the day between 1 and 99: a
    month or day written [0] or [00] becomes 1, and nothing checks them
    against the calendar. *)
Theorem date_within_bounds (text : jsstring) (d : JSDate) :
  extractPublicationDate text = Some d ->
  exists y,
    dateYear d = Some y /\ 0 <= y <= 9999
    /\ 0 <= dateMonthIndex d <= 98
    /\ 1 <= dateDay d <= 99.
Proof.
  rewrite extractPublicationDate_firstMatching. intros H.
  destruct (firstMatching datePatterns text) as [m|] eqn:F; [|discriminate].
  injection H as <-.
  destruct (firstMatching_In _ _ _ F) as (p & Hp & E).
  destruct (date_groups p text m Hp E)
    as (y & mo & G1 & D1 & G2 & D2 & G3).
  destruct (parseInt_isDigits 4 4 y) as (vy & Ey & By); [lia|exact D1|].
  destruct (parseInt_isDigits 1 2 mo) as (vm & Em & Bm); [lia|exact D2|].
  unfold dateOfMatch. cbn [dateYear dateMonthIndex dateDay].
  rewrite G1, G2, Ey.
  exists vy. split; [reflexivity|]. split; [simpl in By; lia|].
  pose proof (numberOr_bounds (parseInt (Some mo)) 100 ltac:(lia)) as Bmo.
  pose proof (numberOr_bounds (parseInt (group 3 m)) 100 ltac:(lia)) as Bd.
  split.
  - rewrite Em in *. specialize (Bmo (or_intror (ex_intro _ vm (conj eq_refl Bm)))).
    lia.
  - assert (1 <= numberOr (parseInt (group 3 m)) 1 < 100); [|lia].
    apply Bd. destruct G3 as [->|(dd & -> & Dd)].
    + left. reflexivity.
    + right. apply (parseInt_isDigits 1 2 dd); [lia|exact Dd].
Qed.

Lemma date_within_bounds_witness :
  extractPublicationDate (js "2023-00-45") = Some (NewDate (Some 2023) 0 45)
  /\ exists y,
       dateYear (NewDate (Some 2023) 0 45) = Some y /\ 0 <= y <= 9999
       /\ 0 <= dateMonthIndex (NewDate (Some 2023) 0 45) <= 98
       /\ 1 <= dateDay (NewDate (Some 2023) 0 45) <= 99.
Proof.
  split; [vm_compute; reflexivity|].
  apply (date_within_bounds (js "2023-00-45")).
  vm_compute. reflexivity.
Defined.

(** X6.  A journal name that [extractJournal] returns is trimmed and
    contains no comma. *)
Theorem journal_trimmed_without_comma (text j : jsstring) :
  extractJournal text = Ok (Some j) ->
  trim j = j /\ ~ In 44 j.
Proof.
  intros H. pose proof (extractJournal_spec text) as S.
  destruct (firstMatching journalPatterns text) as [m|].
  - destruct S as (a & b & before & lead & cap & after
                   & _ & _ & _ & _ & _ & Hc & _ & E).
    rewrite E in H. injection H as <-. split; [apply trim_idem|].
    intros Hin. apply In_trim in Hin.
    rewrite forallb_forall in Hc. specialize (Hc 44 Hin). discriminate.
  - rewrite S in H. discriminate.
Qed.

Lemma journal_trimmed_without_comma_witness :
  extractJournal (js "Journal of  Computing , 2020")
  = Ok (Some (js "Computing"))
  /\ trim (js "Computing") = js "Computing".
Proof.
  split; [vm_compute; reflexivity|].
  apply (journal_trimmed_without_comma (js "Journal of  Computing , 2020")).
  vm_compute. reflexivity.
Defined.

(** X7.  An abstract that [extractAbstract] returns contains none of
    the terminators: the lazy capture stops where the first
    [introduction], [1.], [keywords] or [key words] begins. *)
Theorem abstract_has_no_terminator (text a : jsstring) :
  extractAbstract text = Ok (Some a) ->
  forall x t y, a = x ++ t ++ y -> ~ isTerminator t.
Proof.
  intros E x t y Ea Ht.
  apply extractAbstract_Some in E as (m & cap & E & G & Ha & _).
  apply abstractRe_capture in E
    as (before & marker & cap' & term & after & _ & G' & _ & First).
  assert (cap' = cap) by congruence. subst cap'.
  destruct (infix_firstn_trim 1000 cap) as (u & v & Ec).
  rewrite <- Ha, Ea in Ec.
  apply (First (u ++ x) t (y ++ v ++ term ++ after)); [| |exact Ht].
  - rewrite Ec, <- !app_assoc. reflexivity.
  - pose proof (terminator_not_nil t Ht) as Hn.
    rewrite Ec, !length_app.
    destruct t; [congruence|]. simpl. lia.
Qed.

Lemma abstract_has_no_terminator_witness :
  extractAbstract (js "Abstract: We study 2.5 things. 1. Introduction")
  = Ok (Some (js "We study 2.5 things."))
  /\ ~ isTerminator (js "2.").
Proof.
  split; [vm_compute; reflexivity|].
  assert (E : extractAbstract
                (js "Abstract: We study 2.5 things. 1. Introduction")
              = Ok (Some (js "We study 2.5 things.")))
    by (vm_compute; reflexivity).
  apply (abstract_has_no_terminator _ _ E
           (js "We study ") (js "2.") (js "5 things.")).
  reflexivity.
Defined.

(** X8.  [extractAbstract] returns an abstract exactly when the text
    has the word [abstract], in any case, with a terminator somewhere
    after it, and [null] exactly when it has not; it never throws. *)
Theorem abstract_found_iff (text : jsstring) :
  ((exists a, extractAbstract text = Ok (Some a))
   <-> exists before kw body term after,
         text = before ++ kw ++ body ++ term ++ after
         /\ map canonicalize kw = js "ABSTRACT"
         /\ isTerminator term)
  /\ (extractAbstract text = Ok None
      <-> ~ exists before kw body term after,
              text = before ++ kw ++ body ++ term ++ after
              /\ map canonicalize kw = js "ABSTRACT"
              /\ isTerminator term).
Proof.
  pose proof (abstract_present_iff text) as P.
  split; [exact P|].
  destruct (extractAbstract_never_throws text) as ([a|] & E); rewrite E.
  - split; [discriminate|]. intros H. exfalso. apply H, P. eauto.
  - split; [|reflexivity]. intros _ H. apply P in H as (a & Ha).
    rewrite E in Ha. discriminate Ha.
Qed.

(* ================================================================== *)
(** * Part V: properties of the request handlers                       *)
(* ================================================================== *)

Module ServerFacts.

Import Server Conduct.

Lemma strictEquals_eq (a b : jsstring) : strictEquals a b = true <-> a = b.
Proof.
  revert b. induction a as [|x a IH]; intros [|y b]; simpl;
    try (split; [discriminate|discriminate]); [tauto|].
  rewrite andb_true_iff, Z.eqb_eq, IH. split.
  - intros [-> ->]. reflexivity.
  - intros [= -> ->]. auto.
Qed.

Lemma requester_Some (w : World) (userId : jsstring) :
  requester w = Some userId ->
  exists session,
    getServerSession w = Ok session
    /\ sessionUserId session = Some userId /\ userId <> [].
Proof.
  unfold requester. destruct (getServerSession w) as [session|e]; [|discriminate].
  destruct (sessionUserId session) as [[|c t]|] eqn:U; try discriminate.
  intros [= <-]. exists session.
  split; [reflexivity|split; [exact U|discriminate]].
Qed.

Lemma stringOr_not_nil (s : option jsstring) (d : jsstring) :
  d <> [] -> stringOr s d <> [].
Proof. destruct s as [[|c t]|]; simpl; auto; discriminate. Qed.

(** [extractBasicInfo] resolves, whatever pdf-parse does. *)
Lemma extractBasicInfo_Ok (w : World) (buffer : Bytes) :
  exists info,
    extractBasicInfo (pdf w) buffer = Ok info /\ Route.title info <> [].
Proof.
  unfold extractBasicInfo. destruct (pdf w buffer) as [text|e]; simpl.
  - destruct (assemble_never_throws text) as (a & j & _ & _ & ->).
    eexists. split; [reflexivity|]. simpl.
    apply stringOr_not_nil. discriminate.
  - eexists. split; [reflexivity|]. discriminate.
Qed.

Lemma member_truthy (v : Value) (key : jsstring) :
  truthy v = true -> member v key = Ok (prop v key).
Proof.
  unfold prop. destruct v as [[]|]; simpl; try discriminate; reflexivity.
Qed.

Lemma detailsData_truthy (details : Value) :
  truthy details = true -> detailsData details = Ok (detailsOf details).
Proof.
  intros T. unfold detailsData, detailsOf.
  rewrite !(member_truthy details _ T). reflexivity.
Qed.

(** Case analysis on the next call whose answer decides how the handler
    in [R : r = handler ...] goes on. *)
Ltac next_case R :=
  match type of R with
  | context [getServerSession ?w] =>
    revert R; destruct (getServerSession w) as [?|?] eqn:?; intros R
  | context [sessionUserId ?s] =>
    revert R; destruct (sessionUserId s) as [[|? ?]|] eqn:?; intros R
  | context [formData ?r] =>
    revert R; destruct (formData r) as [?|?] eqn:?; intros R
  | context [match ?f (js "file") with _ => _ end] =>
    revert R; destruct (f (js "file")) as [[?|[|? ?]]|] eqn:?; intros R
  | context [strictEquals (type ?f) ?s] =>
    revert R; destruct (strictEquals (type f) s) eqn:?; intros R
  | context [size ?f >? ?m] =>
    revert R; destruct (Z.gtb_spec (size f) m); intros R
  | context [arrayBuffer ?f] =>
    revert R; destruct (arrayBuffer f) as [?|?] eqn:?; intros R
  | context [existsSync ?w ?p] =>
    revert R; destruct (existsSync w p) eqn:?; intros R
  | context [mkdir ?w ?p] =>
    revert R; destruct (mkdir w p) as [[]|?] eqn:?; intros R
  | context [writeFile ?w ?p ?b] =>
    revert R; destruct (writeFile w p b) as [[]|?] eqn:?; intros R
  | context [extractBasicInfo (pdf ?w) ?b] =>
    let info := fresh "info" in
    let E := fresh "E" in
    let T := fresh "T" in
    destruct (extractBasicInfo_Ok w b) as (info & E & T); rewrite E in R
  | context [paperCreate ?w ?d] =>
    revert R; destruct (paperCreate w d) as [?|?] eqn:?; intros R
  | context [paperFindMany ?w ?a] =>
    revert R; destruct (paperFindMany w a) as [?|?] eqn:?; intros R
  | context [paperCount ?w ?a] =>
    revert R; destruct (paperCount w a) as [?|?] eqn:?; intros R
  | context [json ?r] =>
    revert R; destruct (json r) as [[]|?] eqn:?; intros R
  | context [paperFindFirst ?w ?a] =>
    revert R; destruct (paperFindFirst w a) as [[?|]|?] eqn:?; intros R
  | context [paperUpdate ?w ?i ?d] =>
    revert R; destruct (paperUpdate w i d) as [?|?] eqn:?; intros R
  | context [detailsData ?d] =>
    let T := fresh "T" in
    revert R; destruct (truthy d) eqn:T; intros R;
    [rewrite (detailsData_truthy d T) in R|]
  | context [detailsUpsert ?w ?i ?d] =>
    revert R; destruct (detailsUpsert w i d) as [[]|?] eqn:?; intros R
  | context [match Paper.pdfPath ?p with _ => _ end] =>
    revert R; destruct (Paper.pdfPath p) as [[|? ?]|] eqn:?; intros R
  | context [unlink ?w ?p] =>
    revert R; destruct (unlink w p) as [[]|?] eqn:?; intros R
  | context [paperDelete ?w ?i] =>
    revert R; destruct (paperDelete w i) as [?|?] eqn:?; intros R
  end.

(** Two answers of one call. *)
Ltac clash :=
  match goal with
  | H1 : ?a = Ok _, H2 : ?b = Throw _ |- _ =>
    discriminate (eq_trans (eq_sym H1) H2)
  end.

(** Replaces the handler call [h] by each of the ways in which it can
    go. *)
Ltac run h :=
  let r := fresh "r" in
  let R := fresh "R" in
  remember h as r eqn:R;
  unfold POST, GET, GET_id, PUT, DELETE, ensureUploadDir, failed, catch,
    andThen, call, lift, ret in R;
  repeat (cbn [fst snd app negb member truthy truthyString] in R; next_case R);
  cbn [fst snd app negb member truthy truthyString] in R; subst r;
  unfold trace, outcome; cbn [fst snd].

(** Membership in a trace that is written out. *)
Ltac pick H :=
  cbn [In] in H;
  repeat (destruct H as [H|H]; try discriminate H);
  try contradiction.

(** The answer of a handler that has run: its status, and that it is
    500 exactly when the handler logged its own error. *)
Ltac answer :=
  let X := fresh "X" in
  eexists; split; [reflexivity|]; cbn [status];
  split; [cbn [In]; auto 10|];
  split;
  [intros X; try discriminate X; cbn [In]; auto 20
  |intros X; try reflexivity; exfalso; pick X;
   vm_compute in X; discriminate X].


End ServerFacts.

Import Server Conduct ServerFacts.

(** X9.  A request without a signed-in user is answered 401 by all five
    handlers, and the session lookup is the only call they make:
    nothing is read from the request, the disk or the database. *)
(** X9.  A request without a signed-in user is answered 401 by all five
    handlers, and the session lookup is the only call they make:
    nothing is read from the request, the disk or the database. *)
Theorem anonymous_requests_touch_nothing (w : World)
    (upload : UploadRequest) (listing : ListRequest)
    (update : UpdateRequest) (id : jsstring) :
  (exists session,
      getServerSession w = Ok session
      /\ truthyString (sessionUserId session) = false) ->
  POST w upload = ([GetServerSession], Ok unauthorized)
  /\ GET w listing = ([GetServerSession], Ok unauthorized)
  /\ GET_id w id = ([GetServerSession], Ok unauthorized)
  /\ PUT w update id = ([GetServerSession], Ok unauthorized)
  /\ DELETE w id = ([GetServerSession], Ok unauthorized).
Proof.
  intros (session & S & U).
  unfold POST, GET, GET_id, PUT, DELETE. rewrite S. cbn.
  destruct (sessionUserId session) as [[|c t]|]; try discriminate;
    repeat split.
Qed.

Lemma anonymous_requests_touch_nothing_witness :
  status unauthorized = 401
  /\ DELETE (signedOut sampleWorld) (js "p1")
     = ([GetServerSession], Ok unauthorized).
Proof.
  split; [reflexivity|].
  apply (anonymous_requests_touch_nothing (signedOut sampleWorld)
           (uploadOf samplePdf) (MkListRequest (fun _ => None))
           (MkUpdateRequest (Ok JNull)) (js "p1")).
  exists None. split; reflexivity.
Defined.

(** X10.  When [POST] answers 400 or 401 it has made no call but the
    session lookup and the reading of the form: a rejected upload
    leaves the disk and the database as they were. *)
Theorem POST_rejections_read_only (w : World) (request : UploadRequest)
    (resp : Response) :
  outcome (POST w request) = Ok resp ->
  status resp = 400 \/ status resp = 401 ->
  forall e,
    In e (trace (POST w request)) -> e = GetServerSession \/ e = FormData.
Proof.
  run (POST w request); intros [= <-] St eff Hin; cbn [status In] in St, Hin;
    try (destruct St; discriminate);
    repeat (destruct Hin as [<-|Hin]; auto); contradiction.
Qed.

Lemma POST_rejections_read_only_witness :
  outcome (POST sampleWorld (uploadOf sampleText))
  = Ok (MkResponse 400 (ErrorBody (js "PDFファイルのみアップロード可能です")))
  /\ (FormData = GetServerSession \/ FormData = FormData).
Proof.
  split; [vm_compute; reflexivity|].
  apply (POST_rejections_read_only sampleWorld (uploadOf sampleText)
           (MkResponse 400
              (ErrorBody (js "PDFファイルのみアップロード可能です")))).
  - vm_compute. reflexivity.
  - left. reflexivity.
  - vm_compute. auto.
Defined.

(** X11.  [POST] writes a file only for a signed-in user, only when the
    form field [file] is a file whose type is exactly
    [application/pdf] and whose size is at most 52428800 bytes, and
    only after the upload directory exists or was made; what it writes
    are the bytes of that file, at the upload directory joined with
    the generated id, [_] and the file's name. *)
Theorem POST_writes_checked_pdf (w : World) (request : UploadRequest)
    (path : jsstring) (data : Bytes) :
  In (WriteFile path data) (trace (POST w request)) ->
  exists userId form file,
    requester w = Some userId
    /\ formData request = Ok form
    /\ form (js "file") = Some (Upload file)
    /\ type file = js "application/pdf"
    /\ size file <= 52428800
    /\ arrayBuffer file = Ok data
    /\ path = filePathOf w file
    /\ (existsSync w (uploadDirOf w) = true
        \/ mkdir w (uploadDirOf w) = Ok tt).
Proof.
  unfold filePathOf, fileNameOf, uploadDirOf.
  run (POST w request); intros Hin; pick Hin;
    injection Hin as <- <-;
    match goal with
    | H : strictEquals _ _ = true |- _ => apply strictEquals_eq in H
    end;
    match goal with
    | U : sessionUserId _ = Some ?u, F : formData _ = Ok ?f,
      G : ?f _ = Some (Upload ?file) |- _ =>
      exists u, f, file
    end;
    unfold requester;
    repeat match goal with
           | H : ?x = _ |- context [?x] => rewrite H
           end;
    change MAX_FILE_SIZE with 52428800 in *;
    repeat split; auto; lia.
Qed.

Lemma POST_writes_checked_pdf_witness :
  In (WriteFile (js "/srv/uploads/papers/x_a.pdf") [65; 66; 67])
    (trace (POST sampleWorld (uploadOf samplePdf)))
  /\ exists userId form file,
       requester sampleWorld = Some userId
       /\ formData (uploadOf samplePdf) = Ok form
       /\ form (js "file") = Some (Upload file)
       /\ type file = js "application/pdf"
       /\ size file <= 52428800
       /\ arrayBuffer file = Ok [65; 66; 67]
       /\ js "/srv/uploads/papers/x_a.pdf" = filePathOf sampleWorld file
       /\ (existsSync sampleWorld (uploadDirOf sampleWorld) = true
           \/ mkdir sampleWorld (uploadDirOf sampleWorld) = Ok tt).
Proof.
  split; [vm_compute; auto 10|].
  apply (POST_writes_checked_pdf sampleWorld (uploadOf samplePdf)).
  vm_compute. auto 10.
Defined.

(** X12.  The row that [POST] creates describes the upload: it is
    created only after the file was written without error, its
    [pdfPath] is the path written and its [pdfUrl] the same file name
    under [/uploads/papers/], its [userId] is the session's, its other
    fields are what [extractBasicInfo] resolved to on the bytes
    written, and its title is not empty. *)
Theorem POST_row_describes_upload (w : World) (request : UploadRequest)
    (data : CreateData.t) :
  In (PaperCreate data) (trace (POST w request)) ->
  exists userId form file bytes info,
    requester w = Some userId
    /\ formData request = Ok form
    /\ form (js "file") = Some (Upload file)
    /\ arrayBuffer file = Ok bytes
    /\ writeFile w (filePathOf w file) bytes = Ok tt
    /\ extractBasicInfo (pdf w) bytes = Ok info
    /\ data
       = CreateData.Make (Route.title info) (Route.authors info)
           (Route.abstract info) (Route.doi info)
           (Route.publicationDate info) (Route.journal info)
           (filePathOf w file)
           (js "/uploads/papers/" ++ fileNameOf w file)
           userId
    /\ CreateData.title data <> [].
Proof.
  unfold filePathOf, fileNameOf, uploadDirOf.
  run (POST w request); intros Hin; pick Hin;
    injection Hin as <-;
    match goal with
    | U : sessionUserId _ = Some ?u, F : formData _ = Ok ?f,
      G : ?f _ = Some (Upload ?file), A : arrayBuffer ?file = Ok ?b,
      I : extractBasicInfo _ ?b = Ok ?info |- _ =>
      exists u, f, file, b, info
    end;
    unfold requester;
    repeat match goal with
           | H : ?x = _ |- context [?x] => rewrite H
           end;
    repeat split; auto.
Qed.

Lemma POST_row_describes_upload_witness :
  In (PaperCreate
        (CreateData.Make unknownTitle [] None None None None
           (js "/srv/uploads/papers/x_a.pdf") (js "/uploads/papers/x_a.pdf")
           (js "u1")))
    (trace (POST sampleWorld (uploadOf samplePdf)))
  /\ exists userId form file bytes info,
       requester sampleWorld = Some userId
       /\ formData (uploadOf samplePdf) = Ok form
       /\ form (js "file") = Some (Upload file)
       /\ arrayBuffer file = Ok bytes
       /\ writeFile sampleWorld (filePathOf sampleWorld file) bytes = Ok tt
       /\ extractBasicInfo (pdf sampleWorld) bytes = Ok info
       /\ CreateData.Make unknownTitle [] None None None None
            (js "/srv/uploads/papers/x_a.pdf")
            (js "/uploads/papers/x_a.pdf") (js "u1")
          = CreateData.Make (Route.title info) (Route.authors info)
              (Route.abstract info) (Route.doi info)
              (Route.publicationDate info) (Route.journal info)
              (filePathOf sampleWorld file)
              (js "/uploads/papers/" ++ fileNameOf sampleWorld file)
              userId
       /\ CreateData.title
            (CreateData.Make unknownTitle [] None None None None
               (js "/srv/uploads/papers/x_a.pdf")
               (js "/uploads/papers/x_a.pdf") (js "u1"))
          <> [].
Proof.
  split; [vm_compute; auto 10|].
  apply (POST_row_describes_upload sampleWorld (uploadOf samplePdf)).
  vm_compute. auto 10.
Defined.

(** X13.  [POST] answers 200 exactly when it called
    [prisma.paper.create] and that call succeeded; with X12, exactly
    when every step up to and including the insertion succeeded. *)
Theorem POST_success_iff (w : World) (request : UploadRequest) :
  (exists resp, outcome (POST w request) = Ok resp /\ status resp = 200)
  <-> exists data row,
        In (PaperCreate data) (trace (POST w request))
        /\ paperCreate w data = Ok row.
Proof.
  run (POST w request); split;
    try (intros (resp & [= <-] & St); cbn in St; try discriminate St);
    try (intros (data & row & Hin & Hc); cbn [In] in Hin;
         repeat (destruct Hin as [Hin|Hin]; try discriminate Hin);
         try contradiction;
         injection Hin as <-; try clash);
    try (eexists; split; [reflexivity|reflexivity]);
    try (eexists; eexists; split; [|eassumption]; cbn; auto 10).
Qed.

(** X14.  When the insertion fails, [POST] answers 500 and the file it
    has written stays on disk: [POST] never unlinks. *)
Theorem POST_failed_insert_keeps_file (w : World) (request : UploadRequest)
    (data : CreateData.t) (e : JSError) :
  In (PaperCreate data) (trace (POST w request)) ->
  paperCreate w data = Throw e ->
  outcome (POST w request)
  = Ok (MkResponse 500 (ErrorBody (js "アップロード中にエラーが発生しました")))
  /\ forall path, ~ In (Unlink path) (trace (POST w request)).
Proof.
  run (POST w request); intros Hin Hc; pick Hin;
    injection Hin as <-; try clash;
    (split; [reflexivity|]);
    intros path Hp; cbn [In] in Hp;
    repeat (destruct Hp as [Hp|Hp]; try discriminate Hp); contradiction.
Qed.

Lemma POST_failed_insert_keeps_file_witness :
  In (PaperCreate
        (CreateData.Make unknownTitle [] None None None None
           (js "/srv/uploads/papers/x_a.pdf") (js "/uploads/papers/x_a.pdf")
           (js "u1")))
    (trace (POST (readOnly sampleWorld) (uploadOf samplePdf)))
  /\ In (WriteFile (js "/srv/uploads/papers/x_a.pdf") [65; 66; 67])
       (trace (POST (readOnly sampleWorld) (uploadOf samplePdf)))
  /\ outcome (POST (readOnly sampleWorld) (uploadOf samplePdf))
     = Ok (MkResponse 500
             (ErrorBody (js "アップロード中にエラーが発生しました"))).
Proof.
  split; [vm_compute; auto 10|]. split; [vm_compute; auto 10|].
  apply (POST_failed_insert_keeps_file (readOnly sampleWorld)
           (uploadOf samplePdf)
           (CreateData.Make unknownTitle [] None None None None
              (js "/srv/uploads/papers/x_a.pdf")
              (js "/uploads/papers/x_a.pdf") (js "u1"))
           Rejected).
  - vm_compute. auto 10.
  - reflexivity.
Defined.

(** X15.  No handler throws: whatever the session lookup, the request,
    the disk, pdf-parse and the database do, each handler resolves to a
    response, with one of the statuses 200, 400 ([POST] only), 401, 404
    (the handlers of one paper only) and 500; and it answers 500
    exactly when it has logged its own error. *)
Theorem handlers_always_answer (w : World) (upload : UploadRequest)
    (listing : ListRequest) (update : UpdateRequest) (id : jsstring) :
  (exists r,
      outcome (POST w upload) = Ok r
      /\ In (status r) [200; 400; 401; 500]
      /\ (status r = 500
          <-> In (ConsoleError (js "アップロードエラー:"))
                (trace (POST w upload))))
  /\ (exists r,
         outcome (GET w listing) = Ok r
         /\ In (status r) [200; 401; 500]
         /\ (status r = 500
             <-> In (ConsoleError (js "論文一覧取得エラー:"))
                   (trace (GET w listing))))
  /\ (exists r,
         outcome (GET_id w id) = Ok r
         /\ In (status r) [200; 401; 404; 500]
         /\ (status r = 500
             <-> In (ConsoleError (js "論文取得エラー:"))
                   (trace (GET_id w id))))
  /\ (exists r,
         outcome (PUT w update id) = Ok r
         /\ In (status r) [200; 401; 404; 500]
         /\ (status r = 500
             <-> In (ConsoleError (js "論文更新エラー:"))
                   (trace (PUT w update id))))
  /\ (exists r,
         outcome (DELETE w id) = Ok r
         /\ In (status r) [200; 401; 404; 500]
         /\ (status r = 500
             <-> In (ConsoleError (js "論文削除エラー:"))
                   (trace (DELETE w id)))).
Proof.
  split; [run (POST w upload); answer|].
  split; [run (GET w listing); answer|].
  split; [run (GET_id w id); answer|].
  split; [run (PUT w update id); answer|].
  run (DELETE w id); answer.
Qed.

(** X16.  The listing is scoped to the requester: the [where] of
    [findMany] carries the user id of the session, [count] is asked
    with that same [where], and [OR] is absent when the [search]
    parameter is missing or empty and otherwise holds the four
    conditions on title, authors, abstract and journal, with the
    parameter as it came, untrimmed. *)
Theorem listing_scoped_to_requester (w : World) (request : ListRequest)
    (args : FindMany.t) :
  In (PaperFindMany args) (trace (GET w request)) ->
  requester w = Some (Where.userId (FindMany.where_ args))
  /\ (forall where_,
         In (PaperCount where_) (trace (GET w request)) ->
         where_ = FindMany.where_ args)
  /\ (truthyString (searchParams request (js "search")) = false ->
      Where.OR (FindMany.where_ args) = None)
  /\ (forall search,
         searchParams request (js "search") = Some search -> search <> [] ->
         Where.OR (FindMany.where_ args)
         = Some [TitleContains search; AuthorsHas search;
                 AbstractContains search; JournalContains search]).
Proof.
  run (GET w request); intros Hin; pick Hin; injection Hin as <-;
    cbn [FindMany.where_ Where.userId Where.OR];
    (split; [unfold requester;
             repeat match goal with
                    | H : ?x = _ |- context [?x] => rewrite H
                    end; reflexivity|]);
    (split; [intros wh Hc; pick Hc; injection Hc as <-; reflexivity|]);
    (split;
     [intros Hs; destruct (searchParams request (js "search")) as [[|? ?]|];
      try discriminate Hs; reflexivity
     |intros search -> Hne; destruct search; [congruence|reflexivity]]).
Qed.

Lemma listing_scoped_to_requester_witness :
  In (PaperFindMany
        (FindMany.Make (Where.Make (js "u1") None) (Some 0) (Some 10)))
    (trace (GET sampleWorld (MkListRequest (fun _ => None))))
  /\ requester sampleWorld = Some (js "u1").
Proof.
  split; [vm_compute; auto|].
  apply (listing_scoped_to_requester sampleWorld
           (MkListRequest (fun _ => None))
           (FindMany.Make (Where.Make (js "u1") None) (Some 0) (Some 10))).
  vm_compute. auto.
Defined.

(** X17.  The window of a listing: with [page] and [limit] written in
    one to seven digits, or missing or empty and so read as [1] and
    [10], the query skips [(page - 1) * limit] rows and takes
    [limit]. *)
Theorem listing_window (w : World) (request : ListRequest)
    (args : FindMany.t) (p l : jsstring) :
  In (PaperFindMany args) (trace (GET w request)) ->
  stringOr (searchParams request (js "page")) (js "1") = p ->
  stringOr (searchParams request (js "limit")) (js "10") = l ->
  isDigits 1 7 p -> isDigits 1 7 l ->
  exists vp vl,
    parseInt (Some p) = Some vp /\ 0 <= vp < 10 ^ 7
    /\ parseInt (Some l) = Some vl /\ 0 <= vl < 10 ^ 7
    /\ FindMany.skip args = Some ((vp - 1) * vl)
    /\ FindMany.take args = Some vl.
Proof.
  intros Hin Hp Hl Dp Dl.
  destruct (parseInt_isDigits 1 7 p) as (vp & Ep & Bp); [lia|exact Dp|].
  destruct (parseInt_isDigits 1 7 l) as (vl & El & Bl); [lia|exact Dl|].
  exists vp, vl. revert Hin.
  run (GET w request); intros Hin; pick Hin; injection Hin as <-;
    cbn [FindMany.skip FindMany.take];
    rewrite Hp, Hl, Ep, El; auto 10.
Qed.

Lemma listing_window_witness :
  In (PaperFindMany
        (FindMany.Make (Where.Make (js "u1") None) (Some 0) (Some 10)))
    (trace (GET sampleWorld (MkListRequest (fun _ => None))))
  /\ isDigits 1 7 (js "1") /\ isDigits 1 7 (js "10")
  /\ exists vp vl,
       parseInt (Some (js "1")) = Some vp /\ 0 <= vp < 10 ^ 7
       /\ parseInt (Some (js "10")) = Some vl /\ 0 <= vl < 10 ^ 7
       /\ Some 0 = Some ((vp - 1) * vl)
       /\ Some 10 = Some vl.
Proof.
  split; [vm_compute; auto|].
  split; [split; [vm_compute; lia|reflexivity]|].
  split; [split; [vm_compute; lia|reflexivity]|].
  apply (listing_window sampleWorld (MkListRequest (fun _ => None))
           (FindMany.Make (Where.Make (js "u1") None) (Some 0) (Some 10))
           (js "1") (js "10")).
  - vm_compute. auto.
  - reflexivity.
  - reflexivity.
  - split; [vm_compute; lia|reflexivity].
  - split; [vm_compute; lia|reflexivity].
Defined.





(** X20.  [GET /api/papers/:id] answers 200 only with a row that
    [findFirst] returned for this id and the user id of the session,
    and shows that row; it makes no other call. *)
Theorem GET_id_answers_owned_row (w : World) (id : jsstring)
    (resp : Response) :
  outcome (GET_id w id) = Ok resp -> status resp = 200 ->
  exists userId row,
    requester w = Some userId
    /\ paperFindFirst w (FindFirst.Make id userId true) = Ok (Some row)
    /\ body resp = PaperBody (view row)
    /\ trace (GET_id w id)
       = [GetServerSession; PaperFindFirst (FindFirst.Make id userId true)].
Proof.
  unfold requester.
  run (GET_id w id); intros [= <-] St; try discriminate St.
  eexists; eexists. split; [reflexivity|].
  split; [eassumption|]. split; reflexivity.
Qed.

Lemma GET_id_answers_owned_row_witness :
  outcome (GET_id sampleWorld (js "p1"))
  = Ok (MkResponse 200 (PaperBody (view sampleRow)))
  /\ exists userId row,
       requester sampleWorld = Some userId
       /\ paperFindFirst sampleWorld
            (FindFirst.Make (js "p1") userId true) = Ok (Some row)
       /\ body (MkResponse 200 (PaperBody (view sampleRow)))
          = PaperBody (view row)
       /\ trace (GET_id sampleWorld (js "p1"))
          = [GetServerSession;
             PaperFindFirst (FindFirst.Make (js "p1") userId true)].
Proof.
  split; [vm_compute; reflexivity|].
  apply (GET_id_answers_owned_row sampleWorld (js "p1")).
  - vm_compute. reflexivity.
  - reflexivity.
Defined.

(** X21.  A paper that does not exist or belongs to someone else is
    answered 404 by the three handlers of one paper, after the session
    lookup, the reading of the body ([PUT]) and the one [findFirst]:
    nothing is written. *)
Theorem missing_paper_not_found (w : World) (update : UpdateRequest)
    (id userId : jsstring) :
  requester w = Some userId ->
  (forall includeDetails,
      paperFindFirst w (FindFirst.Make id userId includeDetails) = Ok None) ->
  GET_id w id
  = ([GetServerSession; PaperFindFirst (FindFirst.Make id userId true)],
     Ok notFound)
  /\ DELETE w id
     = ([GetServerSession; PaperFindFirst (FindFirst.Make id userId false)],
        Ok notFound)
  /\ (forall body,
         json update = Ok body -> body <> JNull ->
         PUT w update id
         = ([GetServerSession; Json;
             PaperFindFirst (FindFirst.Make id userId false)],
            Ok notFound)).
Proof.
  intros Hr Hf. apply requester_Some in Hr as (session & S & U & Hne).
  split; [|split].
  - unfold GET_id. rewrite S. cbn. rewrite U.
    destruct userId; [congruence|]. cbn. rewrite Hf. reflexivity.
  - unfold DELETE. rewrite S. cbn. rewrite U.
    destruct userId; [congruence|]. cbn. rewrite Hf. reflexivity.
  - intros body J Hb. unfold PUT. rewrite S. cbn. rewrite U.
    destruct userId; [congruence|]. cbn. rewrite J.
    destruct body; try congruence; cbn; rewrite Hf; reflexivity.
Qed.

Lemma missing_paper_not_found_witness :
  requester sampleWorld = Some (js "u1")
  /\ DELETE sampleWorld (js "p2")
     = ([GetServerSession;
         PaperFindFirst (FindFirst.Make (js "p2") (js "u1") false)],
        Ok notFound).
Proof.
  split; [reflexivity|].
  apply (missing_paper_not_found sampleWorld (MkUpdateRequest (Ok JNull))
           (js "p2") (js "u1")).
  - reflexivity.
  - intros includeDetails. reflexivity.
Defined.

(** X22.  [PUT] and [DELETE] write only to a paper of the requester:
    every update, upsert, deletion or unlinking in their traces comes
    after a [findFirst] for this id and the user id of the session
    that returned a row; the database calls name this id and the file
    unlinked is the one at the [pdfPath] of that row. *)
Theorem writes_need_owned_row (w : World) (update : UpdateRequest)
    (id : jsstring) (e : Effect) :
  isWrite e = true ->
  In e (trace (PUT w update id)) \/ In e (trace (DELETE w id)) ->
  exists userId row,
    requester w = Some userId
    /\ paperFindFirst w (FindFirst.Make id userId false) = Ok (Some row)
    /\ concerns id row e.
Proof.
  unfold requester. intros We [Hin|Hin]; revert Hin.
  - run (PUT w update id); intros Hin; pick Hin; subst e;
      try discriminate We;
      (eexists; eexists; split; [reflexivity|]; split; [eassumption|]);
      reflexivity.
  - run (DELETE w id); intros Hin; pick Hin; subst e;
      try discriminate We;
      (eexists; eexists; split; [reflexivity|]; split; [eassumption|]);
      cbn [concerns]; auto.
Qed.

Lemma writes_need_owned_row_witness :
  isWrite (PaperDelete (js "p1")) = true
  /\ In (PaperDelete (js "p1")) (trace (DELETE sampleWorld (js "p1")))
  /\ exists userId row,
       requester sampleWorld = Some userId
       /\ paperFindFirst sampleWorld
            (FindFirst.Make (js "p1") userId false) = Ok (Some row)
       /\ concerns (js "p1") row (PaperDelete (js "p1")).
Proof.
  split; [reflexivity|]. split; [vm_compute; auto 10|].
  apply (writes_need_owned_row sampleWorld (MkUpdateRequest (Ok JNull))
           (js "p1") (PaperDelete (js "p1"))).
  - reflexivity.
  - right. vm_compute. auto 10.
Defined.

(** X23.  [DELETE] of a paper of the requester unlinks first and
    deletes second.  It unlinks exactly when the row has a non-empty
    [pdfPath]; a failure to unlink is logged and changes nothing else;
    the row is then deleted, and the answer is 200 when the deletion
    succeeds and 500 when it fails, in which case the file is already
    gone. *)
Theorem DELETE_unlinks_then_deletes (w : World) (id userId : jsstring)
    (row : Paper.t) :
  requester w = Some userId ->
  paperFindFirst w (FindFirst.Make id userId false) = Ok (Some row) ->
  exists cleanup rest,
    trace (DELETE w id)
    = [GetServerSession; PaperFindFirst (FindFirst.Make id userId false)]
        ++ cleanup ++ PaperDelete id :: rest
    /\ (truthyString (Paper.pdfPath row) = false -> cleanup = [])
    /\ (forall path,
           Paper.pdfPath row = Some path -> path <> [] ->
           cleanup
           = Unlink path
               :: match unlink w path with
                  | Ok _ => []
                  | Throw _ => [ConsoleError (js "PDFファイル削除エラー:")]
                  end)
    /\ (forall deleted,
           paperDelete w id = Ok deleted ->
           rest = []
           /\ outcome (DELETE w id)
              = Ok (MkResponse 200 (DeletedBody (js "論文が削除されました"))))
    /\ (forall error,
           paperDelete w id = Throw error ->
           outcome (DELETE w id)
           = Ok (MkResponse 500
                   (ErrorBody (js "論文の削除中にエラーが発生しました")))).
Proof.
  intros Hr Hf. apply requester_Some in Hr as (session & S & U & Hne).
  destruct userId as [|c t]; [congruence|].
  unfold DELETE, trace, outcome. rewrite S. cbn. rewrite U. cbn.
  rewrite Hf. cbn.
  exists (match Paper.pdfPath row with
          | Some (c' :: path) =>
            Unlink (c' :: path)
              :: match unlink w (c' :: path) with
                 | Ok _ => []
                 | Throw _ => [ConsoleError (js "PDFファイル削除エラー:")]
                 end
          | _ => []
          end),
    (match paperDelete w id with
     | Ok _ => []
     | Throw _ => [ConsoleError (js "論文削除エラー:")]
     end).
  destruct (Paper.pdfPath row) as [[|c' path]|] eqn:P; cbn;
    try (destruct (unlink w (c' :: path)) as [[]|e1] eqn:Un; cbn);
    destruct (paperDelete w id) as [d|e] eqn:D; cbn;
    (split; [reflexivity|]);
    (split; [try discriminate; reflexivity|]);
    (split;
     [intros ? [= <-] Hp; try congruence; try rewrite Un; reflexivity|]);
    split; intros; try discriminate; auto.
Qed.

Lemma DELETE_unlinks_then_deletes_witness :
  requester sampleWorld = Some (js "u1")
  /\ paperFindFirst sampleWorld (FindFirst.Make (js "p1") (js "u1") false)
     = Ok (Some sampleRow)
  /\ exists cleanup rest,
       trace (DELETE sampleWorld (js "p1"))
       = [GetServerSession;
          PaperFindFirst (FindFirst.Make (js "p1") (js "u1") false)]
           ++ cleanup ++ PaperDelete (js "p1") :: rest
       /\ (truthyString (Paper.pdfPath sampleRow) = false -> cleanup = [])
       /\ (forall path,
              Paper.pdfPath sampleRow = Some path -> path <> [] ->
              cleanup
              = Unlink path
                  :: match unlink sampleWorld path with
                     | Ok _ => []
                     | Throw _ => [ConsoleError (js "PDFファイル削除エラー:")]
                     end)
       /\ (forall deleted,
              paperDelete sampleWorld (js "p1") = Ok deleted ->
              rest = []
              /\ outcome (DELETE sampleWorld (js "p1"))
                 = Ok (MkResponse 200
                         (DeletedBody (js "論文が削除されました"))))
       /\ (forall error,
              paperDelete sampleWorld (js "p1") = Throw error ->
              outcome (DELETE sampleWorld (js "p1"))
              = Ok (MkResponse 500
                      (ErrorBody (js "論文の削除中にエラーが発生しました")))).
Proof.
  split; [reflexivity|]. split; [reflexivity|].
  apply (DELETE_unlinks_then_deletes sampleWorld (js "p1") (js "u1")
           sampleRow); reflexivity.
Defined.

(** X24.  A body that cannot be read, or that is [null], makes [PUT]
    answer 500 before it has asked the database anything. *)
Theorem PUT_unreadable_body (w : World) (update : UpdateRequest)
    (id userId : jsstring) :
  requester w = Some userId ->
  json update = Ok JNull \/ (exists error, json update = Throw error) ->
  PUT w update id
  = ([GetServerSession; Json; ConsoleError (js "論文更新エラー:")],
     Ok (MkResponse 500 (ErrorBody (js "論文の更新中にエラーが発生しました")))).
Proof.
  intros Hr Hj. apply requester_Some in Hr as (session & S & U & Hne).
  destruct userId as [|c t]; [congruence|].
  unfold PUT. rewrite S. cbn. rewrite U. cbn.
  destruct Hj as [->|(error & ->)]; reflexivity.
Qed.

Lemma PUT_unreadable_body_witness :
  requester sampleWorld = Some (js "u1")
  /\ PUT sampleWorld (MkUpdateRequest (Ok JNull)) (js "p1")
     = ([GetServerSession; Json; ConsoleError (js "論文更新エラー:")],
        Ok (MkResponse 500
              (ErrorBody (js "論文の更新中にエラーが発生しました")))).
Proof.
  split; [reflexivity|].
  apply (PUT_unreadable_body sampleWorld (MkUpdateRequest (Ok JNull))
           (js "p1") (js "u1")).
  - reflexivity.
  - left. reflexivity.
Defined.

(** X25.  What [PUT] writes to the paper: the id is the one of the
    route; each field is the member of the body of that name, and
    [undefined] when the body has none; but [publicationDate] is
    [null] whenever the member is missing or falsy, so an update that
    leaves the date out clears it. *)
Theorem PUT_update_data (w : World) (update : UpdateRequest)
    (id i : jsstring) (data : UpdateData.t) :
  In (PaperUpdate i data) (trace (PUT w update id)) ->
  exists body,
    json update = Ok body
    /\ i = id
    /\ UpdateData.title data = prop (Some body) (js "title")
    /\ UpdateData.authors data = prop (Some body) (js "authors")
    /\ UpdateData.abstract data = prop (Some body) (js "abstract")
    /\ UpdateData.doi data = prop (Some body) (js "doi")
    /\ UpdateData.journal data = prop (Some body) (js "journal")
    /\ UpdateData.volume data = prop (Some body) (js "volume")
    /\ UpdateData.issue data = prop (Some body) (js "issue")
    /\ UpdateData.pages data = prop (Some body) (js "pages")
    /\ (truthy (prop (Some body) (js "publicationDate")) = true ->
        UpdateData.publicationDate data
        = Some (prop (Some body) (js "publicationDate")))
    /\ (truthy (prop (Some body) (js "publicationDate")) = false ->
        UpdateData.publicationDate data = None).
Proof.
  run (PUT w update id); intros Hin; pick Hin; injection Hin as <- <-;
    (eexists; split; [reflexivity|]);
    cbn [UpdateData.title UpdateData.authors UpdateData.abstract
         UpdateData.doi UpdateData.journal UpdateData.volume
         UpdateData.issue UpdateData.pages UpdateData.publicationDate];
    unfold prop; cbn [member];
    repeat (split; [reflexivity|]);
    split; intros Tp; cbn [truthy] in Tp; try discriminate Tp;
    try rewrite Tp; reflexivity.
Qed.

Lemma PUT_update_data_witness :
  In (PaperUpdate (js "p1")
        (UpdateData.Make (Some (JString (js "T"))) None None None None
           None None None None))
    (trace (PUT sampleWorld
              (MkUpdateRequest
                 (Ok (JObject [(js "title", JString (js "T"))])))
              (js "p1")))
  /\ UpdateData.publicationDate
       (UpdateData.Make (Some (JString (js "T"))) None None None None
          None None None None)
     = None.
Proof.
  split; [vm_compute; auto 10|].
  destruct (PUT_update_data sampleWorld
              (MkUpdateRequest
                 (Ok (JObject [(js "title", JString (js "T"))])))
              (js "p1") (js "p1")
              (UpdateData.Make (Some (JString (js "T"))) None None None None
                 None None None None))
    as (body & _); [vm_compute; auto 10|].
  reflexivity.
Defined.



(* ================================================================== *)
(** * Part VI: properties of the upload forms                          *)
(* ================================================================== *)

Module ClientFacts.

Import Server Conduct ServerFacts Client.

Lemma sift_spec (props : FileUpload.FileUploadProps)
    (random : nat -> jsstring) (fileArray : list File) :
  forall validFiles errors,
    exists added,
      fst (FileUpload.sift props random fileArray validFiles errors)
      = validFiles ++ added
      /\ map FileUpload.file added
         = filter (fun f =>
                     match FileUpload.validateFile props f with
                     | Some (_ :: _) => false
                     | _ => true
                     end) fileArray
      /\ Forall (fun u => FileUpload.status u = FileUpload.Pending) added.
Proof.
  induction fileArray as [|f fs IH]; intros validFiles errors; cbn [FileUpload.sift].
  - exists []. rewrite app_nil_r. auto.
  - cbn [filter].
    destruct (FileUpload.validateFile props f) as [[|c e]|] eqn:V.
    + destruct (IH (validFiles ++ [FileUpload.MkUploadedFile f (random (List.length validFiles)) FileUpload.Pending]) errors)
        as (added & E & M & F).
      eexists (_ :: added). rewrite E, <- app_assoc. cbn [app map].
      split; [reflexivity|]. split; [rewrite M; reflexivity|].
      constructor; [reflexivity|exact F].
    + destruct (IH validFiles (errors ++ [name f ++ js ": " ++ c :: e]))
        as (added & E & M & F).
      exists added. auto.
    + destruct (IH (validFiles ++ [FileUpload.MkUploadedFile f (random (List.length validFiles)) FileUpload.Pending]) errors)
        as (added & E & M & F).
      eexists (_ :: added). rewrite E, <- app_assoc. cbn [app map].
      split; [reflexivity|]. split; [rewrite M; reflexivity|].
      constructor; [reflexivity|exact F].
Qed.

(** A message of [validateFile] is never the empty string. *)
Lemma validateFile_message (props : FileUpload.FileUploadProps) (f : File)
    (message : jsstring) :
  FileUpload.validateFile props f = Some message -> message <> [].
Proof.
  unfold FileUpload.validateFile.
  destruct (size f >? _); [intros [= <-]; discriminate|].
  destruct (negb _); [intros [= <-]; discriminate|discriminate].
Qed.

Lemma validateFile_None (props : FileUpload.FileUploadProps) (f : File) :
  FileUpload.validateFile props f = None
  <-> size f <= FileUpload.maxSize props * 1024 * 1024
      /\ In (type f) (FileUpload.acceptedTypes props).
Proof.
  unfold FileUpload.validateFile.
  destruct (Z.gtb_spec (size f) (FileUpload.maxSize props * 1024 * 1024)).
  - split; [discriminate|lia].
  - destruct (existsb _ _) eqn:Ex; cbn [negb].
    + split; [|reflexivity]. intros _. split; [assumption|].
      apply existsb_exists in Ex as (t & Hin & Ht).
      apply strictEquals_eq in Ht. subst. exact Hin.
    + split; [discriminate|]. intros [_ Hin]. exfalso.
      assert (existsb (strictEquals (type f)) (FileUpload.acceptedTypes props)
              = true); [|congruence].
      apply existsb_exists. exists (type f). split; [exact Hin|].
      apply strictEquals_eq. reflexivity.
Qed.

Lemma filter_length_all {A : Type} (p : A -> bool) (l : list A) :
  List.length (filter p l) = List.length l <-> forallb p l = true.
Proof.
  induction l as [|x l IH]; cbn; [tauto|].
  pose proof (filter_length_le p l) as Hle.
  destruct (p x); cbn.
  - rewrite <- IH. split; [intros [= E]; exact E|congruence].
  - split; [intros E; rewrite E in Hle; lia|discriminate].
Qed.

Lemma filter_all {A : Type} (p : A -> bool) (l : list A) :
  forallb p l = true -> filter p l = l.
Proof.
  induction l as [|x l IH]; cbn; [reflexivity|].
  destruct (p x); cbn; [|discriminate]. intros H. rewrite IH; auto.
Qed.




End ClientFacts.

Import Client ClientFacts.

(** X27.  [addFiles] keeps the list of the component within
    [maxFiles]: from a list that is within the limit it gives a list
    that is within the limit, which is the old list followed by files
    just offered that pass [validateFile], in the order offered, each
    with status [pending]. *)
Theorem addFiles_keeps_limit (props : FileUpload.FileUploadProps)
    (random : nat -> jsstring) (newFiles : list File)
    (prev : list FileUpload.UploadedFile) :
  (List.length prev <= FileUpload.maxFiles props)%nat ->
  let next := fst (FileUpload.addFiles props random newFiles prev) in
  (List.length next <= FileUpload.maxFiles props)%nat
  /\ (exists added,
         next = prev ++ added
         /\ Forall (fun u =>
                      In (FileUpload.file u) newFiles
                      /\ FileUpload.validateFile props (FileUpload.file u)
                         = None
                      /\ FileUpload.status u = FileUpload.Pending) added).
Proof.
  intros Hp next. subst next. unfold FileUpload.addFiles.
  destruct (sift_spec props random newFiles [] []) as (added & E & M & F).
  destruct (FileUpload.sift props random newFiles [] []) as [validFiles errors].
  cbn [fst app] in E. subst validFiles.
  assert (Hadded : Forall (fun u =>
                      In (FileUpload.file u) newFiles
                      /\ FileUpload.validateFile props (FileUpload.file u)
                         = None
                      /\ FileUpload.status u = FileUpload.Pending) added).
  { rewrite Forall_forall in F |- *. intros u Hu.
    assert (Hf : In (FileUpload.file u) (map FileUpload.file added))
      by (apply in_map; exact Hu).
    rewrite M in Hf. apply filter_In in Hf as [Hin Hv].
    split; [exact Hin|]. split; [|apply F; exact Hu].
    destruct (FileUpload.validateFile props (FileUpload.file u))
      as [[|c e]|] eqn:V; try discriminate; [|reflexivity].
    apply validateFile_message in V. congruence. }
  destruct (0 <? List.length added)%nat eqn:L.
  - unfold FileUpload.appended.
    destruct (Nat.ltb_spec (FileUpload.maxFiles props)
                (List.length (prev ++ added))) as [Hlt|Hge]; cbn [fst].
    + unfold slice. cbn [skipn]. rewrite Nat.sub_0_r. split.
      * rewrite length_firstn. lia.
      * exists (firstn (FileUpload.maxFiles props - List.length prev) added).
        split.
        -- rewrite firstn_app, firstn_all2 by exact Hp. reflexivity.
        -- rewrite Forall_forall in Hadded |- *. intros u Hu.
           apply Hadded. rewrite <- (firstn_skipn
             (FileUpload.maxFiles props - List.length prev) added).
           apply in_or_app. left. exact Hu.
    + split; [exact Hge|]. exists added. auto.
  - cbn [fst]. split; [exact Hp|]. exists []. rewrite app_nil_r. auto.
Qed.

Lemma addFiles_keeps_limit_witness :
  (List.length (@nil FileUpload.UploadedFile)
   <= FileUpload.maxFiles FileUpload.defaultProps)%nat
  /\ fst (FileUpload.addFiles FileUpload.defaultProps (fun _ => js "r")
            [samplePdf; sampleText] [])
     = [FileUpload.MkUploadedFile samplePdf (js "r") FileUpload.Pending]
  /\ (List.length
        (fst (FileUpload.addFiles FileUpload.defaultProps (fun _ => js "r")
                [samplePdf; sampleText] []))
      <= FileUpload.maxFiles FileUpload.defaultProps)%nat.
Proof.
  split; [vm_compute; lia|]. split; [vm_compute; reflexivity|].
  pose proof (addFiles_keeps_limit FileUpload.defaultProps
                (fun _ => js "r") [samplePdf; sampleText] []) as T.
  cbv zeta in T. destruct T as (T & _); [vm_compute; lia|].
  exact T.
Defined.

(** X28.  With its default properties the component checks what the
    server checks: [validateFile] accepts a file exactly when its type
    is [application/pdf] and its size is at most 52428800 bytes, which
    is exactly when [POST], for a signed-in user who sends the file in
    the field [file], does not answer 400. *)
Theorem client_check_matches_server (w : World) (file : File)
    (userId : jsstring) :
  requester w = Some userId ->
  (FileUpload.validateFile FileUpload.defaultProps file = None
   <-> type file = js "application/pdf" /\ size file <= 52428800)
  /\ (FileUpload.validateFile FileUpload.defaultProps file = None
      <-> forall resp,
            outcome (POST w (uploadOf file)) = Ok resp ->
            status resp <> 400).
Proof.
  intros Hr.
  assert (V : FileUpload.validateFile FileUpload.defaultProps file = None
              <-> type file = js "application/pdf" /\ size file <= 52428800).
  { rewrite validateFile_None. cbn [FileUpload.maxSize FileUpload.acceptedTypes
                                    FileUpload.defaultProps In].
    change (50 * 1024 * 1024) with 52428800. intuition congruence. }
  split; [exact V|]. rewrite V. clear V. revert Hr. unfold requester.
  run (POST w (uploadOf file)); intros Hr; try discriminate Hr;
    match goal with
    | H : formData (uploadOf _) = _ |- _ =>
      cbn [formData uploadOf] in H; try discriminate H; injection H as <-
    end;
    match goal with
    | H : (if strictEquals (js "file") (js "file") then _ else _) = _ |- _ =>
      change (strictEquals (js "file") (js "file")) with true in H;
      cbv iota in H; try discriminate H; injection H as <-
    end;
    try match goal with
        | H : strictEquals (type _) _ = true |- _ =>
          apply strictEquals_eq in H
        end;
    try match goal with
        | H : strictEquals (type ?f) ?s = false |- _ =>
          assert (type f <> s)
            by (intros E; apply strictEquals_eq in E; congruence)
        end;
    change MAX_FILE_SIZE with 52428800 in *;
    (split;
     [intros [Ht Hs] resp [= <-]; cbn [status]; try congruence; try lia;
      discriminate
     |intros Hall; try (split; [assumption|lia]);
      exfalso; eapply Hall; reflexivity]).
Qed.

Lemma client_check_matches_server_witness :
  requester sampleWorld = Some (js "u1")
  /\ (FileUpload.validateFile FileUpload.defaultProps samplePdf = None
      <-> type samplePdf = js "application/pdf"
          /\ size samplePdf <= 52428800).
Proof.
  split; [reflexivity|].
  apply (client_check_matches_server sampleWorld samplePdf (js "u1")).
  reflexivity.
Defined.

(** X29.  [handleFileSelect] of the upload page takes all the files
    offered or none: when each of them has the type [application/pdf]
    they are appended in order and nothing is shown; when one has not,
    the list stays as it was and one alert is shown.  So a list of PDF
    files stays a list of PDF files; the size is not looked at. *)
Theorem handleFileSelect_all_or_nothing (files prev : list File) :
  let result := UploadPage.handleFileSelect (Some files) prev in
  (forallb UploadPage.isPdf files = true ->
   result = (prev ++ files, []))
  /\ (forallb UploadPage.isPdf files = false ->
      result = (prev, [js "PDFファイルのみアップロード可能です"]))
  /\ (forallb UploadPage.isPdf prev = true ->
      forallb UploadPage.isPdf (fst result) = true).
Proof.
  intros result. subst result. unfold UploadPage.handleFileSelect.
  fold UploadPage.isPdf.
  pose proof (filter_length_all UploadPage.isPdf files) as L.
  destruct (forallb UploadPage.isPdf files) eqn:A.
  - rewrite (filter_all _ _ A), Nat.eqb_refl. cbn [negb fst].
    split; [reflexivity|]. split; [discriminate|].
    intros Hp. rewrite forallb_app, Hp, A. reflexivity.
  - destruct (Nat.eqb_spec (List.length (filter UploadPage.isPdf files))
                (List.length files)) as [E|_].
    + apply L in E. discriminate E.
    + cbn [negb fst]. split; [discriminate|]. split; [reflexivity|auto].
Qed.


